(** * LightData: merge, legacy conversion and transform sanitisation

    A shallow embedding of [src/dxvk/rtx_render/rtx_lights_data.cpp]
    (dxvk-remix).  Single precision values are IEEE binary32 numbers taken
    from the Standard Library's [SpecFloat]; the dirty flags are a 32-bit word
    read with [Z.testbit]; debug assertions and logger calls are recorded as
    events next to the value a function returns. *)

From Stdlib Require Import ZArith List Bool String Ascii Lia.
From Stdlib Require Import Floats.SpecFloat.
Import ListNotations.
Local Open Scope Z_scope.

(** ** binary32 arithmetic *)

Definition prec32 : Z := 24.
Definition emax32 : Z := 128.

Definition float : Type := spec_float.

Definition fadd : float -> float -> float := SFadd prec32 emax32.
Definition fsub : float -> float -> float := SFsub prec32 emax32.
Definition fmul : float -> float -> float := SFmul prec32 emax32.
Definition fdiv : float -> float -> float := SFdiv prec32 emax32.
Definition fsqrt : float -> float := SFsqrt prec32 emax32.
Definition fneg : float -> float := SFopp.
Definition fabs : float -> float := SFabs.
Definition fltb : float -> float -> bool := SFltb.
Definition fleb : float -> float -> bool := SFleb.
Definition feqb : float -> float -> bool := SFeqb.

(** The binary32 value of an integer literal. *)
Definition f32_of_Z (n : Z) : float := binary_normalize prec32 emax32 n 0 false.

(** The binary32 value of the decimal literal [n / d]: both integers are
    exactly representable wherever this is used, so the correctly rounded
    quotient is the value the compiler gives the literal. *)
Definition f32_dec (n d : Z) : float := fdiv (f32_of_Z n) (f32_of_Z d).

Definition valid32 (x : float) : bool := valid_binary prec32 emax32 x.

Definition is_finite (x : float) : bool :=
  match x with
  | S754_zero _ | S754_finite _ _ _ => true
  | _ => false
  end.

Declare Scope f32_scope.
Delimit Scope f32_scope with f32.
Bind Scope f32_scope with float.
Infix "+" := fadd : f32_scope.
Infix "-" := fsub : f32_scope.
Infix "*" := fmul : f32_scope.
Infix "/" := fdiv : f32_scope.
Infix "<?" := fltb : f32_scope.
Infix "<=?" := fleb : f32_scope.
Infix "=?" := feqb : f32_scope.
Notation "- x" := (fneg x) : f32_scope.

Definition f0 : float := S754_zero false.
Definition f1 : float := f32_of_Z 1.
Definition f2 : float := f32_of_Z 2.
Definition f4 : float := f32_of_Z 4.

(** [std::max(a, b)] is [(a < b) ? b : a]. *)
Definition std_max (a b : float) : float := if (a <? b)%f32 then b else a.

(** The order of finite binary32 numbers, as an order on integers. *)
Definition rank (v : float) : Z :=
  match v with
  | S754_finite s m e =>
    let k := (e + 150) * 2 ^ 24 + Z.pos m in
    if s then - k else k
  | _ => 0
  end.

(** ** Vectors and matrices *)

Record Vector3 : Type := mkVector3 { x : float; y : float; z : float }.

Definition Vector3_neg (v : Vector3) : Vector3 :=
  mkVector3 (- x v)%f32 (- y v)%f32 (- z v)%f32.

(** Modelled from the spec: [Vector3 / float] (util_vector.h), the colour is
    "normalized by its peak channel": each component is divided by the
    scalar. *)
Definition Vector3_div (v : Vector3) (s : float) : Vector3 :=
  mkVector3 (x v / s)%f32 (y v / s)%f32 (z v / s)%f32.

Definition Vector3_mul (a b : Vector3) : Vector3 :=
  mkVector3 (x a * x b)%f32 (y a * y b)%f32 (z a * z b)%f32.

Definition Vector3_scale (v : Vector3) (s : float) : Vector3 :=
  mkVector3 (x v * s)%f32 (y v * s)%f32 (z v * s)%f32.

(** [operator==] on vectors compares the components with the float [==]. *)
Definition Vector3_eqb (a b : Vector3) : bool :=
  (x a =? x b)%f32 && (y a =? y b)%f32 && (z a =? z b)%f32.

Definition dot (a b : Vector3) : float :=
  (x a * x b + y a * y b + z a * z b)%f32.

Definition length (v : Vector3) : float := fsqrt (dot v v).

Record Vector2 : Type := mkVector2 { x2 : float; y2 : float }.

Record GfVec4f : Type := mkGfVec4f { c0 : float; c1 : float; c2 : float; c3 : float }.

(** A row-major 4x4 matrix: [rowN] is [localToRoot[N]]. *)
Record GfMatrix4f : Type := mkGfMatrix4f
  { row0 : GfVec4f; row1 : GfVec4f; row2 : GfVec4f; row3 : GfVec4f }.

Definition GetRow3 (r : GfVec4f) : Vector3 := mkVector3 (c0 r) (c1 r) (c2 r).

Definition GetColumn3 (m : GfMatrix4f) : GfVec4f :=
  mkGfVec4f (c3 (row0 m)) (c3 (row1 m)) (c3 (row2 m)) (c3 (row3 m)).

Definition GfVec4f_eqb (a b : GfVec4f) : bool :=
  (c0 a =? c0 b)%f32 && (c1 a =? c1 b)%f32 && (c2 a =? c2 b)%f32 && (c3 a =? c3 b)%f32.

Definition ExtractTranslation (m : GfMatrix4f) : Vector3 := GetRow3 (row3 m).

(** ** Events: logger calls and debug assertions

    A function that logs or asserts returns its value together with the
    events it raised.  An assertion whose condition is false is recorded and
    execution continues, as in a build where [assert] compiles to nothing.

    [ONCE(stmt)] runs [stmt] the first time control reaches that place in
    the process and skips it ever after; the macro is declared outside this
    file and keeps one static flag for each place it is written at.  Nothing
    but the log depends on the flag, so a function records that the place
    was reached, as [Once place event], and [performed] replays such a
    record against the flags of the process: it gives the events that
    happen and the flags afterwards. *)

(** The two places this file writes [ONCE(...)] at: line 200 (tryCreate) and
    line 399 (getLightAttribute). *)
Inductive OnceSite : Type := once_tryCreate | once_getLightAttribute.

Inductive Event : Type :=
| LoggerErr (msg : string) (arg : Z)
| LoggerWarn (msg : string) (path : string)
| AssertFailed (cond : string)
| Once (site : OnceSite) (stmt : Event).

Definition M (A : Type) : Type := (A * list Event)%type.

Definition ret {A : Type} (a : A) : M A := (a, []).

Definition bind {A B : Type} (m : M A) (k : A -> M B) : M B :=
  let (b, evs) := k (fst m) in (b, snd m ++ evs).

Definition value {A : Type} (m : M A) : A := fst m.
Definition events {A : Type} (m : M A) : list Event := snd m.

Notation "v <- m ;; k" := (bind m (fun v => k))
  (at level 61, m at next level, right associativity).
Notation "m ;;; k" := (bind m (fun _ => k))
  (at level 61, right associativity).

Definition assert (cond : string) (b : bool) : M unit :=
  (tt, if b then [] else [AssertFailed cond]).

Definition Logger_err (msg : string) (arg : Z) : M unit := (tt, [LoggerErr msg arg]).
Definition Logger_warn (msg : string) (path : string) : M unit :=
  (tt, [LoggerWarn msg path]).

Definition ONCE (site : OnceSite) (stmt : M unit) : M unit :=
  (tt, map (Once site) (events stmt)).

(** The static flags of the process: which places have run already. *)
Definition OnceFlags : Type := OnceSite -> bool.

Definition OnceSite_eqb (s t : OnceSite) : bool :=
  match s, t with
  | once_tryCreate, once_tryCreate
  | once_getLightAttribute, once_getLightAttribute => true
  | _, _ => false
  end.

Definition fire (site : OnceSite) (fired : OnceFlags) : OnceFlags :=
  fun s => if OnceSite_eqb s site then true else fired s.

Definition noneFired : OnceFlags := fun _ => false.

Fixpoint performed (fired : OnceFlags) (record : list Event) : list Event * OnceFlags :=
  match record with
  | [] => ([], fired)
  | Once site stmt :: record' =>
    if fired site then performed fired record'
    else
      let (happened, fired') := performed (fire site fired) record' in
      (stmt :: happened, fired')
  | event :: record' =>
    let (happened, fired') := performed fired record' in
    (event :: happened, fired')
  end.

(** ** The legacy light call (d3d9types.h) *)

Record D3DCOLORVALUE : Type := mkColor { r : float; g : float; b : float; a : float }.

Definition D3DLIGHT_POINT : Z := 1.
Definition D3DLIGHT_SPOT : Z := 2.
Definition D3DLIGHT_DIRECTIONAL : Z := 3.

Record D3DLIGHT9 : Type := mkD3DLIGHT9
  { Type_ : Z;
    Diffuse : D3DCOLORVALUE;
    Specular : D3DCOLORVALUE;
    Ambient : D3DCOLORVALUE;
    Position : Vector3;
    Direction : Vector3;
    Range : float;
    Falloff : float;
    Attenuation0 : float;
    Attenuation1 : float;
    Attenuation2 : float;
    Theta : float;
    Phi : float }.

(** ** The working record *)

Inductive LightType : Type := Sphere | Rect | Disk | Cylinder | Distant | Unknown.

Definition LightType_eqb (s t : LightType) : bool :=
  match s, t with
  | Sphere, Sphere | Rect, Rect | Disk, Disk | Cylinder, Cylinder
  | Distant, Distant | Unknown, Unknown => true
  | _, _ => false
  end.

(** Modelled from the spec: the rows of [LIST_LIGHT_CONSTANTS] (the table is
    in rtx_lights_data.h); the names are the [m_##name] members this file
    reads and the fields the spec lists. *)
Inductive Constant : Type :=
| Color | EnableColorTemp | ColorTemp | Intensity | Exposure | Radius | Width
| Height | Length | AngleRadians | ConeAngleRadians | ConeSoftness | Focus.

Definition LIST_LIGHT_CONSTANTS : list Constant :=
  [Color; EnableColorTemp; ColorTemp; Intensity; Exposure; Radius; Width;
   Height; Length; AngleRadians; ConeAngleRadians; ConeSoftness; Focus].

(** The [type] column of the table. *)
Definition constType (c : Constant) : Type :=
  match c with
  | Color => Vector3
  | EnableColorTemp => bool
  | _ => float
  end.

Definition Constant_eq_dec (c d : Constant) : {c = d} + {c <> d}.
Proof. decide equality. Defined.

(** [DirtyFlags::k_##name] for every constant, and [k_Transform]. *)
Inductive DirtyFlags : Type :=
| k_ (c : Constant)
| k_Transform.

(** Modelled from the spec: the enumerator values of [DirtyFlags] (declared
    in rtx_lights_data.h): one bit per named field, in table order, then
    [Transform]; every index is below 32, which the deserializer's
    [static_assert] requires. *)
Definition flagIndex (f : DirtyFlags) : Z :=
  match f with
  | k_ Color => 0 | k_ EnableColorTemp => 1 | k_ ColorTemp => 2
  | k_ Intensity => 3 | k_ Exposure => 4 | k_ Radius => 5 | k_ Width => 6
  | k_ Height => 7 | k_ Length => 8 | k_ AngleRadians => 9
  | k_ ConeAngleRadians => 10 | k_ ConeSoftness => 11 | k_ Focus => 12
  | k_Transform => 13
  end.

(** The flag word is 32 bits wide. *)
Definition Flags : Type := Z.
Definition Flags_test (m : Flags) (f : DirtyFlags) : bool := Z.testbit m (flagIndex f).
Definition Flags_set (m : Flags) (f : DirtyFlags) : Flags := Z.lor m (Z.shiftl 1 (flagIndex f)).

(** Modelled from the spec: [m_allDirty] (declared in rtx_lights_data.h) is
    the bitset with every bit set. *)
Definition m_allDirty : Flags := Z.ones 32.

Record LightData : Type := mkLightData
  { m_ : forall c : Constant, constType c;
    m_position : Vector3;
    m_xAxis : Vector3;
    m_yAxis : Vector3;
    m_zAxis : Vector3;
    m_xScale : float;
    m_yScale : float;
    m_zScale : float;
    m_lightType : LightType;
    m_dirty : Flags;
    m_isRelativeTransform : bool;
    m_isOverrideLight : bool;
    m_cachedHash : Z }.

(** Assignments to members, one function per member or group of members. *)

Definition assign {c : Constant} (v : constType c) (consts : forall d, constType d)
  : forall d, constType d :=
  fun d =>
    match Constant_eq_dec c d with
    | left e => eq_rect c constType v d e
    | right _ => consts d
    end.

Definition set_m_ (c : Constant) (v : constType c) (d : LightData) : LightData :=
  mkLightData (assign v (m_ d)) (m_position d) (m_xAxis d) (m_yAxis d) (m_zAxis d)
    (m_xScale d) (m_yScale d) (m_zScale d) (m_lightType d) (m_dirty d)
    (m_isRelativeTransform d) (m_isOverrideLight d) (m_cachedHash d).

Definition set_m_position (v : Vector3) (d : LightData) : LightData :=
  mkLightData (m_ d) v (m_xAxis d) (m_yAxis d) (m_zAxis d)
    (m_xScale d) (m_yScale d) (m_zScale d) (m_lightType d) (m_dirty d)
    (m_isRelativeTransform d) (m_isOverrideLight d) (m_cachedHash d).

Definition set_axes (ax ay az : Vector3) (d : LightData) : LightData :=
  mkLightData (m_ d) (m_position d) ax ay az
    (m_xScale d) (m_yScale d) (m_zScale d) (m_lightType d) (m_dirty d)
    (m_isRelativeTransform d) (m_isOverrideLight d) (m_cachedHash d).

Definition set_m_zAxis (v : Vector3) (d : LightData) : LightData :=
  set_axes (m_xAxis d) (m_yAxis d) v d.

Definition set_scales (sx sy sz : float) (d : LightData) : LightData :=
  mkLightData (m_ d) (m_position d) (m_xAxis d) (m_yAxis d) (m_zAxis d)
    sx sy sz (m_lightType d) (m_dirty d)
    (m_isRelativeTransform d) (m_isOverrideLight d) (m_cachedHash d).

Definition set_m_lightType (t : LightType) (d : LightData) : LightData :=
  mkLightData (m_ d) (m_position d) (m_xAxis d) (m_yAxis d) (m_zAxis d)
    (m_xScale d) (m_yScale d) (m_zScale d) t (m_dirty d)
    (m_isRelativeTransform d) (m_isOverrideLight d) (m_cachedHash d).

Definition set_m_dirty (m : Flags) (d : LightData) : LightData :=
  mkLightData (m_ d) (m_position d) (m_xAxis d) (m_yAxis d) (m_zAxis d)
    (m_xScale d) (m_yScale d) (m_zScale d) (m_lightType d) m
    (m_isRelativeTransform d) (m_isOverrideLight d) (m_cachedHash d).

Definition set_m_cachedHash (h : Z) (d : LightData) : LightData :=
  mkLightData (m_ d) (m_position d) (m_xAxis d) (m_yAxis d) (m_zAxis d)
    (m_xScale d) (m_yScale d) (m_zScale d) (m_lightType d) (m_dirty d)
    (m_isRelativeTransform d) (m_isOverrideLight d) h.

(** ** Helpers of the vector library *)

(** Modelled from the spec: [GfVec3f::Normalize] (USD), "normalize each axis
    vector, recording its pre-normalization length as that axis's scale
    factor".  The vector is divided by its length, or by the smallest length
    USD accepts ([GF_MIN_VECTOR_LENGTH], 1e-10) when the length is not above
    it, so that a zero vector stays the zero vector; the length is returned.
    The quotient is rounded as a binary32 division; nothing proved below
    depends on how USD rounds it. *)
Definition GF_MIN_VECTOR_LENGTH : float := f32_dec 1 10000000000.

Definition Normalize (v : Vector3) : Vector3 * float :=
  let len := length v in
  (Vector3_div v (if (GF_MIN_VECTOR_LENGTH <? len)%f32 then len else GF_MIN_VECTOR_LENGTH), len).

(** Modelled from the spec: [sanitizeSingularity] (util_vector.h), "replace
    any axis that normalizes to the zero vector with the corresponding
    canonical basis vector". *)
Definition sanitizeSingularity (v fallback : Vector3) : Vector3 :=
  if Vector3_eqb v (mkVector3 f0 f0 f0) then fallback else v.

(** Modelled from the spec: [safeNormalize] (util_vector.h), "direction is
    normalized (zero-vector falls back to a canonical axis)". *)
Definition safeNormalize (v fallback : Vector3) : Vector3 :=
  let len := length v in
  if (len =? f0)%f32 then fallback else Vector3_div v len.

(** Modelled from the spec: [isApproxNormalized] (util_vector.h), "unit
    length (tolerance 0.01)". *)
Definition isApproxNormalized (v : Vector3) (threshold : float) : bool :=
  (fabs (length v - f1) <=? threshold)%f32.

Definition tolerance : float := f32_dec 1 100.

(** ** Renderer structures (produced, not owned here) *)

Record RtLightShaping : Type := mkRtLightShaping
  { enabled : bool;
    primaryAxis : Vector3;
    cosConeAngle : float;
    coneSoftness : float;
    focusExponent : float }.

Inductive RtLightType : Type :=
| RtSphere | RtRect | RtDisk | RtCylinder | RtDistant.

Inductive RtShape : Type :=
| RtSphereLight (position radiance : Vector3) (radius : float)
    (shaping : RtLightShaping) (stableHash : Z)
| RtRectLight (position : Vector3) (dimensions : Vector2) (xAxis yAxis radiance : Vector3)
    (shaping : RtLightShaping)
| RtDiskLight (position : Vector3) (halfDimensions : Vector2) (xAxis yAxis radiance : Vector3)
    (shaping : RtLightShaping)
| RtCylinderLight (position : Vector3) (radius : float) (axis : Vector3) (axisLength : float)
    (radiance : Vector3)
| RtDistantLight (direction : Vector3) (halfAngle : float) (radiance : Vector3)
    (stableHash : Z).

(** [RtLight(shape)] and [RtLight(shape, previous)]: the second constructor
    carries state over from the previous frame's light of the same shape. *)
Record RtLight : Type := mkRtLight { shape : RtShape; carriedFrom : option RtShape }.

Definition getType (l : RtLight) : RtLightType :=
  match shape l with
  | RtSphereLight _ _ _ _ _ => RtSphere
  | RtRectLight _ _ _ _ _ _ => RtRect
  | RtDiskLight _ _ _ _ _ _ => RtDisk
  | RtCylinderLight _ _ _ _ _ => RtCylinder
  | RtDistantLight _ _ _ _ => RtDistant
  end.

Definition RtLightType_eqb (s t : RtLightType) : bool :=
  match s, t with
  | RtSphere, RtSphere | RtRect, RtRect | RtDisk, RtDisk | RtCylinder, RtCylinder
  | RtDistant, RtDistant => true
  | _, _ => false
  end.

(** ** The scene-description node, as the queries this file makes of it *)

Inductive UsdLuxSchema : Type :=
| UsdLuxSphereLight | UsdLuxRectLight | UsdLuxDiskLight | UsdLuxCylinderLight
| UsdLuxDistantLight.

Inductive SdfSpecifier : Type := SdfSpecifierDef | SdfSpecifierOver | SdfSpecifierClass.

Record UsdPrim : Type := mkUsdPrim
  { IsA : UsdLuxSchema -> bool;
    GetPath : string;
    GetSpecifier : SdfSpecifier;
    (** the value of attribute [inputs:usd_attr], when it has one *)
    inputsAttribute : forall c : Constant, option (constType c);
    (** the value of the attribute under its older name [usd_attr] *)
    oldAttribute : forall c : Constant, option (constType c);
    (** the path of the attribute under its older name *)
    oldAttributePath : Constant -> string }.

(** [s_unknownLightPattern], expanded:
    [^/RootNode/lights/light_[0-9A-Fa-f]{16}$]. *)
Definition isHexDigit (c : ascii) : bool :=
  let n := nat_of_ascii c in
  ((48 <=? n) && (n <=? 57) || (65 <=? n) && (n <=? 70) || (97 <=? n) && (n <=? 102))%nat.

Fixpoint allHex (s : string) : bool :=
  match s with
  | EmptyString => true
  | String c s' => isHexDigit c && allHex s'
  end.

Definition unknownLightPrefix : string := "/RootNode/lights/light_".

Definition regex_match_unknownLightPattern (path : string) : bool :=
  let n := String.length unknownLightPrefix in
  let rest := substring n (String.length path - n) path in
  String.prefix unknownLightPrefix path
  && (String.length rest =? 16)%nat && allHex rest.

(** The legacy kinds the converter supports. *)
Definition supportedType (light : D3DLIGHT9) : Prop :=
  D3DLIGHT_POINT <= Type_ light <= D3DLIGHT_DIRECTIONAL.

(** ** Configuration read by the converter *)

(** [LightManager::lightConversion...()] and [RtxOptions::sceneScale()]. *)
Record Options : Type := mkOptions
  { lightConversionSphereLightFixedRadius : float;
    lightConversionDistantLightFixedAngle : float;
    lightConversionDistantLightFixedIntensity : float;
    sceneScale : float }.

Definition byte_of_Z (n : Z) : Byte.byte :=
  match Byte.of_N (Z.to_N (n mod 256)) with
  | Some v => v
  | None => Byte.x00
  end.

(** The eight bytes of a 64-bit value, least significant first. *)
Definition bytes_of_u64 (h : Z) : list Byte.byte :=
  map (fun i => byte_of_Z (Z.shiftr h (8 * Z.of_nat i))) (seq 0 8).

Definition legacyStableHalfAngle : float := (f32_dec 349 10000 / f2)%f32.
Definition legacyStableRadius : float := f4.

Fixpoint foldM {A B : Type} (f : A -> B -> M A) (l : list B) (acc : A) : M A :=
  match l with
  | [] => ret acc
  | v :: l' => acc' <- f acc v ;; foldM f l' acc'
  end.

(** Lines 471-484: one axis of the negative-scale repair. *)
Definition flipOnNegativeScale (scale : float) (axis : Vector3) : float * Vector3 :=
  if (scale <? f0)%f32 then ((- scale)%f32, Vector3_neg axis) else (scale, axis).

(** Sample transforms: a scale along the three axes, and an affine matrix
    whose first row is zero although none of its three columns is. *)
Definition diag (sx sy sz : float) : GfMatrix4f :=
  mkGfMatrix4f (mkGfVec4f sx f0 f0 f0) (mkGfVec4f f0 sy f0 f0) (mkGfVec4f f0 f0 sz f0)
    (mkGfVec4f f0 f0 f0 f1).

Definition zeroRowTransform : GfMatrix4f :=
  mkGfMatrix4f (mkGfVec4f f0 f0 f0 f0) (mkGfVec4f f1 f1 f1 f0) (mkGfVec4f f1 f1 f1 f0)
    (mkGfVec4f f0 f0 f0 f1).

(** The scale 2^-100, whose square is below the smallest binary32 number. *)
Definition tinyScale : float := S754_finite false 8388608 (-123).

(** The Point light of the hash-stability example: raw position (1,2,3),
    diffuse (0.5,0.5,0.5), every other member zero. *)
Definition pointLight_1_2_3 : D3DLIGHT9 :=
  let half := f32_dec 1 2 in
  let black := mkColor f0 f0 f0 f0 in
  mkD3DLIGHT9 D3DLIGHT_POINT (mkColor half half half f1) black black
    (mkVector3 (f32_of_Z 1) (f32_of_Z 2) (f32_of_Z 3)) (mkVector3 f0 f0 f0)
    f0 f0 f0 f0 f0 f0 f0.

Definition withSphereLightFixedRadius (radius : float) (opts : Options) : Options :=
  mkOptions radius (lightConversionDistantLightFixedAngle opts)
    (lightConversionDistantLightFixedIntensity opts) (sceneScale opts).

(** ** What this file takes from elsewhere

    The hash function, the mathematical library, the renderer's shaping
    hash, the columns of the constants table and the default-constructed
    record are declared outside this file; the functions below are stated
    over any implementation of them. *)
Class Externals : Type := mkExternals
  { (** xxhash: [XXH64(data, len, seed)], on the [len] bytes at [data] *)
    XXH64 : list Byte.byte -> Z -> Z;
    (** the four bytes that hold a [float] in memory *)
    bytes_of_float : float -> list Byte.byte;
    cosf : float -> float;
    (** [pow(2, e)] *)
    pow2 : float -> float;
    UsdLuxBlackbodyTemperatureAsRgb : float -> Vector3;
    kDegreesToRadians : float;
    (** the integer value of an [RtLightType] enumerator *)
    RtLightType_value : RtLightType -> Z;
    RtLightShaping_getHash : RtLightShaping -> Z;
    (** [RtLightShaping{}] *)
    RtLightShaping_default : RtLightShaping;
    (** the [defaultVal], [minVal] and [maxVal] columns of the constants
        table, and [clamp] at each constant's type *)
    defaultVal : forall c : Constant, constType c;
    minVal : forall c : Constant, constType c;
    maxVal : forall c : Constant, constType c;
    clamp : forall c : Constant, constType c -> constType c -> constType c -> constType c;
    (** [LightData output;]: the default-constructed record *)
    LightData_init : LightData }.

Section LightData.

Context {ext : Externals}.

Definition bytes_of_Vector3 (v : Vector3) : list Byte.byte :=
  bytes_of_float (x v) ++ bytes_of_float (y v) ++ bytes_of_float (z v).

(** *** Shaping and radiance *)

Definition isShapingEnabled (this : LightData) : bool :=
  negb (m_ this ConeAngleRadians =? f32_of_Z 180 * kDegreesToRadians)%f32
  || negb (m_ this ConeSoftness =? f0)%f32
  || negb (m_ this Focus =? f0)%f32.

Definition getLightShaping (this : LightData) (zAxis : Vector3) : RtLightShaping :=
  let enabled := isShapingEnabled this in
  let primaryAxis := zAxis in
  let cosConeAngle := cosf (m_ this ConeAngleRadians) in
  let coneSoftness := m_ this ConeSoftness in
  let focusExponent := m_ this Focus in
  mkRtLightShaping enabled primaryAxis cosConeAngle coneSoftness focusExponent.

Definition calculateRadiance (this : LightData) : Vector3 :=
  let temperature :=
    if (m_ this EnableColorTemp : bool)
    then UsdLuxBlackbodyTemperatureAsRgb (m_ this ColorTemp)
    else mkVector3 f1 f1 f1 in
  Vector3_mul
    (Vector3_scale (Vector3_scale (m_ this Color) (m_ this Intensity)) (pow2 (m_ this Exposure)))
    temperature.

(** *** Lowering *)

Definition toSphere (this : LightData) (originalLight : option RtLight) : RtLight :=
  let radiusScale := std_max (std_max (m_xScale this) (m_yScale this)) (m_zScale this) in
  let sphere :=
    RtSphereLight (m_position this) (calculateRadiance this)
      (m_ this Radius * radiusScale)%f32 (getLightShaping this (m_zAxis this))
      (m_cachedHash this) in
  match originalLight with
  | None => mkRtLight sphere None
  | Some original =>
    if negb (RtLightType_eqb (getType original) RtSphere)
    then mkRtLight sphere None
    else mkRtLight sphere (Some (shape original))
  end.

Definition toRtLight (this : LightData) (originalLight : option RtLight) : M RtLight :=
  match m_lightType this with
  | Sphere => ret (toSphere this originalLight)
  | Rect =>
    let dimensions :=
      mkVector2 (m_ this Width * m_xScale this)%f32 (m_ this Height * m_yScale this)%f32 in
    ret (mkRtLight
           (RtRectLight (m_position this) dimensions (m_xAxis this) (m_yAxis this)
              (calculateRadiance this) (getLightShaping this (m_zAxis this))) None)
  | Disk =>
    let halfDimensions :=
      mkVector2 (m_ this Radius * m_xScale this)%f32 (m_ this Radius * m_yScale this)%f32 in
    ret (mkRtLight
           (RtDiskLight (m_position this) halfDimensions (m_xAxis this) (m_yAxis this)
              (calculateRadiance this) (getLightShaping this (m_zAxis this))) None)
  | Cylinder =>
    let radiusScale := std_max (m_yScale this) (m_zScale this) in
    ret (mkRtLight
           (RtCylinderLight (m_position this) (m_ this Radius * radiusScale)%f32
              (m_xAxis this) (m_ this Length * m_xScale this)%f32
              (calculateRadiance this)) None)
  | Distant =>
    let halfAngle := (m_ this AngleRadians / f2)%f32 in
    ret (mkRtLight
           (RtDistantLight (m_zAxis this) halfAngle (calculateRadiance this)
              (m_cachedHash this)) None)
  | Unknown =>
    (* default: assert(false), then falls through to the Sphere case *)
    assert "false" false ;;;
    ret (toSphere this originalLight)
  end.

(** *** Merging two records *)

Definition WRITE_PARAMETER_MERGE (input this : LightData) (c : Constant) : LightData :=
  if negb (Flags_test (m_dirty this) (k_ c))
  then set_m_ c (m_ input c) this
  else this.

Definition merge (this input : LightData) : LightData :=
  let this := fold_left (WRITE_PARAMETER_MERGE input) LIST_LIGHT_CONSTANTS this in
  if negb (Flags_test (m_dirty this) k_Transform) then
    let this := set_m_position (m_position input) this in
    let this := set_axes (m_xAxis input) (m_yAxis input) (m_zAxis input) this in
    let this := set_scales (m_xScale input) (m_yScale input) (m_zScale input) this in
    this
  else this.

(** *** Records from legacy light calls *)

Definition createFromDirectional (opts : Options) (light : D3DLIGHT9) : LightData :=
  let output := LightData_init in
  let output := set_m_lightType Distant output in
  let originalDirection :=
    mkVector3 (x (Direction light)) (y (Direction light)) (z (Direction light)) in
  let output := set_m_zAxis (safeNormalize originalDirection (mkVector3 f0 f0 f1)) output in
  let output := set_m_ AngleRadians (lightConversionDistantLightFixedAngle opts) output in
  let output :=
    set_m_ Color (mkVector3 (r (Diffuse light)) (g (Diffuse light)) (b (Diffuse light))) output in
  let output := set_m_ Intensity (lightConversionDistantLightFixedIntensity opts) output in
  let output := set_m_cachedHash (RtLightType_value RtRect) output in
  let output :=
    set_m_cachedHash (XXH64 (bytes_of_Vector3 originalDirection) (m_cachedHash output)) output in
  let output :=
    set_m_cachedHash (XXH64 (bytes_of_float legacyStableHalfAngle) (m_cachedHash output)) output in
  output.

Definition createFromPointSpot (opts : Options)
    (calculateIntensity : D3DLIGHT9 -> float -> float) (light : D3DLIGHT9) : M LightData :=
  let output := LightData_init in
  let output := set_m_lightType Sphere output in
  let originalPosition :=
    mkVector3 (x (Position light)) (y (Position light)) (z (Position light)) in
  let originalBrightness :=
    std_max (r (Diffuse light)) (std_max (g (Diffuse light)) (b (Diffuse light))) in
  let output := set_m_position originalPosition output in
  let output :=
    set_m_ Radius (lightConversionSphereLightFixedRadius opts * sceneScale opts)%f32 output in
  let output := set_m_ Intensity (calculateIntensity light (m_ output Radius)) output in
  let output :=
    set_m_ Color
      (Vector3_div (mkVector3 (r (Diffuse light)) (g (Diffuse light)) (b (Diffuse light)))
         originalBrightness) output in
  let originalLightShaping := RtLightShaping_default in
  st <- (if Type_ light =? D3DLIGHT_SPOT then
           let originalDirection :=
             mkVector3 (x (Direction light)) (y (Direction light)) (z (Direction light)) in
           let output :=
             set_m_zAxis (safeNormalize originalDirection (mkVector3 f0 f0 f1)) output in
           assert "isApproxNormalized(output.m_zAxis, 0.01f)"
             (isApproxNormalized (m_zAxis output) tolerance) ;;;
           let output := set_m_ ConeAngleRadians (Phi light / f2)%f32 output in
           let output :=
             set_m_ ConeSoftness
               (cosf (Theta light / f2) - cosf (m_ output ConeAngleRadians))%f32 output in
           let output := set_m_ Focus (Falloff light) output in
           ret (output, getLightShaping output originalDirection)
         else ret (output, originalLightShaping)) ;;
  let output := fst st in
  let originalLightShaping := snd st in
  let output := set_m_cachedHash (RtLightType_value RtSphere) output in
  let output :=
    set_m_cachedHash (XXH64 (bytes_of_Vector3 originalPosition) (m_cachedHash output)) output in
  let output :=
    set_m_cachedHash (XXH64 (bytes_of_float legacyStableRadius) (m_cachedHash output)) output in
  let output :=
    set_m_cachedHash
      (XXH64 (bytes_of_u64 (m_cachedHash output)) (RtLightShaping_getHash originalLightShaping))
      output in
  ret output.

Definition tryCreate (opts : Options) (calculateIntensity : D3DLIGHT9 -> float -> float)
    (light : D3DLIGHT9) : M (option LightData) :=
  if (Type_ light <? D3DLIGHT_POINT) || (D3DLIGHT_DIRECTIONAL <? Type_ light) then
    Logger_err "Attempted to convert a fixed function light with invalid light type: "
      (Type_ light) ;;;
    ONCE once_tryCreate (assert "false" false) ;;;
    ret None
  else if (Type_ light =? D3DLIGHT_POINT) || (Type_ light =? D3DLIGHT_SPOT) then
    output <- createFromPointSpot opts calculateIntensity light ;;
    ret (Some output)
  else if Type_ light =? D3DLIGHT_DIRECTIONAL then
    ret (Some (createFromDirectional opts light))
  else
    (* default: assert(false), then falls through to the Point/Spot case *)
    assert "false" false ;;;
    output <- createFromPointSpot opts calculateIntensity light ;;
    ret (Some output).

(** *** Merging a legacy light call *)

Definition merge_D3DLIGHT9 (opts : Options)
    (calculateIntensity : D3DLIGHT9 -> float -> float)
    (this : LightData) (light : D3DLIGHT9) : M LightData :=
  this <- (if negb (m_dirty this =? m_allDirty) then
             input <- tryCreate opts calculateIntensity light ;;
             match input with
             | Some v => ret (merge this v)
             | None => ret this
             end
           else ret this) ;;
  if LightType_eqb (m_lightType this) Unknown then
    if (Type_ light =? D3DLIGHT_POINT) || (Type_ light =? D3DLIGHT_SPOT) then
      ret (set_m_lightType Sphere this)
    else if Type_ light =? D3DLIGHT_DIRECTIONAL then
      ret (set_m_lightType Distant this)
    else
      (* default: assert(false), then falls through to the Point/Spot case *)
      assert "false" false ;;;
      ret (set_m_lightType Sphere this)
  else ret this.

(** *** Records from scene-description nodes *)

(** [getLightType]: [Some t] is "returns true with [typeOut = t]". *)
Definition getLightType (lightPrim : UsdPrim) : option LightType :=
  if IsA lightPrim UsdLuxSphereLight then Some Sphere
  else if IsA lightPrim UsdLuxRectLight then Some Rect
  else if IsA lightPrim UsdLuxDiskLight then Some Disk
  else if IsA lightPrim UsdLuxCylinderLight then Some Cylinder
  else if IsA lightPrim UsdLuxDistantLight then Some Distant
  else if regex_match_unknownLightPattern (GetPath lightPrim) then Some Unknown
  else None.

Definition isSupportedUsdLight (lightPrim : UsdPrim) : bool :=
  match getLightType lightPrim with
  | Some _ => true
  | None => false
  end.

(** The value held by the attribute [getLightAttribute] returns. *)
Definition getLightAttribute (prim : UsdPrim) (c : Constant) : M (option (constType c)) :=
  match inputsAttribute prim c with
  | Some v => ret (Some v)
  | None =>
    match oldAttribute prim c with
    | Some v =>
      ONCE once_getLightAttribute
        (Logger_warn "Legacy light attribute detected: " (oldAttributePath prim c)) ;;;
      ret (Some v)
    | None => ret None
    end
  end.

Definition WRITE_CONSTANT_DESERIALIZER (prim : UsdPrim) (this : LightData) (c : Constant)
  : M LightData :=
  val <- getLightAttribute prim c ;;
  match val with
  | Some v =>
    let this := set_m_dirty (Flags_set (m_dirty this) (k_ c)) this in
    ret (set_m_ c v this)
  | None => ret this
  end.

Definition deserialize (prim : UsdPrim) (this : LightData) : M LightData :=
  this <- foldM (WRITE_CONSTANT_DESERIALIZER prim) LIST_LIGHT_CONSTANTS this ;;
  let this :=
    if Flags_test (m_dirty this) (k_ ConeAngleRadians)
    then set_m_ ConeAngleRadians (m_ this ConeAngleRadians * kDegreesToRadians)%f32 this
    else this in
  let this :=
    if Flags_test (m_dirty this) (k_ AngleRadians)
    then set_m_ AngleRadians (m_ this AngleRadians * kDegreesToRadians)%f32 this
    else this in
  match GetSpecifier prim with
  | SdfSpecifierDef => ret (set_m_dirty m_allDirty this)
  | _ => ret this
  end.

Definition WRITE_CONSTANT_SANITIZATION (this : LightData) (c : Constant) : LightData :=
  set_m_ c (clamp c (m_ this c) (minVal c) (maxVal c)) this.

Definition sanitizeData (this : LightData) : LightData :=
  fold_left WRITE_CONSTANT_SANITIZATION LIST_LIGHT_CONSTANTS this.

Definition extractTransform (pLocalToRoot : option GfMatrix4f) (this : LightData)
  : M LightData :=
  match pLocalToRoot with
  | None => ret this
  | Some localToRoot =>
    let '(xVecUsd, xScale) := Normalize (GetRow3 (row0 localToRoot)) in
    let '(yVecUsd, yScale) := Normalize (GetRow3 (row1 localToRoot)) in
    let '(zVecUsd, zScale) := Normalize (GetRow3 (row2 localToRoot)) in
    let position := ExtractTranslation localToRoot in
    let xAxis := sanitizeSingularity xVecUsd (mkVector3 f1 f0 f0) in
    let yAxis := sanitizeSingularity yVecUsd (mkVector3 f0 f1 f0) in
    let zAxis := sanitizeSingularity zVecUsd (mkVector3 f0 f0 f1) in
    let zAxis :=
      match m_lightType this with
      | Sphere | Unknown => Vector3_neg zAxis
      | _ => zAxis
      end in
    let '(xScale, xAxis) := flipOnNegativeScale xScale xAxis in
    let '(yScale, yAxis) := flipOnNegativeScale yScale yAxis in
    let '(zScale, zAxis) := flipOnNegativeScale zScale zAxis in
    let this := set_m_position position this in
    let this := set_axes xAxis yAxis zAxis this in
    let this := set_scales xScale yScale zScale this in
    assert "isApproxNormalized(m_xAxis, 0.01f)" (isApproxNormalized (m_xAxis this) tolerance) ;;;
    assert "isApproxNormalized(m_yAxis, 0.01f)" (isApproxNormalized (m_yAxis this) tolerance) ;;;
    assert "isApproxNormalized(m_zAxis, 0.01f)" (isApproxNormalized (m_zAxis this) tolerance) ;;;
    assert "m_xScale > 0.0f && m_yScale > 0.0f && m_zScale > 0.0f"
      ((f0 <? m_xScale this)%f32 && (f0 <? m_yScale this)%f32 && (f0 <? m_zScale this)%f32) ;;;
    ret (set_m_dirty (Flags_set (m_dirty this) k_Transform) this)
  end.

(** The constructor [LightData(lightPrim, pLocalToRoot, isOverrideLight,
    absoluteTransform)].  The members its initializer list does not name
    (position, axes, scales, hash) start as in [LightData_init]. *)
Definition LightData_ctor (lightPrim : UsdPrim) (pLocalToRoot : option GfMatrix4f)
    (isOverrideLight absoluteTransform : bool) : M LightData :=
  let this :=
    mkLightData defaultVal (m_position LightData_init)
      (m_xAxis LightData_init) (m_yAxis LightData_init) (m_zAxis LightData_init)
      (m_xScale LightData_init) (m_yScale LightData_init) (m_zScale LightData_init)
      Unknown 0 (negb absoluteTransform && negb isOverrideLight) isOverrideLight
      (m_cachedHash LightData_init) in
  let this :=
    match getLightType lightPrim with
    | Some t => set_m_lightType t this
    | None => this
    end in
  this <- deserialize lightPrim this ;;
  this <- extractTransform pLocalToRoot this ;;
  ret (sanitizeData this).

Definition hasZeroScaleColumn (localToRoot : GfMatrix4f) : bool :=
  let zeroVec3 := mkVector3 f0 f0 f0 in
  Vector3_eqb (mkVector3 (c0 (row0 localToRoot)) (c0 (row1 localToRoot)) (c0 (row2 localToRoot)))
    zeroVec3
  || Vector3_eqb (mkVector3 (c1 (row0 localToRoot)) (c1 (row1 localToRoot)) (c1 (row2 localToRoot)))
       zeroVec3
  || Vector3_eqb (mkVector3 (c2 (row0 localToRoot)) (c2 (row1 localToRoot)) (c2 (row2 localToRoot)))
       zeroVec3.

Definition tryCreate_UsdPrim (lightPrim : UsdPrim) (pLocalToRoot : option GfMatrix4f)
    (isOverrideLight absoluteTransform : bool) : M (option LightData) :=
  if negb (isSupportedUsdLight lightPrim) then ret None
  else
    match pLocalToRoot with
    | Some localToRoot =>
      assert "localToRoot.GetColumn(3) == pxr::GfVec4f(0.0f, 0.0f, 0.0f, 1.0f)"
        (GfVec4f_eqb (GetColumn3 localToRoot) (mkGfVec4f f0 f0 f0 f1)) ;;;
      if hasZeroScaleColumn localToRoot then ret None
      else
        this <- LightData_ctor lightPrim pLocalToRoot isOverrideLight absoluteTransform ;;
        ret (Some this)
    | None =>
      this <- LightData_ctor lightPrim pLocalToRoot isOverrideLight absoluteTransform ;;
      ret (Some this)
    end.

(** *** The operations on a working record, as steps *)

Inductive step (opts : Options) (calculateIntensity : D3DLIGHT9 -> float -> float)
  : LightData -> LightData -> Prop :=
| step_merge (this input : LightData) :
    step opts calculateIntensity this (merge this input)
| step_merge_D3DLIGHT9 (this : LightData) (light : D3DLIGHT9) :
    step opts calculateIntensity this
      (value (merge_D3DLIGHT9 opts calculateIntensity this light))
| step_toRtLight (this : LightData) (originalLight : option RtLight) (out : RtLight) :
    (* toRtLight is const: it yields [out] and the record stays as it is *)
    value (toRtLight this originalLight) = out ->
    step opts calculateIntensity this this
| step_deserialize (this : LightData) (prim : UsdPrim) :
    step opts calculateIntensity this (value (deserialize prim this))
| step_extractTransform (this : LightData) (pLocalToRoot : option GfMatrix4f) :
    step opts calculateIntensity this (value (extractTransform pLocalToRoot this))
| step_sanitizeData (this : LightData) :
    step opts calculateIntensity this (sanitizeData this).

Inductive steps (opts : Options) (calculateIntensity : D3DLIGHT9 -> float -> float)
  : LightData -> LightData -> Prop :=
| steps_refl (d : LightData) : steps opts calculateIntensity d d
| steps_cons (d d' d'' : LightData) :
    step opts calculateIntensity d d' ->
    steps opts calculateIntensity d' d'' ->
    steps opts calculateIntensity d d''.


(** *** The identity hash of a legacy light, from the call alone *)

(** The shaping whose hash is mixed into a Point or Spot light's identity
    hash: for a Spot light it is built on the direction as the call gives it
    and on the call's cone and falloff parameters; for a Point light it is
    [RtLightShaping{}]. *)
Definition stableShaping (light : D3DLIGHT9) : RtLightShaping :=
  if Type_ light =? D3DLIGHT_SPOT then
    let coneAngle := (Phi light / f2)%f32 in
    let softness := (cosf (Theta light / f2) - cosf coneAngle)%f32 in
    mkRtLightShaping
      (negb (coneAngle =? f32_of_Z 180 * kDegreesToRadians)%f32
       || negb (softness =? f0)%f32
       || negb (Falloff light =? f0)%f32)
      (Direction light) (cosf coneAngle) softness (Falloff light)
  else RtLightShaping_default.

Definition stableHash_PointSpot (light : D3DLIGHT9) : Z :=
  let h := RtLightType_value RtSphere in
  let h := XXH64 (bytes_of_Vector3 (Position light)) h in
  let h := XXH64 (bytes_of_float legacyStableRadius) h in
  XXH64 (bytes_of_u64 h) (RtLightShaping_getHash (stableShaping light)).

Definition stableHash_Directional (light : D3DLIGHT9) : Z :=
  let h := RtLightType_value RtRect in
  let h := XXH64 (bytes_of_Vector3 (Direction light)) h in
  XXH64 (bytes_of_float legacyStableHalfAngle) h.

(** The seven geometric members, which [k_Transform] guards together. *)
Definition geometry (d : LightData)
  : Vector3 * Vector3 * Vector3 * Vector3 * float * float * float :=
  (m_position d, m_xAxis d, m_yAxis d, m_zAxis d, m_xScale d, m_yScale d, m_zScale d).

(** Everything in a record but its constants. *)
Definition frame (d : LightData) :=
  (geometry d, m_lightType d, m_dirty d, m_isRelativeTransform d, m_isOverrideLight d,
   m_cachedHash d).

End LightData.

(** ** A sample implementation of the externals, and sample inputs *)

Module Sample.

(** A byte-wise multiplicative hash over 64 bits, standing in for xxhash. *)
Definition hash64 (data : list Byte.byte) (seed : Z) : Z :=
  fold_left (fun h v => (Z.lxor h (Z.of_N (Byte.to_N v)) * 1099511628211) mod 2 ^ 64)
    data seed.

(** The IEEE 754 binary32 encoding (NaN as the quiet NaN 0x7FC00000). *)
Definition bits_of_float (v : float) : Z :=
  let sign (s : bool) := if s then Z.shiftl 1 31 else 0 in
  match v with
  | S754_zero s => sign s
  | S754_infinity s => Z.lor (sign s) 2139095040
  | S754_nan => 2143289344
  | S754_finite s m e =>
    if Z.pos m <? 2 ^ 23 then Z.lor (sign s) (Z.pos m)
    else Z.lor (sign s) (Z.lor (Z.shiftl (e + 150) 23) (Z.pos m - 2 ^ 23))
  end.

Definition float_bytes (v : float) : list Byte.byte :=
  map (fun i => byte_of_Z (Z.shiftr (bits_of_float v) (8 * Z.of_nat i))) (seq 0 4).

Definition shapingHash (s : RtLightShaping) : Z :=
  if enabled s then
    hash64 (float_bytes (x (primaryAxis s)) ++ float_bytes (y (primaryAxis s))
            ++ float_bytes (z (primaryAxis s)) ++ float_bytes (cosConeAngle s)
            ++ float_bytes (coneSoftness s) ++ float_bytes (focusExponent s)) 0
  else 0.

Definition lightTypeValue (t : RtLightType) : Z :=
  match t with
  | RtSphere => 0 | RtRect => 1 | RtDisk => 2 | RtCylinder => 3 | RtDistant => 4
  end.

Definition defaults (c : Constant) : constType c :=
  match c with
  | Color => mkVector3 f1 f1 f1
  | EnableColorTemp => false
  | ColorTemp => f32_of_Z 6500
  | Intensity => f1
  | Exposure => f0
  | Radius => f32_dec 1 2
  | Width => f1
  | Height => f1
  | Length => f1
  | AngleRadians => f32_dec 53 100
  | ConeAngleRadians => f32_of_Z 180
  | ConeSoftness => f0
  | Focus => f0
  end.

Definition FLT_MAX : float := S754_finite false 16777215 104.

Definition lowest (c : Constant) : constType c :=
  match c with
  | Color => mkVector3 f0 f0 f0
  | EnableColorTemp => false
  | Exposure => fneg FLT_MAX
  | _ => f0
  end.

Definition highest (c : Constant) : constType c :=
  match c with
  | Color => mkVector3 FLT_MAX FLT_MAX FLT_MAX
  | EnableColorTemp => true
  | AngleRadians | ConeAngleRadians => f32_of_Z 180
  | ConeSoftness => f1
  | _ => FLT_MAX
  end.

Definition clampFloat (v lo hi : float) : float :=
  if (v <? lo)%f32 then lo else if (hi <? v)%f32 then hi else v.

Definition clampConstant (c : Constant) : constType c -> constType c -> constType c -> constType c :=
  match c with
  | Color => fun v lo hi =>
      mkVector3 (clampFloat (x v) (x lo) (x hi)) (clampFloat (y v) (y lo) (y hi))
        (clampFloat (z v) (z lo) (z hi))
  | EnableColorTemp => fun v _ _ => v
  | _ => clampFloat
  end.

(** The integer part of a finite number (zero otherwise); the sample
    [pow2] raises two to it. *)
Definition integerPart (v : float) : Z :=
  match v with
  | S754_finite s m k =>
    let n := if 0 <=? k then Z.pos m * 2 ^ k else Z.pos m / 2 ^ (- k) in
    if s then - n else n
  | _ => 0
  end.

Definition init : LightData :=
  mkLightData defaults (mkVector3 f0 f0 f0)
    (mkVector3 f1 f0 f0) (mkVector3 f0 f1 f0) (mkVector3 f0 f0 f1)
    f1 f1 f1 Unknown 0 false false 0.

#[local] Instance externals : Externals :=
  {| XXH64 := hash64;
     bytes_of_float := float_bytes;
     cosf := fun v => (f1 - v * v / f2)%f32;
     pow2 := fun e => SFldexp prec32 emax32 f1 (integerPart e);
     UsdLuxBlackbodyTemperatureAsRgb := fun _ => mkVector3 f1 f1 f1;
     kDegreesToRadians := S754_finite false 9370165 (-29);
     RtLightType_value := lightTypeValue;
     RtLightShaping_getHash := shapingHash;
     RtLightShaping_default := mkRtLightShaping false (mkVector3 f0 f0 f0) f0 f0 f0;
     defaultVal := defaults;
     minVal := lowest;
     maxVal := highest;
     clamp := clampConstant;
     LightData_init := init |}.

Definition options : Options := mkOptions f4 (f32_dec 349 10000) f1 f1.

(** A stand-in for [LightUtils::calculateIntensity]. *)
Definition intensity (light : D3DLIGHT9) (radius : float) : float :=
  (std_max (r (Diffuse light)) (std_max (g (Diffuse light)) (b (Diffuse light)))
   * radius * radius)%f32.

Definition noAttribute (c : Constant) : option (constType c) := None.

(** Stand-ins for the older attribute names of the table. *)
Definition attributeName (c : Constant) : string :=
  match c with
  | Color => "color"
  | EnableColorTemp => "enableColorTemperature"
  | ColorTemp => "colorTemperature"
  | Intensity => "intensity"
  | Exposure => "exposure"
  | Radius => "radius"
  | Width => "width"
  | Height => "height"
  | Length => "length"
  | AngleRadians => "angle"
  | ConeAngleRadians => "shaping:cone:angle"
  | ConeSoftness => "shaping:cone:softness"
  | Focus => "shaping:focus"
  end.

Definition attributePath (primPath : string) (c : Constant) : string :=
  (primPath ++ "." ++ attributeName c)%string.

(** A captured light without a schema, defined in full at the reserved path. *)
Definition unknownDefPrim : UsdPrim :=
  mkUsdPrim (fun _ => false) "/RootNode/lights/light_0123456789ABCDEF" SdfSpecifierDef
    noAttribute noAttribute (attributePath "/RootNode/lights/light_0123456789ABCDEF").

(** An override of a sphere light that authors the radius only. *)
Definition sphereOverPrim : UsdPrim :=
  mkUsdPrim (fun s => match s with UsdLuxSphereLight => true | _ => false end)
    "/RootNode/lights/sphere" SdfSpecifierOver
    (fun c => match c as c' return option (constType c') with
              | Radius => Some f2
              | _ => None
              end)
    noAttribute (attributePath "/RootNode/lights/sphere").

(** A sphere light authored before the attributes were renamed: intensity
    and radius under their older names only. *)
Definition legacySpherePrim : UsdPrim :=
  mkUsdPrim (fun s => match s with UsdLuxSphereLight => true | _ => false end)
    "/RootNode/lights/old" SdfSpecifierOver
    noAttribute
    (fun c => match c as c' return option (constType c') with
              | Intensity => Some f1
              | Radius => Some f2
              | _ => None
              end)
    (attributePath "/RootNode/lights/old").

Definition fullyDefinedUnknown : LightData :=
  value (LightData_ctor unknownDefPrim None false false).

Definition radiusAndTransform : LightData :=
  value (LightData_ctor sphereOverPrim (Some (diag f2 f2 f2)) true false).

Definition radiusOnly : LightData :=
  value (LightData_ctor sphereOverPrim None true false).

Definition fromPoint : LightData :=
  value (createFromPointSpot options intensity pointLight_1_2_3).

Definition invalidLight : D3DLIGHT9 :=
  let black := mkColor f0 f0 f0 f0 in
  mkD3DLIGHT9 7 black black black (mkVector3 f0 f0 f0) (mkVector3 f0 f0 f1)
    f0 f0 f0 f0 f0 f0 f0.

Definition directionalLight : D3DLIGHT9 :=
  let white := mkColor f1 f1 f1 f1 in
  mkD3DLIGHT9 D3DLIGHT_DIRECTIONAL white white white (mkVector3 f0 f0 f0)
    (mkVector3 f0 f0 f2) f0 f0 f0 f0 f0 f0 f0.

(** A Point light whose red channel is infinite. *)
Definition infinitePeakLight : D3DLIGHT9 :=
  let black := mkColor f0 f0 f0 f0 in
  mkD3DLIGHT9 D3DLIGHT_POINT (mkColor (S754_infinity false) f0 f0 f1) black black
    (mkVector3 f0 f0 f0) (mkVector3 f0 f0 f1) f0 f0 f0 f0 f0 f0 f0.

(** A Point light whose diffuse colour is all zero. *)
Definition blackPointLight : D3DLIGHT9 :=
  let black := mkColor f0 f0 f0 f0 in
  mkD3DLIGHT9 D3DLIGHT_POINT black black black
    (mkVector3 f0 f0 f0) (mkVector3 f0 f0 f1) f0 f0 f0 f0 f0 f0 f0.

End Sample.

(** ** Auxiliary definitions for the properties *)

(** The renderer shape a record type lowers to (the switch of toRtLight,
    whose default case falls through to the sphere). *)
Definition loweredType (t : LightType) : RtLightType :=
  match t with
  | Sphere | Unknown => RtSphere
  | Rect => RtRect
  | Disk => RtDisk
  | Cylinder => RtCylinder
  | Distant => RtDistant
  end.

(** The value a node authors for a constant: under the name
    [inputs:usd_attr] if it has one there, else under the older name. *)
Definition authored (prim : UsdPrim) (c : Constant) : option (constType c) :=
  match inputsAttribute prim c with
  | Some v => Some v
  | None => oldAttribute prim c
  end.

Definition isSome {A : Type} (o : option A) : bool :=
  match o with
  | Some _ => true
  | None => false
  end.

(** Whether a node authors a constant under its older name only. *)
Definition legacyOnly (prim : UsdPrim) (c : Constant) : bool :=
  match inputsAttribute prim c, oldAttribute prim c with
  | None, Some _ => true
  | _, _ => false
  end.

(** The warning of getLightAttribute for a constant. *)
Definition legacyWarning (prim : UsdPrim) (c : Constant) : Event :=
  LoggerWarn "Legacy light attribute detected: " (oldAttributePath prim c).

(** What getLightAttribute records for a constant: that its [ONCE] was
    reached, when only the older name has a value. *)
Definition legacyReached (prim : UsdPrim) (c : Constant) : list Event :=
  if legacyOnly prim c then [Once once_getLightAttribute (legacyWarning prim c)] else [].

(** The dirty mask names no bit outside [m_allDirty]. *)
Definition dirtyWithinAll (d : LightData) : Prop :=
  Z.land (m_dirty d) m_allDirty = m_dirty d.

(** A Spot light that leaves its direction at zero. *)
Definition zeroDirectionSpot : D3DLIGHT9 :=
  let white := mkColor f1 f1 f1 f1 in
  mkD3DLIGHT9 D3DLIGHT_SPOT white white white
    (mkVector3 (f32_of_Z 1) (f32_of_Z 2) (f32_of_Z 3)) (mkVector3 f0 f0 f0)
    f0 f0 f0 f0 f0 f0 f0.

(** A Spot light whose direction, (2^100, 0, 0), has a squared length
    beyond the binary32 range. *)
Definition hugeDirectionSpot : D3DLIGHT9 :=
  let white := mkColor f1 f1 f1 f1 in
  mkD3DLIGHT9 D3DLIGHT_SPOT white white white
    (mkVector3 (f32_of_Z 1) (f32_of_Z 2) (f32_of_Z 3))
    (mkVector3 (S754_finite false 8388608 77) f0 f0)
    f0 f0 f0 f0 f0 f0 f0.

Section Auxiliary.

Context {ext : Externals}.

(** Degrees to radians for the two angles, nothing for the other
    constants. *)
Definition toRadians (c : Constant) : constType c -> constType c :=
  match c with
  | ConeAngleRadians | AngleRadians => fun v => (v * kDegreesToRadians)%f32
  | _ => fun v => v
  end.

(** One expansion of the deserializer macro, as a function. *)
Definition deserialized (prim : UsdPrim) (this : LightData) (c : Constant) : LightData :=
  match authored prim c with
  | Some v => set_m_ c v (set_m_dirty (Flags_set (m_dirty this) (k_ c)) this)
  | None => this
  end.

(** What the legacy overload does to the record before it looks at the
    type: nothing, or the merge of the converted call. *)
Definition filledFrom (opts : Options) (ci : D3DLIGHT9 -> float -> float)
    (this : LightData) (light : D3DLIGHT9) : LightData :=
  if negb (m_dirty this =? m_allDirty) then
    match value (tryCreate opts ci light) with
    | Some v => merge this v
    | None => this
    end
  else this.

(** The record the constructor starts from, before deserialization:
    the table defaults, a clear dirty mask, the provenance flags, and the
    type getLightType reports (Unknown when it reports none). *)
Definition LightData_ctor_start (lightPrim : UsdPrim)
    (isOverrideLight absoluteTransform : bool) : LightData :=
  let this :=
    mkLightData defaultVal (m_position LightData_init)
      (m_xAxis LightData_init) (m_yAxis LightData_init) (m_zAxis LightData_init)
      (m_xScale LightData_init) (m_yScale LightData_init) (m_zScale LightData_init)
      Unknown 0 (negb absoluteTransform && negb isOverrideLight) isOverrideLight
      (m_cachedHash LightData_init) in
  match getLightType lightPrim with
  | Some t => set_m_lightType t this
  | None => this
  end.

End Auxiliary.

(** * The query pool (dxvk_query_pool.cpp)

    The pool hands out the slots of one Vulkan query pool in order and
    remembers which query revision sits in which slot.  Calls on query
    objects are recorded as effects; [std::array::at] throws
    [std::out_of_range], after which nothing more of the function runs.  A
    slot that was never handed out holds a default-constructed revision,
    whose query is a null reference; a call through it is undefined
    behaviour, recorded as the outcome [Null_dereference].  32-bit unsigned
    members are numbers in [N] with the wrap-around written out. *)

Module QueryPool.

Definition VkResult : Type := Z.
Definition VK_SUCCESS : VkResult := 0.

Definition uint32 (n : N) : N := (n mod 2 ^ 32)%N.

(** [{ m_queryPool, m_queryId }]. *)
Record DxvkQueryHandle : Type := mkHandle { queryPool : Z; queryId : N }.

(** A live query object (by identity) with the revision that was current.
    The revision whose query is null, which the slots of a pool start out
    with, is written [None] where a slot is read. *)
Record DxvkQueryRevision : Type := mkRevision { query : Z; revision : N }.

(** The 64-bit words the driver writes for one query. *)
Definition DxvkQueryData : Type := list Z.

Inductive Effect : Type :=
| associateQuery (query : Z) (revision : N) (handle : DxvkQueryHandle)
| updateData (query : Z) (revision : N) (data : DxvkQueryData).

Inductive Outcome (A : Type) : Type :=
| Returned (a : A)
| Thrown_out_of_range
| Null_dereference.

Arguments Returned {A} a.
Arguments Thrown_out_of_range {A}.
Arguments Null_dereference {A}.

(** A computation: how it ends, and the effects it had until then. *)
Definition P (A : Type) : Type := (Outcome A * list Effect)%type.

Definition ret {A : Type} (a : A) : P A := (Returned a, []).
Definition throw {A : Type} : P A := (Thrown_out_of_range, []).
Definition null_dereference {A : Type} : P A := (Null_dereference, []).
Definition call (e : Effect) : P unit := (Returned tt, [e]).

Definition bind {A B : Type} (m : P A) (k : A -> P B) : P B :=
  match fst m with
  | Returned a => (fst (k a), snd m ++ snd (k a))
  | Thrown_out_of_range => (Thrown_out_of_range, snd m)
  | Null_dereference => (Null_dereference, snd m)
  end.

Declare Scope pool_scope.
Delimit Scope pool_scope with pool.
Notation "v <- m ;; k" := (bind m (fun v => k))
  (at level 61, m at next level, right associativity) : pool_scope.
Notation "m ;;; k" := (bind m (fun _ => k))
  (at level 61, right associativity) : pool_scope.
Local Open Scope pool_scope.

Record DxvkQueryPool : Type := mkPool
  { m_queryPool : Z;
    m_queryType : Z;
    m_queries : list (option DxvkQueryRevision);
    m_queryId : N }.

(** [a.at(i)], read. *)
Definition array_at {A : Type} (a : list A) (i : N) : P A :=
  match nth_error a (N.to_nat i) with
  | Some v => ret v
  | None => throw
  end.

Fixpoint list_set {A : Type} (a : list A) (n : nat) (v : A) : list A :=
  match a, n with
  | [], _ => []
  | _ :: a', O => v :: a'
  | w :: a', S n' => w :: list_set a' n' v
  end.

(** [a.at(i) = v]. *)
Definition array_at_put {A : Type} (a : list A) (i : N) (v : A) : P (list A) :=
  match nth_error a (N.to_nat i) with
  | Some _ => ret (list_set a (N.to_nat i) v)
  | None => throw
  end.

Definition allocQuery (this : DxvkQueryPool) (q : DxvkQueryRevision)
  : P (DxvkQueryHandle * DxvkQueryPool) :=
  let result := mkHandle (m_queryPool this) (m_queryId this) in
  call (associateQuery (query q) (revision q) result) ;;;
  queries <- array_at_put (m_queries this) (m_queryId this) (Some q) ;;
  let this := mkPool (m_queryPool this) (m_queryType this) queries (m_queryId this) in
  let this :=
    mkPool (m_queryPool this) (m_queryType this) (m_queries this)
      (uint32 (m_queryId this + 1)) in
  ret (result, this).

Section GetData.

(** The size of the pool's arrays (declared in dxvk_query_pool.h). *)
Variable MaxNumQueryCountPerPool : nat.

(** [vkGetQueryPoolResults] on (pool, first query, count): the status, and
    what the call leaves in each slot of the result buffer. *)
Variable vkGetQueryPoolResults : Z -> N -> N -> VkResult * (nat -> DxvkQueryData).

(** The loop of getData from [i] on, with [n] rounds left. *)
Fixpoint updateLoop (this : DxvkQueryPool) (results : list DxvkQueryData)
    (queryIndex i : N) (n : nat) : P unit :=
  match n with
  | O => ret tt
  | S n' =>
    slot <- array_at (m_queries this) (uint32 (queryIndex + i)) ;;
    data <- array_at results i ;;
    match slot with
    | Some q =>
      call (updateData (query q) (revision q) data) ;;;
      updateLoop this results queryIndex (i + 1)%N n'
    | None => null_dereference
    end
  end.

Definition getData (this : DxvkQueryPool) (queryIndex queryCount : N) : P VkResult :=
  let (status, written) := vkGetQueryPoolResults (m_queryPool this) queryIndex queryCount in
  let results := map written (seq 0 MaxNumQueryCountPerPool) in
  if negb (status =? VK_SUCCESS) then ret status
  else
    updateLoop this results queryIndex 0 (N.to_nat queryCount) ;;;
    ret VK_SUCCESS.

End GetData.

(** The updates of a run of queries: the query of each slot receives, with
    the revision stored beside it, the result of its position in the run. *)
Definition updates (written : nat -> DxvkQueryData) (first : nat)
    (queries : list DxvkQueryRevision) : list Effect :=
  map (fun kq => updateData (query (snd kq)) (revision (snd kq)) (written (fst kq)))
    (combine (seq first (List.length queries)) queries).

(** Allocating one query after the other, as a caller does. *)
Fixpoint allocQueries (this : DxvkQueryPool) (qs : list DxvkQueryRevision)
  : P (list DxvkQueryHandle * DxvkQueryPool) :=
  match qs with
  | [] => ret ([], this)
  | q :: qs' =>
    r <- allocQuery this q ;;
    rs <- allocQueries (snd r) qs' ;;
    ret (fst r :: fst rs, snd rs)
  end.

End QueryPool.

(** Sample pools and drivers: a pool of three slots with the first one
    taken, the same pool used up, an empty one; a driver that reports the
    slot number as the result, and one that has lost the device. *)
Module QueryPoolSample.

Import QueryPool.

Definition pool : DxvkQueryPool := mkPool 7 0 [Some (mkRevision 10 1); None; None] 1.

Definition fullPool : DxvkQueryPool :=
  mkPool 7 0 [Some (mkRevision 10 1); Some (mkRevision 11 4); Some (mkRevision 12 2)] 3.

Definition emptyPool : DxvkQueryPool := mkPool 7 0 [None; None; None] 0.

Definition driver (pool : Z) (first count : N) : VkResult * (nat -> DxvkQueryData) :=
  (VK_SUCCESS, fun k => [Z.of_N first + Z.of_nat k]).

Definition VK_ERROR_DEVICE_LOST : VkResult := -4.

Definition lostDevice (pool : Z) (first count : N) : VkResult * (nat -> DxvkQueryData) :=
  (VK_ERROR_DEVICE_LOST, fun _ => []).

End QueryPoolSample.
(** * Properties *)

Section Properties.

Context {ext : Externals}.

(** ** Assignments and reads *)

Lemma Constant_eq_dec_refl (c : Constant) : Constant_eq_dec c c = left eq_refl.
Proof. destruct c; reflexivity. Qed.

Lemma m_set_same (c : Constant) (v : constType c) (d : LightData) :
  m_ (set_m_ c v d) c = v.
Proof. simpl. unfold assign. rewrite Constant_eq_dec_refl. reflexivity. Qed.

Lemma m_set_other (c c' : Constant) (v : constType c) (d : LightData) :
  c <> c' -> m_ (set_m_ c v d) c' = m_ d c'.
Proof.
  intros Hne. simpl. unfold assign.
  destruct (Constant_eq_dec c c') as [e | _]; [contradiction | reflexivity].
Qed.

Lemma frame_set_m_ (c : Constant) (v : constType c) (d : LightData) :
  frame (set_m_ c v d) = frame d.
Proof. reflexivity. Qed.

Lemma In_LIST_LIGHT_CONSTANTS (c : Constant) : In c LIST_LIGHT_CONSTANTS.
Proof. destruct c; simpl; tauto. Qed.

(** ** merge(const LightData&) *)

Lemma merge_constants_frame (input : LightData) (l : list Constant) :
  forall this, frame (fold_left (WRITE_PARAMETER_MERGE input) l this) = frame this.
Proof.
  induction l as [| c l IH]; intros this; cbn [fold_left]; [reflexivity |].
  rewrite IH. unfold WRITE_PARAMETER_MERGE.
  destruct (Flags_test (m_dirty this) (k_ c)); reflexivity.
Qed.

Lemma merge_constants_dirty (input : LightData) (l : list Constant) (this : LightData) :
  m_dirty (fold_left (WRITE_PARAMETER_MERGE input) l this) = m_dirty this.
Proof.
  pose proof (merge_constants_frame input l this) as H.
  unfold frame in H. congruence.
Qed.

Lemma merge_constants_notin (input : LightData) (c : Constant) (l : list Constant) :
  forall this, ~ In c l ->
    m_ (fold_left (WRITE_PARAMETER_MERGE input) l this) c = m_ this c.
Proof.
  induction l as [| c' l IH]; intros this Hnin; cbn [fold_left]; [reflexivity |].
  rewrite IH by (intros Hin; apply Hnin; right; exact Hin).
  unfold WRITE_PARAMETER_MERGE.
  destruct (Flags_test (m_dirty this) (k_ c')); cbn [negb]; [reflexivity |].
  apply (m_set_other c' c). intros ->. apply Hnin. left. reflexivity.
Qed.

Lemma merge_constants_in (input : LightData) (c : Constant) (l : list Constant) :
  forall this, In c l ->
    m_ (fold_left (WRITE_PARAMETER_MERGE input) l this) c =
    if Flags_test (m_dirty this) (k_ c) then m_ this c else m_ input c.
Proof.
  induction l as [| c' l IH]; intros this Hin; cbn [fold_left]; [contradiction |].
  assert (Hd : m_dirty (WRITE_PARAMETER_MERGE input this c') = m_dirty this).
  { unfold WRITE_PARAMETER_MERGE. destruct (Flags_test (m_dirty this) (k_ c')); reflexivity. }
  destruct (Constant_eq_dec c' c) as [-> | Hne].
  - destruct (in_dec Constant_eq_dec c l) as [Hin' | Hnin].
    + rewrite IH by exact Hin'. rewrite Hd.
      unfold WRITE_PARAMETER_MERGE.
      destruct (Flags_test (m_dirty this) (k_ c)) eqn:Ht; cbn [negb]; [reflexivity |].
      reflexivity.
    + rewrite merge_constants_notin by exact Hnin.
      unfold WRITE_PARAMETER_MERGE.
      destruct (Flags_test (m_dirty this) (k_ c)); cbn [negb]; [reflexivity |].
      apply m_set_same.
  - destruct Hin as [Heq | Hin]; [contradiction |].
    rewrite IH by exact Hin. rewrite Hd.
    unfold WRITE_PARAMETER_MERGE.
    destruct (Flags_test (m_dirty this) (k_ c')); cbn [negb]; [reflexivity |].
    rewrite (m_set_other c' c) by exact Hne. reflexivity.
Qed.

Lemma merge_constant (this input : LightData) (c : Constant) :
  m_ (merge this input) c =
  if Flags_test (m_dirty this) (k_ c) then m_ this c else m_ input c.
Proof.
  unfold merge.
  rewrite <- (merge_constants_in input c LIST_LIGHT_CONSTANTS this (In_LIST_LIGHT_CONSTANTS c)).
  generalize (fold_left (WRITE_PARAMETER_MERGE input) LIST_LIGHT_CONSTANTS this) as folded.
  intros folded. destruct (Flags_test (m_dirty folded) k_Transform); reflexivity.
Qed.

Lemma merge_frame (this input : LightData) :
  frame (merge this input) =
  (if Flags_test (m_dirty this) k_Transform then geometry this else geometry input,
   m_lightType this, m_dirty this, m_isRelativeTransform this, m_isOverrideLight this,
   m_cachedHash this).
Proof.
  unfold merge.
  pose proof (merge_constants_frame input LIST_LIGHT_CONSTANTS this) as H.
  revert H.
  generalize (fold_left (WRITE_PARAMETER_MERGE input) LIST_LIGHT_CONSTANTS this) as folded.
  intros folded H. unfold frame in H.
  assert (Hd : m_dirty folded = m_dirty this) by congruence.
  rewrite Hd. destruct (Flags_test (m_dirty this) k_Transform); cbn [negb].
  - exact H.
  - unfold frame, geometry in *. simpl. congruence.
Qed.

Lemma merge_geometry (this input : LightData) :
  geometry (merge this input) =
  if Flags_test (m_dirty this) k_Transform then geometry this else geometry input.
Proof. pose proof (merge_frame this input) as H. unfold frame in H. congruence. Qed.

Lemma merge_rest (this input : LightData) :
  m_lightType (merge this input) = m_lightType this
  /\ m_dirty (merge this input) = m_dirty this
  /\ m_isRelativeTransform (merge this input) = m_isRelativeTransform this
  /\ m_isOverrideLight (merge this input) = m_isOverrideLight this
  /\ m_cachedHash (merge this input) = m_cachedHash this.
Proof.
  pose proof (merge_frame this input) as H. unfold frame in H.
  repeat split; congruence.
Qed.

(** C3: merge fills gaps only.  A constant whose dirty bit is set in the
    target keeps the target's value whatever the source holds; a constant
    whose bit is unset takes the source's value and its bit stays unset.  The
    position, the three axes and the three scales are kept together or taken
    together, on the Transform bit alone. *)
Theorem merge_fills_gaps (target source : LightData) :
  (forall c : Constant,
      Flags_test (m_dirty target) (k_ c) = true ->
      m_ (merge target source) c = m_ target c)
  /\ (forall c : Constant,
      Flags_test (m_dirty target) (k_ c) = false ->
      m_ (merge target source) c = m_ source c
      /\ Flags_test (m_dirty (merge target source)) (k_ c) = false)
  /\ (Flags_test (m_dirty target) k_Transform = true ->
      geometry (merge target source) = geometry target)
  /\ (Flags_test (m_dirty target) k_Transform = false ->
      geometry (merge target source) = geometry source
      /\ Flags_test (m_dirty (merge target source)) k_Transform = false).
Proof.
  destruct (merge_rest target source) as (_ & Hd & _).
  repeat split.
  - intros c Hc. rewrite merge_constant, Hc. reflexivity.
  - rewrite merge_constant, H. reflexivity.
  - rewrite Hd. exact H.
  - intros Ht. rewrite merge_geometry, Ht. reflexivity.
  - rewrite merge_geometry, H. reflexivity.
  - rewrite Hd. exact H.
Qed.


(** ** Values and events of sequenced computations *)

Lemma value_bind {A B : Type} (m : M A) (k : A -> M B) :
  value (bind m k) = value (k (value m)).
Proof. unfold value, bind. destruct (k (fst m)); reflexivity. Qed.

Lemma value_ret {A : Type} (v : A) : value (ret v) = v.
Proof. reflexivity. Qed.

Lemma events_bind {A B : Type} (m : M A) (k : A -> M B) :
  events (bind m k) = events m ++ events (k (value m)).
Proof. unfold events, value, bind. destruct (k (fst m)); reflexivity. Qed.

(** ** Flags *)

Lemma allDirty_test (f : DirtyFlags) : Flags_test m_allDirty f = true.
Proof. destruct f as [c |]; [destruct c |]; reflexivity. Qed.

Lemma merge_constants_all_dirty (input : LightData) (l : list Constant) (this : LightData) :
  m_dirty this = m_allDirty ->
  fold_left (WRITE_PARAMETER_MERGE input) l this = this.
Proof.
  intros Hd. induction l as [| c l IH]; cbn [fold_left]; [reflexivity |].
  unfold WRITE_PARAMETER_MERGE at 2. rewrite Hd, allDirty_test. exact IH.
Qed.

Lemma merge_all_dirty (this input : LightData) :
  m_dirty this = m_allDirty -> merge this input = this.
Proof.
  intros Hd. unfold merge. rewrite (merge_constants_all_dirty input _ this Hd).
  rewrite Hd, allDirty_test. reflexivity.
Qed.

(** ** Legacy light types *)

Ltac type_cases :=
  unfold D3DLIGHT_POINT, D3DLIGHT_SPOT, D3DLIGHT_DIRECTIONAL in *;
  repeat match goal with
         | |- context [?n <? ?k] => destruct (Z.ltb_spec n k)
         | |- context [?n =? ?k] => destruct (Z.eqb_spec n k)
         end;
  cbn [orb negb]; try lia.

Lemma tryCreate_unsupported (opts : Options) (ci : D3DLIGHT9 -> float -> float)
    (light : D3DLIGHT9) :
  ~ supportedType light ->
  tryCreate opts ci light =
  (None, [LoggerErr "Attempted to convert a fixed function light with invalid light type: "
            (Type_ light);
          Once once_tryCreate (AssertFailed "false")]).
Proof.
  unfold supportedType, tryCreate. intros Hout. type_cases; reflexivity.
Qed.

Lemma tryCreate_supported (opts : Options) (ci : D3DLIGHT9 -> float -> float)
    (light : D3DLIGHT9) :
  supportedType light ->
  value (tryCreate opts ci light) =
  Some (if Type_ light =? D3DLIGHT_DIRECTIONAL
        then createFromDirectional opts light
        else value (createFromPointSpot opts ci light)).
Proof.
  unfold supportedType, tryCreate. intros Hin.
  type_cases; rewrite ?value_bind; reflexivity.
Qed.

Lemma value_fill (opts : Options) (ci : D3DLIGHT9 -> float -> float)
    (this : LightData) (light : D3DLIGHT9) :
  value (input <- tryCreate opts ci light ;;
         match input with
         | Some v => ret (merge this v)
         | None => ret this
         end) =
  match value (tryCreate opts ci light) with
  | Some v => merge this v
  | None => this
  end.
Proof.
  rewrite value_bind.
  generalize (value (tryCreate opts ci light)) as input. intros [v |]; [| reflexivity].
  generalize (merge this v) as merged. intros merged. reflexivity.
Qed.

Lemma value_resolve (light : D3DLIGHT9) (filled : LightData) :
  value (if LightType_eqb (m_lightType filled) Unknown then
           if (Type_ light =? D3DLIGHT_POINT) || (Type_ light =? D3DLIGHT_SPOT) then
             ret (set_m_lightType Sphere filled)
           else if Type_ light =? D3DLIGHT_DIRECTIONAL then
             ret (set_m_lightType Distant filled)
           else
             assert "false" false ;;;
             ret (set_m_lightType Sphere filled)
         else ret filled) =
  if LightType_eqb (m_lightType filled) Unknown
  then set_m_lightType (if Type_ light =? D3DLIGHT_DIRECTIONAL then Distant else Sphere) filled
  else filled.
Proof.
  destruct (LightType_eqb (m_lightType filled) Unknown); [| reflexivity].
  type_cases; reflexivity.
Qed.

Lemma merge_D3DLIGHT9_value (opts : Options) (ci : D3DLIGHT9 -> float -> float)
    (this : LightData) (light : D3DLIGHT9) :
  value (merge_D3DLIGHT9 opts ci this light) =
  let filled :=
    if negb (m_dirty this =? m_allDirty) then
      match value (tryCreate opts ci light) with
      | Some v => merge this v
      | None => this
      end
    else this in
  if LightType_eqb (m_lightType filled) Unknown
  then set_m_lightType (if Type_ light =? D3DLIGHT_DIRECTIONAL then Distant else Sphere) filled
  else filled.
Proof.
  unfold merge_D3DLIGHT9. rewrite value_bind, value_resolve. cbv zeta.
  destruct (negb (m_dirty this =? m_allDirty)); [| reflexivity].
  rewrite value_fill. reflexivity.
Qed.

(** The type a legacy call resolves an Unknown record to (the switch of
    lines 150-167). *)
Lemma merge_D3DLIGHT9_lightType (opts : Options) (ci : D3DLIGHT9 -> float -> float)
    (this : LightData) (light : D3DLIGHT9) :
  m_lightType (value (merge_D3DLIGHT9 opts ci this light)) =
  match m_lightType this with
  | Unknown => if Type_ light =? D3DLIGHT_DIRECTIONAL then Distant else Sphere
  | t => t
  end.
Proof.
  rewrite merge_D3DLIGHT9_value. cbv zeta.
  match goal with |- context [LightType_eqb (m_lightType ?f) Unknown] => set (filled := f) end.
  assert (Hf : m_lightType filled = m_lightType this).
  { subst filled. destruct (negb (m_dirty this =? m_allDirty)); [| reflexivity].
    destruct (value (tryCreate opts ci light)); [apply merge_rest | reflexivity]. }
  rewrite <- Hf. clearbody filled.
  destruct (m_lightType filled) eqn:Et; cbn [LightType_eqb]; try exact Et.
  reflexivity.
Qed.

(** ** Private steps of construction keep the light type *)

Lemma deserializer_lightType (prim : UsdPrim) (this : LightData) (c : Constant) :
  m_lightType (value (WRITE_CONSTANT_DESERIALIZER prim this c)) = m_lightType this.
Proof.
  unfold WRITE_CONSTANT_DESERIALIZER. rewrite value_bind.
  destruct (value (getLightAttribute prim c)); reflexivity.
Qed.

Lemma foldM_lightType {B : Type} (f : LightData -> B -> M LightData) (l : list B) :
  (forall d v, m_lightType (value (f d v)) = m_lightType d) ->
  forall this, m_lightType (value (foldM f l this)) = m_lightType this.
Proof.
  intros Hf. induction l as [| v l IH]; intros this; cbn [foldM]; [reflexivity |].
  rewrite value_bind, IH. apply Hf.
Qed.

Lemma deserialize_lightType (prim : UsdPrim) (this : LightData) :
  m_lightType (value (deserialize prim this)) = m_lightType this.
Proof.
  unfold deserialize. rewrite value_bind.
  pose proof (foldM_lightType (WRITE_CONSTANT_DESERIALIZER prim) LIST_LIGHT_CONSTANTS
                (deserializer_lightType prim) this) as Hd.
  revert Hd.
  generalize (value (foldM (WRITE_CONSTANT_DESERIALIZER prim) LIST_LIGHT_CONSTANTS this)) as d.
  intros d Hd. rewrite <- Hd.
  destruct (GetSpecifier prim);
    destruct (Flags_test (m_dirty d) (k_ ConeAngleRadians));
    match goal with |- context [Flags_test ?m (k_ AngleRadians)] =>
      destruct (Flags_test m (k_ AngleRadians)) end;
    reflexivity.
Qed.

Lemma extractTransform_lightType (pLocalToRoot : option GfMatrix4f) (this : LightData) :
  m_lightType (value (extractTransform pLocalToRoot this)) = m_lightType this.
Proof.
  unfold extractTransform. destruct pLocalToRoot as [localToRoot |]; [| reflexivity].
  destruct (Normalize (GetRow3 (row0 localToRoot))) as [xv xs].
  destruct (Normalize (GetRow3 (row1 localToRoot))) as [yv ys].
  destruct (Normalize (GetRow3 (row2 localToRoot))) as [zv zs].
  destruct (flipOnNegativeScale xs _) as [xs' xa].
  destruct (flipOnNegativeScale ys _) as [ys' ya].
  destruct (flipOnNegativeScale zs _) as [zs' za].
  rewrite !value_bind. reflexivity.
Qed.

Lemma sanitizeData_frame (this : LightData) : frame (sanitizeData this) = frame this.
Proof.
  unfold sanitizeData. generalize LIST_LIGHT_CONSTANTS as l. intros l. revert this.
  induction l as [| c l IH]; intros this; cbn [fold_left]; [reflexivity |].
  rewrite IH. reflexivity.
Qed.

Lemma sanitizeData_xScale (this : LightData) : m_xScale (sanitizeData this) = m_xScale this.
Proof. pose proof (sanitizeData_frame this) as H. unfold frame, geometry in H. congruence. Qed.

Lemma LightData_ctor_lightType (prim : UsdPrim) (pLocalToRoot : option GfMatrix4f)
    (isOverrideLight absoluteTransform : bool) :
  m_lightType (value (LightData_ctor prim pLocalToRoot isOverrideLight absoluteTransform)) =
  match getLightType prim with
  | Some t => t
  | None => Unknown
  end.
Proof.
  unfold LightData_ctor. rewrite !value_bind, value_ret.
  pose proof (sanitizeData_frame
                (value (extractTransform pLocalToRoot
                   (value (deserialize prim
                      match getLightType prim with
                      | Some t =>
                        set_m_lightType t
                          (mkLightData defaultVal (m_position LightData_init)
                             (m_xAxis LightData_init) (m_yAxis LightData_init)
                             (m_zAxis LightData_init) (m_xScale LightData_init)
                             (m_yScale LightData_init) (m_zScale LightData_init)
                             Unknown 0 (negb absoluteTransform && negb isOverrideLight)
                             isOverrideLight (m_cachedHash LightData_init))
                      | None =>
                        mkLightData defaultVal (m_position LightData_init)
                          (m_xAxis LightData_init) (m_yAxis LightData_init)
                          (m_zAxis LightData_init) (m_xScale LightData_init)
                          (m_yScale LightData_init) (m_zScale LightData_init)
                          Unknown 0 (negb absoluteTransform && negb isOverrideLight)
                          isOverrideLight (m_cachedHash LightData_init)
                      end))))) as Hs.
  unfold frame in Hs.
  match type of Hs with (_, ?a, _, _, _, _) = (_, _, _, _, _, _) =>
    transitivity a; [reflexivity |] end.
  match type of Hs with (_, _, _, _, _, _) = (_, ?b, _, _, _, _) =>
    transitivity b; [congruence |] end.
  rewrite extractTransform_lightType, deserialize_lightType.
  destruct (getLightType prim); reflexivity.
Qed.

Lemma createFrom_lightType (opts : Options) (ci : D3DLIGHT9 -> float -> float)
    (light : D3DLIGHT9) :
  m_lightType (createFromDirectional opts light) = Distant
  /\ m_lightType (value (createFromPointSpot opts ci light)) = Sphere.
Proof.
  split; [reflexivity |].
  unfold createFromPointSpot. rewrite value_bind.
  destruct (Type_ light =? D3DLIGHT_SPOT); [rewrite value_bind |]; reflexivity.
Qed.

Lemma step_lightType (opts : Options) (ci : D3DLIGHT9 -> float -> float)
    (d d' : LightData) :
  step opts ci d d' ->
  m_lightType d' = m_lightType d \/ (m_lightType d = Unknown /\ m_lightType d' <> Unknown).
Proof.
  intros Hstep. destruct Hstep as [this input | this light | this o out _ | this prim
                                  | this pm | this].
  - left. apply merge_rest.
  - rewrite merge_D3DLIGHT9_lightType.
    destruct (m_lightType this); try (left; reflexivity).
    right. split; [reflexivity |].
    destruct (Type_ light =? D3DLIGHT_DIRECTIONAL); discriminate.
  - left. reflexivity.
  - left. apply deserialize_lightType.
  - left. apply extractTransform_lightType.
  - left. pose proof (sanitizeData_frame this) as H. unfold frame in H. congruence.
Qed.

(** C7: along any sequence of operations on a working record (the two
    merges, lowering, and the deserialization, transform extraction and
    clamping that construction runs), the light type either keeps its value
    or goes from Unknown to a concrete type; a concrete type is never turned
    into Unknown or into another concrete type. *)
Theorem lightType_only_resolves (opts : Options) (ci : D3DLIGHT9 -> float -> float)
    (d d' : LightData) :
  steps opts ci d d' ->
  (m_lightType d' = m_lightType d
   \/ (m_lightType d = Unknown /\ m_lightType d' <> Unknown))
  /\ (m_lightType d <> Unknown -> m_lightType d' = m_lightType d).
Proof.
  intros Hsteps.
  assert (H : m_lightType d' = m_lightType d
              \/ (m_lightType d = Unknown /\ m_lightType d' <> Unknown)).
  { induction Hsteps as [d | d d1 d2 Hstep Hrest IH]; [left; reflexivity |].
    destruct (step_lightType opts ci d d1 Hstep) as [Hsame | [Hu Hc]].
    - rewrite <- Hsame. exact IH.
    - destruct IH as [Hsame | [Hu' _]].
      + right. split; [exact Hu | congruence].
      + contradiction. }
  split; [exact H |].
  intros Hc. destruct H as [Hsame | [Hu _]]; [exact Hsame | contradiction].
Qed.

(** C6, as the code has it: merging into a record whose dirty mask is the
    all-set mask changes no constant, no geometric member and not the
    dirty mask, whatever the source record or legacy call; the record
    overload leaves the whole record as it is.  The light type is left alone
    too when it is concrete; an Unknown type is still resolved by the legacy
    overload (to Sphere or Distant), outside the fast path. *)
Theorem merge_fully_defined_noop (opts : Options) (ci : D3DLIGHT9 -> float -> float)
    (this : LightData) :
  m_dirty this = m_allDirty ->
  (forall input : LightData, merge this input = this)
  /\ (forall light : D3DLIGHT9,
        let this' := value (merge_D3DLIGHT9 opts ci this light) in
        (forall c : Constant, m_ this' c = m_ this c)
        /\ geometry this' = geometry this
        /\ m_dirty this' = m_dirty this
        /\ m_cachedHash this' = m_cachedHash this
        /\ (m_lightType this <> Unknown -> this' = this)
        /\ (m_lightType this = Unknown ->
            m_lightType this' = if Type_ light =? D3DLIGHT_DIRECTIONAL then Distant else Sphere)).
Proof.
  intros Hd. split.
  - intros input. apply merge_all_dirty. exact Hd.
  - intros light this'. subst this'.
    rewrite merge_D3DLIGHT9_value, Hd, Z.eqb_refl. cbn [negb]. cbv zeta.
    destruct (m_lightType this) eqn:Ht; cbn [LightType_eqb];
      repeat split; intros; try reflexivity; try congruence; exact Hd.
Qed.

(** C8: a legacy call whose type tag is outside Point..Directional is
    logged as an error and yields no record; a call whose tag is inside that
    range yields a record. *)
Theorem tryCreate_checks_type (opts : Options) (ci : D3DLIGHT9 -> float -> float)
    (light : D3DLIGHT9) :
  (Type_ light < D3DLIGHT_POINT \/ D3DLIGHT_DIRECTIONAL < Type_ light ->
   value (tryCreate opts ci light) = None
   /\ In (LoggerErr "Attempted to convert a fixed function light with invalid light type: "
            (Type_ light))
         (events (tryCreate opts ci light)))
  /\ (D3DLIGHT_POINT <= Type_ light <= D3DLIGHT_DIRECTIONAL ->
      exists d : LightData, value (tryCreate opts ci light) = Some d).
Proof.
  split.
  - intros Hout. rewrite tryCreate_unsupported by (unfold supportedType; lia).
    split; [reflexivity | left; reflexivity].
  - intros Hin. rewrite tryCreate_supported by exact Hin. eexists. reflexivity.
Qed.

(** C9: merging a legacy call whose type tag is outside the supported
    range copies nothing into the record (tryCreate yields no record), yet
    an Unknown light type is still set, to Sphere, by the default case of the
    type switch, whose assertion is the only check on that path. *)
Theorem merge_invalid_legacy_type (opts : Options) (ci : D3DLIGHT9 -> float -> float)
    (this : LightData) (light : D3DLIGHT9) :
  Type_ light < D3DLIGHT_POINT \/ D3DLIGHT_DIRECTIONAL < Type_ light ->
  value (tryCreate opts ci light) = None
  /\ (m_lightType this = Unknown ->
      value (merge_D3DLIGHT9 opts ci this light) = set_m_lightType Sphere this
      /\ In (AssertFailed "false") (events (merge_D3DLIGHT9 opts ci this light)))
  /\ (m_lightType this <> Unknown ->
      value (merge_D3DLIGHT9 opts ci this light) = this).
Proof.
  intros Hout.
  assert (Hns : ~ supportedType light) by (unfold supportedType; lia).
  assert (Hv : value (merge_D3DLIGHT9 opts ci this light) =
               if LightType_eqb (m_lightType this) Unknown
               then set_m_lightType Sphere this else this).
  { rewrite merge_D3DLIGHT9_value, tryCreate_unsupported by exact Hns.
    cbv zeta. cbn [value fst].
    assert (Hd : (Type_ light =? D3DLIGHT_DIRECTIONAL) = false)
      by (apply Z.eqb_neq; unfold D3DLIGHT_DIRECTIONAL, D3DLIGHT_POINT in *; lia).
    rewrite Hd. destruct (negb (m_dirty this =? m_allDirty)); reflexivity. }
  split; [rewrite tryCreate_unsupported by exact Hns; reflexivity |].
  split.
  - intros Hu. rewrite Hv, Hu. split; [reflexivity |].
    unfold merge_D3DLIGHT9. rewrite events_bind. apply in_or_app. right.
    match goal with |- context [value ?m] => set (filled := value m) end.
    assert (Hf : filled = this).
    { subst filled. destruct (negb (m_dirty this =? m_allDirty)); [| reflexivity].
      rewrite value_bind, tryCreate_unsupported by exact Hns. reflexivity. }
    rewrite Hf, Hu. cbn [LightType_eqb].
    type_cases. left. reflexivity.
  - intros Hc. rewrite Hv. destruct (m_lightType this); try reflexivity. contradiction.
Qed.


(** ** The identity hash *)

Lemma createFromDirectional_hash (opts : Options) (light : D3DLIGHT9) :
  m_cachedHash (createFromDirectional opts light) = stableHash_Directional light.
Proof.
  unfold createFromDirectional, stableHash_Directional.
  destruct light as [ty df sp am ps [dx dy dz] rg fo a0 a1 a2 th ph].
  reflexivity.
Qed.

Lemma createFromPointSpot_hash (opts : Options) (ci : D3DLIGHT9 -> float -> float)
    (light : D3DLIGHT9) :
  m_cachedHash (value (createFromPointSpot opts ci light)) = stableHash_PointSpot light.
Proof.
  unfold createFromPointSpot, stableHash_PointSpot, stableShaping.
  destruct light as [ty df sp am [px py pz] [dx dy dz] rg fo a0 a1 a2 th ph].
  cbn [Type_ Position Direction Phi Theta Falloff x y z].
  rewrite value_bind.
  destruct (ty =? D3DLIGHT_SPOT).
  - rewrite value_bind. reflexivity.
  - reflexivity.
Qed.


(** C1: the identity hash of a legacy light is a function of the call
    and the frozen constants only ([stableHash_PointSpot] and
    [stableHash_Directional] read nothing else): two conversions of the same
    call under any two settings of the conversion options and any two
    intensity helpers give the same hash.  So does the Point light at
    (1,2,3) with diffuse (0.5,0.5,0.5) under any two radius constants. *)
Theorem stableHash_ignores_options (opts opts' : Options)
    (ci ci' : D3DLIGHT9 -> float -> float) (light : D3DLIGHT9) :
  m_cachedHash (value (createFromPointSpot opts ci light)) = stableHash_PointSpot light
  /\ m_cachedHash (createFromDirectional opts light) = stableHash_Directional light
  /\ m_cachedHash (value (createFromPointSpot opts ci light)) =
     m_cachedHash (value (createFromPointSpot opts' ci' light))
  /\ m_cachedHash (createFromDirectional opts light) =
     m_cachedHash (createFromDirectional opts' light)
  /\ (forall radius radius' : float,
        m_cachedHash
          (value (createFromPointSpot (withSphereLightFixedRadius radius opts) ci
                    pointLight_1_2_3)) =
        m_cachedHash
          (value (createFromPointSpot (withSphereLightFixedRadius radius' opts) ci
                    pointLight_1_2_3))).
Proof.
  rewrite !createFromPointSpot_hash, !createFromDirectional_hash.
  split; [reflexivity |]. split; [reflexivity |].
  split; [reflexivity |]. split; [reflexivity |].
  intros radius radius'. rewrite !createFromPointSpot_hash. reflexivity.
Qed.

(** C2: the identity hash starts from a fixed constant of the shape,
    folds in the vector exactly as the call supplies it (the direction of a
    Directional light, the position of a Point or Spot light; not the
    normalized axis stored in the record), then the frozen constant (half
    angle 0.0349/2, radius 4.0).  For Point and Spot lights the result is
    hashed once more, seeded with the hash of the shaping built from the raw
    direction. *)
Theorem stableHash_sequence (opts : Options) (ci : D3DLIGHT9 -> float -> float)
    (light : D3DLIGHT9) :
  m_cachedHash (createFromDirectional opts light) =
    XXH64 (bytes_of_float legacyStableHalfAngle)
      (XXH64 (bytes_of_Vector3 (Direction light)) (RtLightType_value RtRect))
  /\ m_cachedHash (value (createFromPointSpot opts ci light)) =
    XXH64
      (bytes_of_u64
         (XXH64 (bytes_of_float legacyStableRadius)
            (XXH64 (bytes_of_Vector3 (Position light)) (RtLightType_value RtSphere))))
      (RtLightShaping_getHash (stableShaping light))
  /\ m_zAxis (createFromDirectional opts light) =
     safeNormalize (Direction light) (mkVector3 f0 f0 f1)
  /\ legacyStableRadius = S754_finite false 8388608 (-21)
  /\ legacyStableHalfAngle = S754_finite false 9368397 (-29).
Proof.
  rewrite createFromPointSpot_hash, createFromDirectional_hash.
  split; [reflexivity |]. split; [reflexivity |]. split.
  - unfold createFromDirectional.
    destruct light as [ty df sp am ps [dx dy dz] rg fo a0 a1 a2 th ph].
    reflexivity.
  - split; vm_compute; reflexivity.
Qed.


(** ** Transform sanitisation *)

Lemma binary_round_aux_not_negative (m e : Z) (l : location) :
  (binary_round_aux prec32 emax32 false m e l <? f0)%f32 = false.
Proof.
  unfold binary_round_aux.
  destruct (shr_fexp prec32 emax32 m e l) as [mrs e1].
  destruct (shr_fexp prec32 emax32 _ e1 loc_Exact) as [mrs' e2].
  destruct (shr_m mrs') as [| p | p]; [reflexivity | | reflexivity].
  destruct (e2 <=? emax32 - prec32); reflexivity.
Qed.

Lemma fsqrt_not_negative (v : float) : (fsqrt v <? f0)%f32 = false.
Proof.
  destruct v as [s | s | | s m e]; try (destruct s; reflexivity); [reflexivity |].
  destruct s; [reflexivity |].
  unfold fsqrt, SFsqrt.
  destruct (SFsqrt_core_binary prec32 emax32 (Z.pos m) e) as [[mz ez] lz].
  apply binary_round_aux_not_negative.
Qed.

(** The scale [Normalize] hands back is a length: it is never below zero. *)
Lemma Normalize_scale_not_negative (v : Vector3) : (snd (Normalize v) <? f0)%f32 = false.
Proof. unfold Normalize, length. cbn [snd]. apply fsqrt_not_negative. Qed.

Lemma extractTransform_axes (localToRoot : GfMatrix4f) (this : LightData) :
  let d := value (extractTransform (Some localToRoot) this) in
  let nx := Normalize (GetRow3 (row0 localToRoot)) in
  let ny := Normalize (GetRow3 (row1 localToRoot)) in
  let nz := Normalize (GetRow3 (row2 localToRoot)) in
  let zAxis := sanitizeSingularity (fst nz) (mkVector3 f0 f0 f1) in
  (m_xScale d, m_xAxis d) =
    flipOnNegativeScale (snd nx) (sanitizeSingularity (fst nx) (mkVector3 f1 f0 f0))
  /\ (m_yScale d, m_yAxis d) =
    flipOnNegativeScale (snd ny) (sanitizeSingularity (fst ny) (mkVector3 f0 f1 f0))
  /\ (m_zScale d, m_zAxis d) =
    flipOnNegativeScale (snd nz)
      match m_lightType this with
      | Sphere | Unknown => Vector3_neg zAxis
      | _ => zAxis
      end.
Proof.
  cbv zeta. unfold extractTransform.
  destruct (Normalize (GetRow3 (row0 localToRoot))) as [xv xs].
  destruct (Normalize (GetRow3 (row1 localToRoot))) as [yv ys].
  destruct (Normalize (GetRow3 (row2 localToRoot))) as [zv zs].
  cbn [fst snd].
  destruct (flipOnNegativeScale xs _) as [xs' xa].
  destruct (flipOnNegativeScale ys _) as [ys' ya].
  destruct (flipOnNegativeScale zs _) as [zs' za].
  rewrite !value_bind. split; [reflexivity |]. split; reflexivity.
Qed.


Lemma extractTransform_zeroRow (this : LightData) :
  m_xScale (value (extractTransform (Some zeroRowTransform) this)) = f0
  /\ In (AssertFailed "m_xScale > 0.0f && m_yScale > 0.0f && m_zScale > 0.0f")
        (events (extractTransform (Some zeroRowTransform) this)).
Proof.
  destruct this as [cs p ax ay az sx sy sz t dm rel ov h].
  destruct t; vm_compute; (split; [reflexivity | left; reflexivity]).
Qed.

(** The guard of tryCreate lets [zeroRowTransform] through, and the record
    it returns has a zero x scale. *)
Lemma tryCreate_UsdPrim_zeroRow (prim : UsdPrim) (isOverrideLight absoluteTransform : bool) :
  isSupportedUsdLight prim = true ->
  exists d : LightData,
    value (tryCreate_UsdPrim prim (Some zeroRowTransform) isOverrideLight absoluteTransform)
    = Some d
    /\ m_xScale d = f0.
Proof.
  intros Hs. unfold tryCreate_UsdPrim. rewrite Hs. cbn [negb].
  rewrite value_bind.
  replace (hasZeroScaleColumn zeroRowTransform) with false by (vm_compute; reflexivity).
  rewrite value_bind, value_ret. eexists. split; [reflexivity |].
  unfold LightData_ctor. rewrite !value_bind, value_ret, sanitizeData_xScale.
  match goal with |- m_xScale (value (extractTransform _ ?d0)) = _ =>
    generalize d0 as filled end.
  intros filled. exact (proj1 (extractTransform_zeroRow filled)).
Qed.

(** C4, evaluated where it fails: [zeroRowTransform] is affine and none
    of its three columns is zero, so tryCreate accepts it; extractTransform
    then leaves the x scale at zero and its assertion on the scales fails. *)
Theorem zero_row_breaks_scale_assertion :
  hasZeroScaleColumn zeroRowTransform = false
  /\ GfVec4f_eqb (GetColumn3 zeroRowTransform) (mkGfVec4f f0 f0 f0 f1) = true
  /\ (forall this : LightData,
        m_xScale (value (extractTransform (Some zeroRowTransform) this)) = f0
        /\ In (AssertFailed "m_xScale > 0.0f && m_yScale > 0.0f && m_zScale > 0.0f")
              (events (extractTransform (Some zeroRowTransform) this))).
Proof.
  split; [vm_compute; reflexivity |]. split; [vm_compute; reflexivity |].
  exact extractTransform_zeroRow.
Qed.

(** The same assertions fail on an invertible transform: with a scale of
    2^-100 on x the squared length underflows to zero, so the x scale comes
    out as zero and the x axis is left far from unit length. *)
Example tiny_scale_breaks_assertions :
  valid32 tinyScale = true
  /\ hasZeroScaleColumn (diag tinyScale f1 f1) = false
  /\ (forall this : LightData,
        m_xScale (value (extractTransform (Some (diag tinyScale f1 f1)) this)) = f0
        /\ In (AssertFailed "isApproxNormalized(m_xAxis, 0.01f)")
              (events (extractTransform (Some (diag tinyScale f1 f1)) this))
        /\ In (AssertFailed "m_xScale > 0.0f && m_yScale > 0.0f && m_zScale > 0.0f")
              (events (extractTransform (Some (diag tinyScale f1 f1)) this))).
Proof.
  split; [vm_compute; reflexivity |]. split; [vm_compute; reflexivity |].
  intros this. destruct this as [cs p ax ay az sx sy sz t dm rel ov h].
  destruct t; vm_compute;
    (split; [reflexivity | split; [left; reflexivity | right; left; reflexivity]]).
Qed.

Example f32_dec_0349 : f32_dec 349 10000 = S754_finite false 9368397 (-28).
Proof. vm_compute. reflexivity. Qed.

(** ** Facts about binary32 division *)

Lemma digits2_pos_size (p : positive) : digits2_pos p = Pos.size p.
Proof. induction p as [p IH | p IH |]; simpl; congruence. Qed.

Lemma Zdigits2_bounds (p : positive) :
  2 ^ (Zdigits2 (Z.pos p) - 1) <= Z.pos p < 2 ^ Zdigits2 (Z.pos p).
Proof.
  cbn [Zdigits2]. rewrite digits2_pos_size.
  pose proof (Pos.size_gt p) as Hgt. pose proof (Pos.size_le p) as Hle.
  assert (Hpow : Z.pos (2 ^ Pos.size p) = 2 ^ Z.pos (Pos.size p)) by apply Pos2Z.inj_pow.
  split.
  - assert (H2 : 2 ^ Z.pos (Pos.size p) = 2 * 2 ^ (Z.pos (Pos.size p) - 1)).
    { rewrite <- Z.pow_succ_r by lia. f_equal. lia. }
    assert (Z.pos (2 ^ Pos.size p) <= Z.pos p~0) by exact Hle.
    lia.
  - rewrite <- Hpow. exact Hgt.
Qed.

Lemma Zdigits2_le (p : positive) (k : Z) : 0 <= k -> Z.pos p < 2 ^ k -> Zdigits2 (Z.pos p) <= k.
Proof.
  intros Hk Hlt. pose proof (Zdigits2_bounds p) as [Hlo _].
  assert (Hd : 0 < Zdigits2 (Z.pos p)) by (cbn; lia).
  destruct (Z.le_gt_cases (Zdigits2 (Z.pos p)) k) as [Hle | Hgt]; [exact Hle |].
  assert (2 ^ k <= 2 ^ (Zdigits2 (Z.pos p) - 1)) by (apply Z.pow_le_mono_r; lia).
  lia.
Qed.

Lemma shr_1_m (mrs : shr_record) : 0 <= shr_m mrs -> shr_m (shr_1 mrs) = shr_m mrs / 2.
Proof.
  destruct mrs as [m r s]. cbn [shr_m]. intros Hm.
  destruct m as [| p | p]; [reflexivity | | lia].
  destruct p as [p | p |]; cbn [shr_1 shr_m].
  - rewrite Pos2Z.inj_xI. apply Z.div_unique with (r := 1); lia.
  - rewrite Pos2Z.inj_xO. apply Z.div_unique with (r := 0); lia.
  - reflexivity.
Qed.

Lemma pow2_xO (p : positive) : 2 ^ Z.pos p~0 = 2 ^ Z.pos p * 2 ^ Z.pos p.
Proof. rewrite Pos2Z.inj_xO, <- Z.pow_add_r by lia. f_equal. lia. Qed.

Lemma pow2_xI (p : positive) : 2 ^ Z.pos p~1 = 2 * (2 ^ Z.pos p * 2 ^ Z.pos p).
Proof.
  rewrite Pos2Z.inj_xI, <- Z.pow_add_r by lia.
  replace (2 * Z.pos p + 1) with (Z.succ (Z.pos p + Z.pos p)) by lia.
  apply Z.pow_succ_r. lia.
Qed.

Lemma iter_shr_1_m (p : positive) :
  forall mrs, 0 <= shr_m mrs ->
    shr_m (iter_pos shr_1 p mrs) = shr_m mrs / 2 ^ Z.pos p.
Proof.
  assert (Hpos : forall k, 0 < 2 ^ Z.pos k) by (intros k; apply Z.pow_pos_nonneg; lia).
  assert (Hnn : forall mrs, 0 <= shr_m mrs -> 0 <= shr_m (shr_1 mrs)).
  { intros mrs H. rewrite shr_1_m by exact H. apply Z.div_pos; lia. }
  induction p as [p IH | p IH |]; intros mrs Hm; cbn [iter_pos].
  - assert (H1 : 0 <= shr_m (shr_1 mrs)) by (apply Hnn; exact Hm).
    assert (H2 : 0 <= shr_m (iter_pos shr_1 p (shr_1 mrs))).
    { rewrite IH by exact H1. apply Z.div_pos; [exact H1 | apply Hpos]. }
    rewrite IH by exact H2. rewrite IH by exact H1. rewrite shr_1_m by exact Hm.
    pose proof (Hpos p) as Hp.
    rewrite !Z.div_div by lia. rewrite pow2_xI. reflexivity.
  - assert (H2 : 0 <= shr_m (iter_pos shr_1 p mrs)).
    { rewrite IH by exact Hm. apply Z.div_pos; [exact Hm | apply Hpos]. }
    rewrite IH by exact H2. rewrite IH by exact Hm.
    pose proof (Hpos p) as Hp.
    rewrite Z.div_div by lia. rewrite pow2_xO. reflexivity.
  - rewrite shr_1_m by exact Hm. reflexivity.
Qed.

(** Shifting right by [n] places divides the mantissa by [2 ^ n]. *)
Lemma shr_m_div (mrs : shr_record) (e n : Z) :
  0 <= shr_m mrs ->
  shr_m (fst (shr mrs e n)) = shr_m mrs / 2 ^ Z.max n 0
  /\ snd (shr mrs e n) = e + Z.max n 0.
Proof.
  intros Hm. destruct n as [| p | p]; cbn [shr fst snd].
  - rewrite Z.div_1_r. split; [reflexivity | lia].
  - rewrite iter_shr_1_m by exact Hm. split; [reflexivity | lia].
  - rewrite Z.div_1_r. split; [reflexivity | lia].
Qed.

Lemma shr_1_even (m : Z) :
  0 <= m ->
  shr_1 (Build_shr_record (2 * m) false false) = Build_shr_record m false false.
Proof. intros Hm. destruct m as [| p | p]; [reflexivity | reflexivity | lia]. Qed.

Lemma iter_shr_1_exact (p : positive) :
  forall k, 0 <= k ->
    iter_pos shr_1 p (Build_shr_record (k * 2 ^ Z.pos p) false false)
    = Build_shr_record k false false.
Proof.
  assert (Hpos : forall j, 0 < 2 ^ Z.pos j) by (intros j; apply Z.pow_pos_nonneg; lia).
  induction p as [p IH | p IH |]; intros k Hk; cbn [iter_pos].
  - pose proof (Hpos p) as Hp.
    rewrite pow2_xI.
    replace (k * (2 * (2 ^ Z.pos p * 2 ^ Z.pos p))) with (2 * (k * 2 ^ Z.pos p * 2 ^ Z.pos p))
      by ring.
    rewrite shr_1_even by nia.
    rewrite IH by nia. apply IH. exact Hk.
  - pose proof (Hpos p) as Hp.
    rewrite pow2_xO. rewrite Z.mul_assoc.
    rewrite IH by nia. apply IH. exact Hk.
  - replace (k * 2 ^ 1) with (2 * k) by (change (2 ^ 1) with 2; ring).
    apply shr_1_even. exact Hk.
Qed.

Lemma shr_nonpos (mrs : shr_record) (e n : Z) : n <= 0 -> shr mrs e n = (mrs, e).
Proof. intros Hn. destruct n as [| p | p]; [reflexivity | lia | reflexivity]. Qed.

Lemma shr_m_of_loc (m : Z) (l : location) : shr_m (shr_record_of_loc m l) = m.
Proof. destruct l as [| []]; reflexivity. Qed.

Lemma round_nearest_even_bounds (m : Z) (l : location) :
  m <= round_nearest_even m l <= m + 1.
Proof.
  destruct l as [| []]; cbn [round_nearest_even]; try lia.
  destruct (Z.even m); lia.
Qed.

(** [binary_round_aux] with its two shifts named. *)
Lemma binary_round_aux_eq (sx : bool) (mx ex : Z) (lx : location) :
  binary_round_aux prec32 emax32 sx mx ex lx =
  let s1 := shr (shr_record_of_loc mx lx) ex (fexp prec32 emax32 (Zdigits2 mx + ex) - ex) in
  let q1 := round_nearest_even (shr_m (fst s1)) (loc_of_shr_record (fst s1)) in
  let s2 := shr (shr_record_of_loc q1 loc_Exact) (snd s1)
              (fexp prec32 emax32 (Zdigits2 q1 + snd s1) - snd s1) in
  match shr_m (fst s2) with
  | Z0 => S754_zero sx
  | Z.pos m => if snd s2 <=? emax32 - prec32 then S754_finite sx m (snd s2)
               else S754_infinity sx
  | Z.neg _ => S754_nan
  end.
Proof.
  unfold binary_round_aux, shr_fexp.
  destruct (shr (shr_record_of_loc mx lx) ex _) as [mrs1 e1]. cbn [fst snd].
  destruct (shr (shr_record_of_loc _ loc_Exact) e1 _) as [mrs2 e2]. reflexivity.
Qed.

Lemma Zdigits2_pow2 (k : Z) : 0 <= k -> Zdigits2 (2 ^ k) = k + 1.
Proof.
  intros Hk.
  assert (Hp : 0 < 2 ^ k) by (apply Z.pow_pos_nonneg; lia).
  destruct (2 ^ k) as [| p | p] eqn:E; try lia.
  pose proof (Zdigits2_bounds p) as [Hlo Hhi].
  set (d := Zdigits2 (Z.pos p)) in *.
  assert (Hd : 0 < d) by (subst d; cbn; lia).
  rewrite <- E in Hlo, Hhi.
  apply Z.pow_le_mono_r_iff in Hlo; try lia.
  apply Z.pow_lt_mono_r_iff in Hhi; lia.
Qed.

Lemma fexp32 (e : Z) : fexp prec32 emax32 e = Z.max (e - 24) (-149).
Proof. reflexivity. Qed.

Lemma f1_eq : f1 = S754_finite false 8388608 (-23).
Proof. vm_compute. reflexivity. Qed.

(** A quotient at most one, cut at an exponent of at most -24, rounds to a
    float at most one. *)
Lemma binary_round_aux_le_one (q K : Z) (l : location) :
  24 <= K -> 0 <= q <= 2 ^ K -> (q = 2 ^ K -> l = loc_Exact) ->
  (binary_round_aux prec32 emax32 false q (- K) l <=? f1)%f32 = true.
Proof.
  intros HK [Hq0 HqK] Hexact.
  rewrite binary_round_aux_eq. cbv zeta.
  assert (HqK' : q = 2 ^ K \/ q < 2 ^ K) by lia.
  destruct HqK' as [Heq | Hlt].
  - (* the quotient is exactly one *)
    rewrite (Hexact Heq). subst q.
    rewrite Zdigits2_pow2, fexp32 by lia.
    replace (Z.max (K + 1 + - K - 24) (-149) - - K) with (K - 23) by lia.
    assert (Hs1 : shr (shr_record_of_loc (2 ^ K) loc_Exact) (- K) (K - 23)
                  = (Build_shr_record (2 ^ 23) false false, -23)).
    { destruct (K - 23) as [| p | p] eqn:Ep; try lia.
      cbn [shr shr_record_of_loc]. f_equal; [| lia].
      replace (2 ^ K) with (2 ^ 23 * 2 ^ Z.pos p)
        by (rewrite <- Z.pow_add_r by lia; f_equal; lia).
      apply iter_shr_1_exact. lia. }
    rewrite Hs1. vm_compute. reflexivity.
  - (* the quotient is below one *)
    set (n1 := fexp prec32 emax32 (Zdigits2 q + - K) - - K).
    destruct (shr_m_div (shr_record_of_loc q l) (- K) n1) as [Hm1 He1];
      [rewrite shr_m_of_loc; exact Hq0 |].
    rewrite shr_m_of_loc in Hm1.
    set (s1 := shr (shr_record_of_loc q l) (- K) n1) in *.
    assert (Hdq : 0 <= Zdigits2 q <= K).
    { destruct q as [| p | p]; [cbn; lia | | lia].
      split; [cbn; lia | apply Zdigits2_le; lia]. }
    assert (Hn1 : n1 = Z.max (Zdigits2 q - K - 24) (-149) + K)
      by (subst n1; rewrite fexp32; lia).
    assert (He : -149 <= snd s1 <= -24) by lia.
    assert (Hm : 0 <= shr_m (fst s1) < 2 ^ 24).
    { rewrite Hm1.
      assert (Hpn : 0 < 2 ^ Z.max n1 0) by (apply Z.pow_pos_nonneg; lia).
      split; [apply Z.div_pos; lia |].
      apply Z.div_lt_upper_bound; [exact Hpn |].
      rewrite <- Z.pow_add_r by lia.
      destruct q as [| p | p]; [apply Z.pow_pos_nonneg; lia | | lia].
      pose proof (Zdigits2_bounds p) as [_ Hhi].
      eapply Z.lt_le_trans; [exact Hhi |].
      apply Z.pow_le_mono_r; lia. }
    pose proof (round_nearest_even_bounds (shr_m (fst s1)) (loc_of_shr_record (fst s1)))
      as Hq1.
    set (q1 := round_nearest_even (shr_m (fst s1)) (loc_of_shr_record (fst s1))) in *.
    set (e1 := snd s1) in *.
    rewrite fexp32. rewrite f1_eq.
    assert (Hcases : q1 = 0 \/ q1 = 2 ^ 24 \/ 0 < q1 < 2 ^ 24) by lia.
    destruct Hcases as [Hz | [Hmax | Hmid]].
    + rewrite Hz. rewrite shr_nonpos by (cbn [Zdigits2]; lia). reflexivity.
    + rewrite Hmax.
      replace (Z.max (Zdigits2 (2 ^ 24) + e1 - 24) (-149) - e1) with 1
        by (change (Zdigits2 (2 ^ 24)) with 25; lia).
      cbn [shr shr_record_of_loc iter_pos fst snd].
      change (shr_m (shr_1 {| shr_m := 2 ^ 24; shr_r := false; shr_s := false |}))
        with (Z.pos 8388608).
      cbv iota.
      replace (e1 + 1 <=? emax32 - prec32) with true
        by (symmetry; apply Z.leb_le; unfold emax32, prec32; lia).
      unfold fleb, SFleb, SFcompare.
      destruct (Z.compare_spec (e1 + 1) (-23)) as [Hc | Hc | Hc];
        [reflexivity | reflexivity | lia].
    + destruct q1 as [| p | p]; try lia.
      rewrite shr_nonpos.
      2:{ assert (Zdigits2 (Z.pos p) <= 24) by (apply Zdigits2_le; lia). lia. }
      cbn [fst snd shr_record_of_loc shr_m].
      replace (e1 <=? emax32 - prec32) with true
        by (symmetry; apply Z.leb_le; unfold emax32, prec32; lia).
      unfold fleb, SFleb, SFcompare.
      destruct (Z.compare_spec e1 (-23)) as [Hc | Hc | Hc]; [lia | reflexivity | lia].
Qed.

Lemma binary_round_aux_neg_le_one (q e : Z) (l : location) :
  0 <= q -> (binary_round_aux prec32 emax32 true q e l <=? f1)%f32 = true.
Proof.
  intros Hq. rewrite binary_round_aux_eq. cbv zeta.
  set (s1 := shr (shr_record_of_loc q l) e _).
  set (q1 := round_nearest_even (shr_m (fst s1)) (loc_of_shr_record (fst s1))).
  assert (H1 : 0 <= shr_m (fst s1)).
  { subst s1. destruct (shr_m_div (shr_record_of_loc q l) e
                          (fexp prec32 emax32 (Zdigits2 q + e) - e)) as [Hm _];
      [rewrite shr_m_of_loc; exact Hq |].
    rewrite Hm, shr_m_of_loc. apply Z.div_pos; [exact Hq | apply Z.pow_pos_nonneg; lia]. }
  assert (Hq1 : 0 <= q1)
    by (pose proof (round_nearest_even_bounds (shr_m (fst s1)) (loc_of_shr_record (fst s1)));
        subst q1; lia).
  set (s2 := shr (shr_record_of_loc q1 loc_Exact) (snd s1) _).
  assert (H2 : 0 <= shr_m (fst s2)).
  { subst s2. destruct (shr_m_div (shr_record_of_loc q1 loc_Exact) (snd s1)
                          (fexp prec32 emax32 (Zdigits2 q1 + snd s1) - snd s1)) as [Hm _];
      [rewrite shr_m_of_loc; exact Hq1 |].
    rewrite Hm, shr_m_of_loc. apply Z.div_pos; [exact Hq1 | apply Z.pow_pos_nonneg; lia]. }
  rewrite f1_eq.
  destruct (shr_m (fst s2)) as [| p | p]; [reflexivity | | lia].
  destruct (snd s2 <=? emax32 - prec32); reflexivity.
Qed.

Lemma div_eucl_div_mod (a b : Z) : Z.div_eucl a b = (a / b, a mod b).
Proof. unfold Z.div, Z.modulo. destruct (Z.div_eucl a b). reflexivity. Qed.

(** Division of two finite numbers, with the quotient and remainder of the
    shifted mantissas written out. *)
Lemma fdiv_finite (sx sy : bool) (mx my : positive) (ex ey : Z) :
  (S754_finite sx mx ex / S754_finite sy my ey)%f32 =
  let e' := Z.min (fexp prec32 emax32
                     (Zdigits2 (Z.pos mx) + ex - (Zdigits2 (Z.pos my) + ey))) (ex - ey) in
  let m' := Z.pos mx * 2 ^ (ex - ey - e') in
  binary_round_aux prec32 emax32 (xorb sx sy) (m' / Z.pos my) e'
    (new_location (Z.pos my) (m' mod Z.pos my)).
Proof.
  cbv zeta. unfold fdiv, SFdiv, SFdiv_core_binary.
  set (e' := Z.min _ (ex - ey)).
  assert (Hs : 0 <= ex - ey - e') by (subst e'; lia).
  assert (Hm' : match ex - ey - e' with
                | 0 => Z.pos mx
                | Z.pos _ => Z.shiftl (Z.pos mx) (ex - ey - e')
                | Z.neg _ => 0
                end = Z.pos mx * 2 ^ (ex - ey - e')).
  { destruct (ex - ey - e') as [| p | p] eqn:Es; [| | lia].
    - rewrite Z.pow_0_r. lia.
    - apply Z.shiftl_mul_pow2. lia. }
  rewrite Hm', div_eucl_div_mod. reflexivity.
Qed.

Lemma new_location_zero (nb : Z) : new_location nb 0 = loc_Exact.
Proof.
  unfold new_location, new_location_even, new_location_odd.
  destruct (Z.even nb); reflexivity.
Qed.

(** What validity says of a finite binary32 number. *)
Lemma bounded32 (m : positive) (e : Z) :
  bounded prec32 emax32 m e = true ->
  Zdigits2 (Z.pos m) <= 24 /\ -149 <= e <= 104
  /\ (e = -149 \/ Zdigits2 (Z.pos m) = 24).
Proof.
  unfold bounded, canonical_mantissa. intros H.
  apply andb_prop in H. destruct H as [Hc Hb].
  apply Z.eqb_eq in Hc. apply Z.leb_le in Hb.
  rewrite fexp32 in Hc. cbn [Zdigits2]. unfold emax32, prec32 in Hb. lia.
Qed.

(** Dividing a number by itself gives exactly one. *)
Lemma fdiv_self (m : positive) (e : Z) :
  (S754_finite false m e / S754_finite false m e)%f32 = f1.
Proof.
  rewrite fdiv_finite. cbv zeta.
  replace (Zdigits2 (Z.pos m) + e - (Zdigits2 (Z.pos m) + e)) with 0 by lia.
  replace (e - e) with 0 by lia.
  change (Z.min (fexp prec32 emax32 0) 0) with (-24).
  change (0 - -24) with 24.
  rewrite Z.mul_comm, Z.div_mul, Z.mod_mul, new_location_zero by lia.
  vm_compute. reflexivity.
Qed.

(** A positive number divided by a positive number that is not below it is
    at most one. *)
Lemma fdiv_le_one_pos (mx mp : positive) (ex ep : Z) :
  bounded prec32 emax32 mx ex = true -> bounded prec32 emax32 mp ep = true ->
  (S754_finite false mp ep <? S754_finite false mx ex)%f32 = false ->
  (S754_finite false mx ex / S754_finite false mp ep <=? f1)%f32 = true.
Proof.
  intros Hvx Hvp Hle.
  rewrite fdiv_finite. cbv zeta. cbn [xorb].
  apply bounded32 in Hvx. apply bounded32 in Hvp.
  destruct Hvx as (Hdx & Hex & Hcx). destruct Hvp as (Hdp & Hep & Hcp).
  pose proof (Zdigits2_bounds mx) as [Hxlo Hxhi].
  pose proof (Zdigits2_bounds mp) as [Hplo Hphi].
  set (dx := Zdigits2 (Z.pos mx)) in *. set (dp := Zdigits2 (Z.pos mp)) in *.
  assert (Hdx0 : 0 < dx) by (subst dx; cbn; lia).
  assert (Hdp0 : 0 < dp) by (subst dp; cbn; lia).
  (* the order of the two numbers, on exponents and mantissas *)
  assert (Hord : ex < ep \/ (ex = ep /\ Z.pos mx <= Z.pos mp)).
  { unfold fltb, SFltb, SFcompare in Hle.
    destruct (Z.compare_spec ep ex) as [Heq | Hlt | Hgt]; [| discriminate | lia].
    right. split; [lia |].
    rewrite Pos.compare_cont_spec in Hle. cbn [Pos.switch_Eq] in Hle.
    destruct (Pos.compare_spec mp mx) as [Hm | Hm | Hm]; try discriminate; lia. }
  set (e' := Z.min (fexp prec32 emax32 (dx + ex - (dp + ep))) (ex - ep)).
  assert (HD : dx + ex - (dp + ep) <= 0).
  { destruct Hord as [Hlt | [Heq Hm]]; [lia |].
    assert (dx <= dp) by (subst dx; apply Zdigits2_le; lia). lia. }
  assert (He' : e' <= -24) by (subst e'; rewrite fexp32; lia).
  assert (Hs : 0 <= ex - ep - e') by (subst e'; lia).
  set (K := - e'). replace e' with (- K) by (subst K; lia).
  replace (ex - ep - - K) with (ex - ep + K) by lia.
  assert (Hs' : 0 <= ex - ep + K) by (subst K; lia).
  assert (HK : 24 <= K) by (subst K; lia).
  clearbody K. clear e' He' Hs.
  assert (HpK : 0 < 2 ^ K) by (apply Z.pow_pos_nonneg; lia).
  assert (Hps : 0 < 2 ^ (ex - ep + K)) by (apply Z.pow_pos_nonneg; lia).
  (* the shifted dividend is at most the divisor times 2^K *)
  assert (Hnum : Z.pos mx * 2 ^ (ex - ep + K) <= Z.pos mp * 2 ^ K).
  { destruct Hord as [Hlt | [Heq Hm]].
    - assert (Hdp24 : dp = 24) by lia.
      assert (H23 : 2 ^ 23 <= Z.pos mp) by (rewrite Hdp24 in Hplo; exact Hplo).
      assert (H24 : Z.pos mx < 2 ^ 24).
      { eapply Z.lt_le_trans; [exact Hxhi | apply Z.pow_le_mono_r; lia]. }
      assert (Hsk : 2 * 2 ^ (ex - ep + K) <= 2 ^ K).
      { rewrite <- Z.pow_succ_r by lia. apply Z.pow_le_mono_r; lia. }
      change (2 ^ 24) with (2 * 2 ^ 23) in H24. nia.
    - replace (ex - ep + K) with K by lia. nia. }
  apply binary_round_aux_le_one; [exact HK | |].
  - split; [apply Z.div_pos; lia |].
    apply Z.div_le_upper_bound; lia.
  - intros Hq.
    assert (Hmod : (Z.pos mx * 2 ^ (ex - ep + K)) mod Z.pos mp = 0).
    { pose proof (Z.div_mod (Z.pos mx * 2 ^ (ex - ep + K)) (Z.pos mp)) as Hdm.
      pose proof (Z.mod_pos_bound (Z.pos mx * 2 ^ (ex - ep + K)) (Z.pos mp)) as Hb.
      rewrite Hq in Hdm. lia. }
    rewrite Hmod. apply new_location_zero.
Qed.

Lemma fltb_rank (v w : float) :
  valid32 v = true -> valid32 w = true -> is_finite v = true -> is_finite w = true ->
  (v <? w)%f32 = (rank v <? rank w).
Proof.
  intros Hv Hw Hfv Hfw.
  assert (Hk : forall (s : bool) m e, bounded prec32 emax32 m e = true ->
                 0 < Z.pos m < 16777216 /\ -149 <= e).
  { intros s m e Hb. apply bounded32 in Hb. destruct Hb as (Hd & He & _).
    pose proof (Zdigits2_bounds m) as [_ Hhi].
    assert (2 ^ Zdigits2 (Z.pos m) <= 2 ^ 24) by (apply Z.pow_le_mono_r; lia).
    change (2 ^ 24) with 16777216 in *. lia. }
  destruct v as [sv | sv | | sv mv ev]; try discriminate;
    destruct w as [sw | sw | | sw mw ew]; try discriminate;
    unfold fltb, SFltb, SFcompare, rank; change (2 ^ 24) with 16777216.
  - reflexivity.
  - destruct (Hk sw mw ew Hw). destruct sw; symmetry;
      [apply Z.ltb_ge | apply Z.ltb_lt]; lia.
  - destruct (Hk sv mv ev Hv). destruct sv; symmetry;
      [apply Z.ltb_lt | apply Z.ltb_ge]; lia.
  - destruct (Hk sv mv ev Hv). destruct (Hk sw mw ew Hw).
    rewrite Pos.compare_cont_spec. cbn [Pos.switch_Eq].
    destruct sv, sw; symmetry;
      destruct (Z.compare_spec ev ew) as [He | He | He];
      try destruct (Pos.compare_spec mv mw) as [Hm | Hm | Hm]; cbn [CompOpp];
      first [apply Z.ltb_lt; nia | apply Z.ltb_ge; nia].
Qed.

Lemma std_max_cases (v w : float) : std_max v w = v \/ std_max v w = w.
Proof. unfold std_max. destruct (v <? w)%f32; [right | left]; reflexivity. Qed.

Lemma std_max_rank (v w : float) :
  valid32 v = true -> valid32 w = true -> is_finite v = true -> is_finite w = true ->
  rank v <= rank (std_max v w) /\ rank w <= rank (std_max v w).
Proof.
  intros Hv Hw Hfv Hfw. unfold std_max. rewrite (fltb_rank v w) by assumption.
  destruct (Z.ltb_spec (rank v) (rank w)); lia.
Qed.

(** A finite number divided by a positive finite number that is not below
    it is at most one. *)
Lemma fdiv_le_one (v : float) (mp : positive) (ep : Z) :
  valid32 v = true -> is_finite v = true -> bounded prec32 emax32 mp ep = true ->
  (S754_finite false mp ep <? v)%f32 = false ->
  (v / S754_finite false mp ep <=? f1)%f32 = true.
Proof.
  intros Hv Hfv Hp Hle.
  destruct v as [sv | sv | | sv mv ev]; try discriminate.
  - rewrite f1_eq. destruct sv; reflexivity.
  - destruct sv.
    + rewrite fdiv_finite. cbv zeta. cbn [xorb].
      apply binary_round_aux_neg_le_one.
      apply Z.div_pos; [| lia].
      apply Z.mul_nonneg_nonneg; [lia | apply Z.pow_nonneg; lia].
    + apply fdiv_le_one_pos; assumption.
Qed.

(** The colour of a Point or Spot light with finite diffuse channels and
    a positive peak: no channel exceeds one and the peak channel is one. *)
Lemma normalized_by_peak (cr cg cb : float) :
  valid32 cr = true -> valid32 cg = true -> valid32 cb = true ->
  is_finite cr = true -> is_finite cg = true -> is_finite cb = true ->
  let peak := std_max cr (std_max cg cb) in
  (f0 <? peak)%f32 = true ->
  (cr / peak <=? f1)%f32 = true /\ (cg / peak <=? f1)%f32 = true
  /\ (cb / peak <=? f1)%f32 = true
  /\ ((cr / peak)%f32 = f1 \/ (cg / peak)%f32 = f1 \/ (cb / peak)%f32 = f1).
Proof.
  intros Hvr Hvg Hvb Hfr Hfg Hfb peak Hpos.
  assert (Hinner : valid32 (std_max cg cb) = true /\ is_finite (std_max cg cb) = true).
  { destruct (std_max_cases cg cb) as [-> | ->]; split; assumption. }
  destruct Hinner as [Hvi Hfi].
  assert (Hpeak : valid32 peak = true /\ is_finite peak = true).
  { subst peak. destruct (std_max_cases cr (std_max cg cb)) as [-> | ->]; split; assumption. }
  destruct Hpeak as [Hvp Hfp].
  destruct (std_max_rank cg cb Hvg Hvb Hfg Hfb) as [Hg Hb].
  destruct (std_max_rank cr (std_max cg cb) Hvr Hvi Hfr Hfi) as [Hr Hi].
  fold peak in Hr, Hi.
  assert (Hle : forall c, valid32 c = true -> is_finite c = true -> rank c <= rank peak ->
                  (peak <? c)%f32 = false).
  { intros c Hvc Hfc Hc. rewrite fltb_rank by assumption. apply Z.ltb_ge. exact Hc. }
  assert (Hwhich : peak = cr \/ peak = cg \/ peak = cb).
  { subst peak. destruct (std_max_cases cr (std_max cg cb)) as [-> | ->]; [left; reflexivity |].
    destruct (std_max_cases cg cb) as [-> | ->]; [right; left | right; right]; reflexivity. }
  destruct peak as [sp | sp | | sp mp ep] eqn:Ep; try discriminate.
  destruct sp; [discriminate |].
  assert (Hself : (S754_finite false mp ep / S754_finite false mp ep)%f32 = f1)
    by apply fdiv_self.
  split; [apply fdiv_le_one; try assumption; apply Hle; assumption |].
  split; [apply fdiv_le_one; try assumption; apply Hle; try assumption; lia |].
  split; [apply fdiv_le_one; try assumption; apply Hle; try assumption; lia |].
  destruct Hwhich as [<- | [<- | <-]]; [left | right; left | right; right]; exact Hself.
Qed.

(** ** The colour of a converted Point or Spot light *)

Lemma createFromPointSpot_Color (opts : Options) (ci : D3DLIGHT9 -> float -> float)
    (light : D3DLIGHT9) :
  m_ (value (createFromPointSpot opts ci light)) Color =
  Vector3_div (mkVector3 (r (Diffuse light)) (g (Diffuse light)) (b (Diffuse light)))
    (std_max (r (Diffuse light)) (std_max (g (Diffuse light)) (b (Diffuse light)))).
Proof.
  unfold createFromPointSpot. rewrite value_bind.
  destruct (Type_ light =? D3DLIGHT_SPOT).
  - rewrite value_bind. reflexivity.
  - reflexivity.
Qed.

(** C10, for finite channels: createFromPointSpot divides the diffuse
    colour by its peak channel with no test for zero.  When the three
    channels are finite numbers and the peak is above zero, the colour is
    the diffuse colour over the peak, no component of it exceeds one and
    the peak channel is exactly one.  A Point or Spot call whose diffuse
    colour is all zero is still accepted, and its colour is 0/0 (NaN) in
    every component. *)
Theorem color_divided_by_peak (opts : Options) (ci : D3DLIGHT9 -> float -> float)
    (light : D3DLIGHT9) :
  let diffuse := mkVector3 (r (Diffuse light)) (g (Diffuse light)) (b (Diffuse light)) in
  let peak := std_max (r (Diffuse light)) (std_max (g (Diffuse light)) (b (Diffuse light))) in
  let color : Vector3 := m_ (value (createFromPointSpot opts ci light)) Color in
  color = Vector3_div diffuse peak
  /\ (valid32 (r (Diffuse light)) = true -> valid32 (g (Diffuse light)) = true ->
      valid32 (b (Diffuse light)) = true ->
      is_finite (r (Diffuse light)) = true -> is_finite (g (Diffuse light)) = true ->
      is_finite (b (Diffuse light)) = true ->
      (f0 <? peak)%f32 = true ->
      (x color <=? f1)%f32 = true /\ (y color <=? f1)%f32 = true
      /\ (z color <=? f1)%f32 = true
      /\ (x color = f1 \/ y color = f1 \/ z color = f1))
  /\ (forall sr sg sb : bool,
        r (Diffuse light) = S754_zero sr -> g (Diffuse light) = S754_zero sg ->
        b (Diffuse light) = S754_zero sb ->
        D3DLIGHT_POINT <= Type_ light <= D3DLIGHT_SPOT ->
        exists d : LightData,
          value (tryCreate opts ci light) = Some d
          /\ m_ d Color = mkVector3 S754_nan S754_nan S754_nan).
Proof.
  cbv zeta. rewrite createFromPointSpot_Color.
  split; [reflexivity |]. split.
  - intros Hvr Hvg Hvb Hfr Hfg Hfb Hpos. cbn [Vector3_div x y z].
    apply normalized_by_peak; assumption.
  - intros sr sg sb Hr Hg Hb Hty.
    rewrite tryCreate_supported
      by (unfold supportedType, D3DLIGHT_POINT, D3DLIGHT_SPOT, D3DLIGHT_DIRECTIONAL in *; lia).
    replace (Type_ light =? D3DLIGHT_DIRECTIONAL) with false
      by (symmetry; apply Z.eqb_neq;
          unfold D3DLIGHT_POINT, D3DLIGHT_SPOT, D3DLIGHT_DIRECTIONAL in *; lia).
    eexists. split; [reflexivity |].
    rewrite createFromPointSpot_Color, Hr, Hg, Hb.
    destruct sr, sg, sb; reflexivity.
Qed.

(** * Further properties of the light record *)

(** ** Merging *)

(** X1: merge never claims a field, so a later merge fills the same gaps
    again: merging [s1] and then [s2] into a record leaves it as merging
    [s2] alone does. *)
Theorem merge_last_source_wins (target s1 s2 : LightData) :
  (forall c : Constant, m_ (merge (merge target s1) s2) c = m_ (merge target s2) c)
  /\ frame (merge (merge target s1) s2) = frame (merge target s2).
Proof.
  destruct (merge_rest target s1) as (_ & Hd & _).
  split.
  - intros c. rewrite !merge_constant, Hd.
    destruct (Flags_test (m_dirty target) (k_ c)); reflexivity.
  - rewrite !merge_frame, Hd.
    pose proof (merge_frame target s1) as Hf. unfold frame in Hf.
    destruct (Flags_test (m_dirty target) k_Transform); congruence.
Qed.

Lemma filledFrom_rest (opts : Options) (ci : D3DLIGHT9 -> float -> float)
    (this : LightData) (light : D3DLIGHT9) :
  m_lightType (filledFrom opts ci this light) = m_lightType this
  /\ m_dirty (filledFrom opts ci this light) = m_dirty this
  /\ m_isRelativeTransform (filledFrom opts ci this light) = m_isRelativeTransform this
  /\ m_isOverrideLight (filledFrom opts ci this light) = m_isOverrideLight this
  /\ m_cachedHash (filledFrom opts ci this light) = m_cachedHash this.
Proof.
  unfold filledFrom. destruct (negb (m_dirty this =? m_allDirty)); [| repeat split].
  destruct (value (tryCreate opts ci light)) as [v |]; [apply merge_rest | repeat split].
Qed.

Lemma merge_D3DLIGHT9_filled (opts : Options) (ci : D3DLIGHT9 -> float -> float)
    (this : LightData) (light : D3DLIGHT9) :
  value (merge_D3DLIGHT9 opts ci this light) =
  if LightType_eqb (m_lightType this) Unknown
  then set_m_lightType (if Type_ light =? D3DLIGHT_DIRECTIONAL then Distant else Sphere)
         (filledFrom opts ci this light)
  else filledFrom opts ci this light.
Proof.
  rewrite merge_D3DLIGHT9_value. cbv zeta. fold (filledFrom opts ci this light).
  destruct (filledFrom_rest opts ci this light) as (Ht & _). rewrite Ht. reflexivity.
Qed.

Lemma merge_D3DLIGHT9_dirty (opts : Options) (ci : D3DLIGHT9 -> float -> float)
    (this : LightData) (light : D3DLIGHT9) :
  m_dirty (value (merge_D3DLIGHT9 opts ci this light)) = m_dirty this.
Proof.
  rewrite merge_D3DLIGHT9_filled.
  destruct (filledFrom_rest opts ci this light) as (_ & Hd & _).
  destruct (LightType_eqb (m_lightType this) Unknown); exact Hd.
Qed.

(** X2: neither merge replaces what identifies the target: the dirty
    mask, the two provenance flags and the cached identity hash are the
    target's own afterwards, whatever is merged in. *)
Theorem merge_keeps_identity (opts : Options) (ci : D3DLIGHT9 -> float -> float)
    (this input : LightData) (light : D3DLIGHT9) :
  (m_dirty (merge this input) = m_dirty this
   /\ m_isRelativeTransform (merge this input) = m_isRelativeTransform this
   /\ m_isOverrideLight (merge this input) = m_isOverrideLight this
   /\ m_cachedHash (merge this input) = m_cachedHash this)
  /\ (let merged := value (merge_D3DLIGHT9 opts ci this light) in
      m_dirty merged = m_dirty this
      /\ m_isRelativeTransform merged = m_isRelativeTransform this
      /\ m_isOverrideLight merged = m_isOverrideLight this
      /\ m_cachedHash merged = m_cachedHash this).
Proof.
  split; [apply merge_rest |].
  cbv zeta. rewrite merge_D3DLIGHT9_filled.
  destruct (filledFrom_rest opts ci this light) as (_ & Hd & Hr & Ho & Hh).
  destruct (LightType_eqb (m_lightType this) Unknown); repeat split; assumption.
Qed.

(** X3: merging a call of a supported kind into a record that is not
    fully defined fills exactly the gaps, from the record the call converts
    to: a constant (or the geometry) whose bit is set keeps the target's
    value, the others take the converted record's. *)
Theorem merge_D3DLIGHT9_fills_gaps (opts : Options) (ci : D3DLIGHT9 -> float -> float)
    (this : LightData) (light : D3DLIGHT9) :
  D3DLIGHT_POINT <= Type_ light <= D3DLIGHT_DIRECTIONAL ->
  m_dirty this <> m_allDirty ->
  exists converted : LightData,
    value (tryCreate opts ci light) = Some converted
    /\ (forall c : Constant,
          m_ (value (merge_D3DLIGHT9 opts ci this light)) c =
          if Flags_test (m_dirty this) (k_ c) then m_ this c else m_ converted c)
    /\ geometry (value (merge_D3DLIGHT9 opts ci this light)) =
       if Flags_test (m_dirty this) k_Transform then geometry this else geometry converted.
Proof.
  intros Hty Hd.
  pose proof (tryCreate_supported opts ci light Hty) as Hc.
  eexists. split; [exact Hc |].
  rewrite merge_D3DLIGHT9_filled. unfold filledFrom.
  replace (m_dirty this =? m_allDirty) with false by (symmetry; apply Z.eqb_neq; exact Hd).
  cbn [negb]. rewrite Hc.
  match goal with |- context [merge this ?v] => generalize v as converted end.
  intros converted.
  pose proof (merge_geometry this converted) as Hg.
  split.
  - intros c. rewrite <- merge_constant.
    destruct (LightType_eqb (m_lightType this) Unknown); reflexivity.
  - rewrite <- Hg.
    destruct (LightType_eqb (m_lightType this) Unknown); reflexivity.
Qed.

(** ** Lowering *)

Lemma toRtLight_type (this : LightData) (originalLight : option RtLight) :
  getType (value (toRtLight this originalLight)) = loweredType (m_lightType this)
  /\ events (toRtLight this originalLight) =
     (if LightType_eqb (m_lightType this) Unknown then [AssertFailed "false"] else []).
Proof.
  unfold toRtLight.
  assert (Hty : getType (toSphere this originalLight) = RtSphere).
  { unfold toSphere. destruct originalLight as [original |]; [| reflexivity].
    destruct (RtLightType_eqb (getType original) RtSphere); reflexivity. }
  generalize dependent (toSphere this originalLight). intros sphere Hty.
  destruct (m_lightType this); cbn [loweredType LightType_eqb];
    rewrite ?value_bind, ?events_bind, ?value_ret;
    (split; [try exact Hty; reflexivity | reflexivity]).
Qed.

(** X4: toRtLight yields the shape of the record's type, a sphere for an
    Unknown record; its assertion fires for an Unknown record and for no
    other; state of a previous light is carried over only into a sphere, and
    only from a sphere. *)
Theorem toRtLight_shape (this : LightData) (originalLight : option RtLight) :
  getType (value (toRtLight this originalLight)) = loweredType (m_lightType this)
  /\ events (toRtLight this originalLight) =
     (if LightType_eqb (m_lightType this) Unknown then [AssertFailed "false"] else [])
  /\ carriedFrom (value (toRtLight this originalLight)) =
     match originalLight with
     | Some original =>
       if RtLightType_eqb (loweredType (m_lightType this)) RtSphere
          && RtLightType_eqb (getType original) RtSphere
       then Some (shape original) else None
     | None => None
     end.
Proof.
  unfold toRtLight.
  assert (Hs : getType (toSphere this originalLight) = RtSphere
               /\ carriedFrom (toSphere this originalLight) =
                  match originalLight with
                  | Some original =>
                    if RtLightType_eqb (getType original) RtSphere
                    then Some (shape original) else None
                  | None => None
                  end).
  { unfold toSphere. destruct originalLight as [original |]; [| split; reflexivity].
    destruct (RtLightType_eqb (getType original) RtSphere); split; reflexivity. }
  destruct Hs as [Hty Hca].
  generalize dependent (toSphere this originalLight). intros sphere Hty Hca.
  destruct (m_lightType this); cbn [loweredType LightType_eqb RtLightType_eqb andb];
    rewrite ?value_bind, ?events_bind, ?value_ret;
    (split; [try exact Hty; reflexivity |]);
    (split; [reflexivity |]);
    try exact Hca; destruct originalLight; reflexivity.
Qed.

(** X5: after merge(D3DLIGHT9), whatever the call (its type tag may even be
    out of range), the record has a concrete type, so lowering it raises no
    assertion and gives a sphere or the shape the record already had. *)
Theorem lowering_after_legacy_merge (opts : Options) (ci : D3DLIGHT9 -> float -> float)
    (this : LightData) (light : D3DLIGHT9) (originalLight : option RtLight) :
  let merged := value (merge_D3DLIGHT9 opts ci this light) in
  m_lightType merged <> Unknown
  /\ events (toRtLight merged originalLight) = []
  /\ getType (value (toRtLight merged originalLight)) =
     match m_lightType this with
     | Unknown => if Type_ light =? D3DLIGHT_DIRECTIONAL then RtDistant else RtSphere
     | t => loweredType t
     end.
Proof.
  cbv zeta.
  pose proof (merge_D3DLIGHT9_lightType opts ci this light) as Ht.
  destruct (toRtLight_type (value (merge_D3DLIGHT9 opts ci this light)) originalLight)
    as (Hty & Hev).
  rewrite Hty, Hev, Ht.
  destruct (m_lightType this); cbn [LightType_eqb loweredType];
    try (split; [discriminate | split; reflexivity]).
  destruct (Type_ light =? D3DLIGHT_DIRECTIONAL);
    (split; [discriminate | split; reflexivity]).
Qed.

Lemma tryCreate_supported_events (opts : Options) (ci : D3DLIGHT9 -> float -> float)
    (light : D3DLIGHT9) :
  supportedType light ->
  events (tryCreate opts ci light) =
  if Type_ light =? D3DLIGHT_DIRECTIONAL then []
  else events (createFromPointSpot opts ci light).
Proof.
  unfold supportedType, tryCreate. intros Hin.
  type_cases; rewrite ?events_bind; cbn [events ret snd]; rewrite ?app_nil_r; reflexivity.
Qed.

Lemma createFromPointSpot_events (opts : Options) (ci : D3DLIGHT9 -> float -> float)
    (light : D3DLIGHT9) :
  events (createFromPointSpot opts ci light) =
  if (Type_ light =? D3DLIGHT_SPOT)
     && negb (isApproxNormalized
                (safeNormalize (Direction light) (mkVector3 f0 f0 f1)) tolerance)
  then [AssertFailed "isApproxNormalized(output.m_zAxis, 0.01f)"]
  else [].
Proof.
  unfold createFromPointSpot. rewrite events_bind.
  destruct light as [ty df sp am ps [dx dy dz] rg fo a0 a1 a2 th ph].
  cbn [Type_ Direction x y z].
  destruct (ty =? D3DLIGHT_SPOT); cbn [andb]; [| reflexivity].
  rewrite events_bind. cbn [set_m_zAxis set_axes m_zAxis].
  destruct (isApproxNormalized (safeNormalize (mkVector3 dx dy dz) (mkVector3 f0 f0 f1))
              tolerance); reflexivity.
Qed.

(** X6: a legacy call of a supported kind, converted and lowered, gives
    the renderer a sphere at the call's own position carrying the Point/Spot
    identity hash, or a distant light along the normalized direction with
    half the configured angle carrying the Directional identity hash.  The
    lowering raises no assertion.  The conversion raises none either, with
    one exception: the check on the direction of a Spot light, which fires
    exactly when the direction does not come out of the normalization with
    unit length. *)
Theorem legacy_light_lowered (opts : Options) (ci : D3DLIGHT9 -> float -> float)
    (light : D3DLIGHT9) :
  D3DLIGHT_POINT <= Type_ light <= D3DLIGHT_DIRECTIONAL ->
  exists d : LightData,
    value (tryCreate opts ci light) = Some d
    /\ events (tryCreate opts ci light) =
       (if (Type_ light =? D3DLIGHT_SPOT)
           && negb (isApproxNormalized
                      (safeNormalize (Direction light) (mkVector3 f0 f0 f1)) tolerance)
        then [AssertFailed "isApproxNormalized(output.m_zAxis, 0.01f)"]
        else [])
    /\ events (toRtLight d None) = []
    /\ carriedFrom (value (toRtLight d None)) = None
    /\ (if Type_ light =? D3DLIGHT_DIRECTIONAL then
          exists radiance : Vector3,
            shape (value (toRtLight d None)) =
            RtDistantLight (safeNormalize (Direction light) (mkVector3 f0 f0 f1))
              (lightConversionDistantLightFixedAngle opts / f2)%f32 radiance
              (stableHash_Directional light)
        else
          exists (radiance : Vector3) (radius : float) (shaping : RtLightShaping),
            shape (value (toRtLight d None)) =
            RtSphereLight (Position light) radiance radius shaping
              (stableHash_PointSpot light)).
Proof.
  intros Hty. rewrite tryCreate_supported by exact Hty.
  rewrite tryCreate_supported_events by exact Hty.
  rewrite createFromPointSpot_events.
  eexists. split; [reflexivity |].
  split.
  { destruct (Z.eqb_spec (Type_ light) D3DLIGHT_DIRECTIONAL) as [E | E]; [| reflexivity].
    rewrite E. reflexivity. }
  destruct (Type_ light =? D3DLIGHT_DIRECTIONAL).
  - pose proof (createFromDirectional_hash opts light) as Hh.
    assert (Hz : m_zAxis (createFromDirectional opts light)
                 = safeNormalize (Direction light) (mkVector3 f0 f0 f1)).
    { unfold createFromDirectional.
      destruct light as [ty df sp am ps [dx dy dz] rg fo a0 a1 a2 th ph]. reflexivity. }
    assert (Ha : m_ (createFromDirectional opts light) AngleRadians
                 = lightConversionDistantLightFixedAngle opts) by reflexivity.
    assert (Ht : m_lightType (createFromDirectional opts light) = Distant) by reflexivity.
    revert Hh Hz Ha Ht. generalize (createFromDirectional opts light) as d.
    intros d Hh Hz Ha Ht. unfold toRtLight. rewrite Ht.
    split; [reflexivity |]. split; [reflexivity |].
    eexists. rewrite value_ret. cbn [shape]. rewrite Hh, Hz, Ha. reflexivity.
  - pose proof (createFromPointSpot_hash opts ci light) as Hh.
    destruct (createFrom_lightType opts ci light) as (_ & Ht).
    assert (Hp : m_position (value (createFromPointSpot opts ci light)) = Position light).
    { unfold createFromPointSpot. rewrite value_bind.
      destruct light as [ty df sp am [px py pz] dr rg fo a0 a1 a2 th ph].
      cbn [Type_ Position x y z].
      destruct (ty =? D3DLIGHT_SPOT); [rewrite value_bind |]; reflexivity. }
    revert Hh Ht Hp. generalize (value (createFromPointSpot opts ci light)) as d.
    intros d Hh Ht Hp. unfold toRtLight. rewrite Ht.
    split; [reflexivity |]. split; [reflexivity |].
    do 3 eexists. rewrite value_ret. unfold toSphere. cbn [shape].
    rewrite Hh, Hp. reflexivity.
Qed.

(** ** Flags *)

Lemma flagIndex_range (f : DirtyFlags) : 0 <= flagIndex f < 32.
Proof. destruct f as [c |]; [destruct c |]; cbn; lia. Qed.

Lemma flagIndex_inj (f g : DirtyFlags) : flagIndex f = flagIndex g -> f = g.
Proof.
  destruct f as [c |], g as [d |]; try destruct c; try destruct d; cbn;
    intros H; try reflexivity; discriminate.
Qed.

Lemma Flags_test_set_same (m : Flags) (f : DirtyFlags) : Flags_test (Flags_set m f) f = true.
Proof.
  unfold Flags_test, Flags_set. pose proof (flagIndex_range f).
  rewrite Z.lor_spec, Z.shiftl_1_l, Z.pow2_bits_true by lia. apply orb_true_r.
Qed.

Lemma Flags_test_set_other (m : Flags) (f g : DirtyFlags) :
  f <> g -> Flags_test (Flags_set m f) g = Flags_test m g.
Proof.
  intros Hne. unfold Flags_test, Flags_set.
  pose proof (flagIndex_range f). pose proof (flagIndex_range g).
  rewrite Z.lor_spec, Z.shiftl_1_l, Z.pow2_bits_false; [apply orb_false_r |].
  intros Heq. apply Hne. apply flagIndex_inj. exact Heq.
Qed.

(** ** Transform extraction *)

Lemma flipOnNegativeScale_length (v axis : Vector3) :
  flipOnNegativeScale (snd (Normalize v)) axis = (length v, axis).
Proof.
  unfold flipOnNegativeScale. rewrite Normalize_scale_not_negative. reflexivity.
Qed.

(** What extractTransform leaves alone. *)
Lemma extractTransform_rest (localToRoot : GfMatrix4f) (this : LightData) :
  let d := value (extractTransform (Some localToRoot) this) in
  m_ d = m_ this
  /\ m_lightType d = m_lightType this
  /\ m_dirty d = Flags_set (m_dirty this) k_Transform
  /\ m_isRelativeTransform d = m_isRelativeTransform this
  /\ m_isOverrideLight d = m_isOverrideLight this
  /\ m_cachedHash d = m_cachedHash this
  /\ m_position d = ExtractTranslation localToRoot.
Proof.
  cbv zeta. unfold extractTransform.
  destruct (Normalize (GetRow3 (row0 localToRoot))) as [xv xs].
  destruct (Normalize (GetRow3 (row1 localToRoot))) as [yv ys].
  destruct (Normalize (GetRow3 (row2 localToRoot))) as [zv zs].
  destruct (flipOnNegativeScale xs _) as [xs' xa].
  destruct (flipOnNegativeScale ys _) as [ys' ya].
  destruct (flipOnNegativeScale zs _) as [zs' za].
  rewrite !value_bind. repeat split.
Qed.

(** X7: without a transform extractTransform does nothing at all.  With
    one it stores the translation as the position, sets the Transform bit
    and no other, and leaves the constants, the type, the provenance flags
    and the identity hash alone. *)
Theorem extractTransform_frame (localToRoot : GfMatrix4f) (this : LightData) :
  extractTransform None this = (this, [])
  /\ (let d := value (extractTransform (Some localToRoot) this) in
      m_position d = ExtractTranslation localToRoot
      /\ Flags_test (m_dirty d) k_Transform = true
      /\ (forall c : Constant,
            Flags_test (m_dirty d) (k_ c) = Flags_test (m_dirty this) (k_ c)
            /\ m_ d c = m_ this c)
      /\ m_lightType d = m_lightType this
      /\ m_isRelativeTransform d = m_isRelativeTransform this
      /\ m_isOverrideLight d = m_isOverrideLight this
      /\ m_cachedHash d = m_cachedHash this).
Proof.
  split; [reflexivity |]. cbv zeta.
  destruct (extractTransform_rest localToRoot this) as (Hm & Ht & Hd & Hr & Ho & Hh & Hp).
  rewrite Hd, Hm. repeat split; try assumption.
  - apply Flags_test_set_same.
  - apply Flags_test_set_other. discriminate.
Qed.

Lemma extractTransform_rows (localToRoot : GfMatrix4f) (this : LightData) :
  let d := value (extractTransform (Some localToRoot) this) in
  let zAxis :=
    sanitizeSingularity (fst (Normalize (GetRow3 (row2 localToRoot)))) (mkVector3 f0 f0 f1) in
  m_xScale d = length (GetRow3 (row0 localToRoot))
  /\ m_yScale d = length (GetRow3 (row1 localToRoot))
  /\ m_zScale d = length (GetRow3 (row2 localToRoot))
  /\ m_xAxis d =
     sanitizeSingularity (fst (Normalize (GetRow3 (row0 localToRoot)))) (mkVector3 f1 f0 f0)
  /\ m_yAxis d =
     sanitizeSingularity (fst (Normalize (GetRow3 (row1 localToRoot)))) (mkVector3 f0 f1 f0)
  /\ m_zAxis d =
     match m_lightType this with
     | Sphere | Unknown => Vector3_neg zAxis
     | _ => zAxis
     end.
Proof.
  cbv zeta.
  destruct (extractTransform_axes localToRoot this) as (Hx & Hy & Hz).
  cbv zeta in Hx, Hy, Hz.
  rewrite flipOnNegativeScale_length in Hx, Hy, Hz.
  revert Hx Hy Hz.
  generalize (value (extractTransform (Some localToRoot) this)) as d.
  intros d Hx Hy Hz.
  pose proof (f_equal fst Hx) as Hxs. pose proof (f_equal snd Hx) as Hxa.
  pose proof (f_equal fst Hy) as Hys. pose proof (f_equal snd Hy) as Hya.
  pose proof (f_equal fst Hz) as Hzs. pose proof (f_equal snd Hz) as Hza.
  cbn [fst snd] in Hxs, Hxa, Hys, Hya, Hzs, Hza.
  rewrite Hxs, Hys, Hzs, Hxa, Hya, Hza. repeat split.
Qed.

(** X8: the scales extractTransform stores are the lengths of the three
    rows, so none of them is ever negative and the negative-scale repair
    changes nothing; the x and y axes are the normalized rows (or the basis
    vector for a row that normalizes to zero) whatever the record, and the z
    axis is the normalized third row, negated for a Sphere or Unknown
    record. *)
Theorem extractTransform_geometry (localToRoot : GfMatrix4f) (this : LightData) :
  let d := value (extractTransform (Some localToRoot) this) in
  let zAxis :=
    sanitizeSingularity (fst (Normalize (GetRow3 (row2 localToRoot)))) (mkVector3 f0 f0 f1) in
  m_xScale d = length (GetRow3 (row0 localToRoot))
  /\ m_yScale d = length (GetRow3 (row1 localToRoot))
  /\ m_zScale d = length (GetRow3 (row2 localToRoot))
  /\ (m_xScale d <? f0)%f32 = false /\ (m_yScale d <? f0)%f32 = false
  /\ (m_zScale d <? f0)%f32 = false
  /\ m_xAxis d =
     sanitizeSingularity (fst (Normalize (GetRow3 (row0 localToRoot)))) (mkVector3 f1 f0 f0)
  /\ m_yAxis d =
     sanitizeSingularity (fst (Normalize (GetRow3 (row1 localToRoot)))) (mkVector3 f0 f1 f0)
  /\ m_zAxis d =
     match m_lightType this with
     | Sphere | Unknown => Vector3_neg zAxis
     | _ => zAxis
     end.
Proof.
  cbv zeta.
  destruct (extractTransform_rows localToRoot this) as (Hxs & Hys & Hzs & Hxa & Hya & Hza).
  cbv zeta in Hza. rewrite Hxs, Hys, Hzs.
  unfold length. rewrite !fsqrt_not_negative.
  split; [reflexivity |]. split; [reflexivity |]. split; [reflexivity |].
  split; [reflexivity |]. split; [reflexivity |]. split; [reflexivity |].
  split; [exact Hxa |]. split; [exact Hya | exact Hza].
Qed.

Lemma Normalize_zero (s1 s2 s3 : bool) :
  Normalize (mkVector3 (S754_zero s1) (S754_zero s2) (S754_zero s3))
  = (mkVector3 (S754_zero s1) (S754_zero s2) (S754_zero s3), f0).
Proof. destruct s1, s2, s3; vm_compute; reflexivity. Qed.

Lemma sanitizeSingularity_zero (s1 s2 s3 : bool) (fallback : Vector3) :
  sanitizeSingularity (mkVector3 (S754_zero s1) (S754_zero s2) (S754_zero s3)) fallback
  = fallback.
Proof. destruct s1, s2, s3; reflexivity. Qed.

(** X9: a row of the transform that is zero in every component (of
    either sign) does not leave a zero direction behind: the axis becomes
    the basis vector of that row -- for a Sphere or Unknown record the third
    one negated -- and the scale of that axis is zero. *)
Theorem extractTransform_zero_row_fallback (localToRoot : GfMatrix4f) (this : LightData)
    (s1 s2 s3 : bool) :
  let d := value (extractTransform (Some localToRoot) this) in
  let zero := mkVector3 (S754_zero s1) (S754_zero s2) (S754_zero s3) in
  (GetRow3 (row0 localToRoot) = zero ->
   m_xAxis d = mkVector3 f1 f0 f0 /\ m_xScale d = f0)
  /\ (GetRow3 (row1 localToRoot) = zero ->
      m_yAxis d = mkVector3 f0 f1 f0 /\ m_yScale d = f0)
  /\ (GetRow3 (row2 localToRoot) = zero ->
      m_zAxis d = match m_lightType this with
                  | Sphere | Unknown => Vector3_neg (mkVector3 f0 f0 f1)
                  | _ => mkVector3 f0 f0 f1
                  end
      /\ m_zScale d = f0).
Proof.
  cbv zeta.
  destruct (extractTransform_rows localToRoot this)
    as (Hxs & Hys & Hzs & Hxa & Hya & Hza).
  cbv zeta in Hza.
  assert (Hlen : length (mkVector3 (S754_zero s1) (S754_zero s2) (S754_zero s3)) = f0)
    by (pose proof (Normalize_zero s1 s2 s3) as Hn; unfold Normalize in Hn; congruence).
  split; [| split]; intros Hrow.
  - rewrite Hxa, Hxs, Hrow, Normalize_zero, Hlen. cbn [fst].
    rewrite sanitizeSingularity_zero. split; reflexivity.
  - rewrite Hya, Hys, Hrow, Normalize_zero, Hlen. cbn [fst].
    rewrite sanitizeSingularity_zero. split; reflexivity.
  - rewrite Hza, Hzs, Hrow, Normalize_zero, Hlen. cbn [fst].
    rewrite sanitizeSingularity_zero. split; reflexivity.
Qed.

(** ** Deserialization *)

Lemma value_foldM {A B : Type} (f : A -> B -> M A) (l : list B) :
  forall acc, value (foldM f l acc) = fold_left (fun a v => value (f a v)) l acc.
Proof.
  induction l as [| v l IH]; intros acc; cbn [foldM fold_left]; [reflexivity |].
  rewrite value_bind. apply IH.
Qed.

Lemma events_foldM {A B : Type} (f : A -> B -> M A) (g : B -> list Event) (l : list B) :
  (forall a v, events (f a v) = g v) ->
  forall acc, events (foldM f l acc) = flat_map g l.
Proof.
  intros Hf. induction l as [| v l IH]; intros acc; cbn [foldM flat_map]; [reflexivity |].
  rewrite events_bind, Hf, IH. reflexivity.
Qed.

Lemma getLightAttribute_value (prim : UsdPrim) (c : Constant) :
  value (getLightAttribute prim c) = authored prim c
  /\ events (getLightAttribute prim c) = legacyReached prim c.
Proof.
  unfold getLightAttribute, authored, legacyReached, legacyOnly.
  destruct (inputsAttribute prim c); [split; reflexivity |].
  destruct (oldAttribute prim c); split; reflexivity.
Qed.

Lemma deserializer_value (prim : UsdPrim) (this : LightData) (c : Constant) :
  value (WRITE_CONSTANT_DESERIALIZER prim this c) = deserialized prim this c
  /\ events (WRITE_CONSTANT_DESERIALIZER prim this c) = legacyReached prim c.
Proof.
  unfold WRITE_CONSTANT_DESERIALIZER, deserialized.
  destruct (getLightAttribute_value prim c) as [Hv He].
  rewrite value_bind, events_bind, Hv, He.
  destruct (authored prim c); split; cbn [events ret snd]; rewrite ?app_nil_r; reflexivity.
Qed.

Lemma deserialized_frame (prim : UsdPrim) (this : LightData) (c : Constant) :
  geometry (deserialized prim this c) = geometry this
  /\ m_lightType (deserialized prim this c) = m_lightType this
  /\ m_isRelativeTransform (deserialized prim this c) = m_isRelativeTransform this
  /\ m_isOverrideLight (deserialized prim this c) = m_isOverrideLight this
  /\ m_cachedHash (deserialized prim this c) = m_cachedHash this
  /\ m_dirty (deserialized prim this c) =
     if isSome (authored prim c) then Flags_set (m_dirty this) (k_ c) else m_dirty this.
Proof. unfold deserialized. destruct (authored prim c); repeat split. Qed.

Lemma deserialized_fold_frame (prim : UsdPrim) (l : list Constant) :
  forall this,
    let d := fold_left (deserialized prim) l this in
    geometry d = geometry this
    /\ m_lightType d = m_lightType this
    /\ m_isRelativeTransform d = m_isRelativeTransform this
    /\ m_isOverrideLight d = m_isOverrideLight this
    /\ m_cachedHash d = m_cachedHash this
    /\ Flags_test (m_dirty d) k_Transform = Flags_test (m_dirty this) k_Transform.
Proof.
  induction l as [| c l IH]; intros this; cbn [fold_left]; [repeat split |].
  cbv zeta in IH |- *.
  destruct (IH (deserialized prim this c)) as (Hg & Ht & Hr & Ho & Hh & Hd).
  destruct (deserialized_frame prim this c) as (Hg' & Ht' & Hr' & Ho' & Hh' & Hd').
  rewrite Hg, Ht, Hr, Ho, Hh, Hd, Hd'. repeat split; try assumption.
  destruct (isSome (authored prim c)); [| reflexivity].
  apply Flags_test_set_other. discriminate.
Qed.

Lemma deserialized_fold_notin (prim : UsdPrim) (c : Constant) (l : list Constant) :
  forall this, ~ In c l ->
    m_ (fold_left (deserialized prim) l this) c = m_ this c
    /\ Flags_test (m_dirty (fold_left (deserialized prim) l this)) (k_ c)
       = Flags_test (m_dirty this) (k_ c).
Proof.
  induction l as [| c' l IH]; intros this Hnin; cbn [fold_left]; [split; reflexivity |].
  assert (Hne : c' <> c) by (intros ->; apply Hnin; left; reflexivity).
  destruct (IH (deserialized prim this c')) as [Hm Hd];
    [intros Hin; apply Hnin; right; exact Hin |].
  rewrite Hm, Hd. unfold deserialized.
  destruct (authored prim c') as [v |]; [| split; reflexivity].
  split.
  - rewrite m_set_other by exact Hne. reflexivity.
  - cbn [set_m_ set_m_dirty m_dirty]. apply Flags_test_set_other. congruence.
Qed.

Lemma deserialized_fold_in (prim : UsdPrim) (c : Constant) (l : list Constant) :
  forall this, In c l ->
    m_ (fold_left (deserialized prim) l this) c =
      match authored prim c with
      | Some v => v
      | None => m_ this c
      end
    /\ Flags_test (m_dirty (fold_left (deserialized prim) l this)) (k_ c)
       = Flags_test (m_dirty this) (k_ c) || isSome (authored prim c).
Proof.
  induction l as [| c' l IH]; intros this Hin; cbn [fold_left]; [contradiction |].
  assert (Hstep : c' = c ->
            m_ (deserialized prim this c') c =
              match authored prim c with
              | Some v => v
              | None => m_ this c
              end
            /\ Flags_test (m_dirty (deserialized prim this c')) (k_ c)
               = Flags_test (m_dirty this) (k_ c) || isSome (authored prim c)).
  { intros ->. unfold deserialized.
    destruct (authored prim c) as [v |]; cbn [isSome].
    - split; [apply m_set_same |].
      cbn [set_m_ set_m_dirty m_dirty]. rewrite Flags_test_set_same, orb_true_r. reflexivity.
    - rewrite orb_false_r. split; reflexivity. }
  assert (Hother : c' <> c ->
            m_ (deserialized prim this c') c = m_ this c
            /\ Flags_test (m_dirty (deserialized prim this c')) (k_ c)
               = Flags_test (m_dirty this) (k_ c)).
  { intros Hne. unfold deserialized.
    destruct (authored prim c') as [v |]; [| split; reflexivity].
    split; [rewrite m_set_other by exact Hne; reflexivity |].
    cbn [set_m_ set_m_dirty m_dirty]. apply Flags_test_set_other. congruence. }
  destruct (in_dec Constant_eq_dec c l) as [Hin' | Hnin].
  - destruct (IH (deserialized prim this c') Hin') as [Hm Hd]. rewrite Hm, Hd.
    destruct (Constant_eq_dec c' c) as [Heq | Hne].
    + destruct (Hstep Heq) as [Hm' Hd']. rewrite Hm', Hd'.
      destruct (authored prim c); cbn [isSome];
        destruct (Flags_test (m_dirty this) (k_ c)); split; reflexivity.
    + destruct (Hother Hne) as [Hm' Hd']. rewrite Hm', Hd'. split; reflexivity.
  - destruct (deserialized_fold_notin prim c l (deserialized prim this c') Hnin) as [Hm Hd].
    rewrite Hm, Hd.
    destruct Hin as [Heq | Hin]; [apply Hstep; exact Heq | contradiction].
Qed.

(** The record after the expansion of the deserializer macro over the
    table, before the angles are converted. *)
Lemma deserialize_value (prim : UsdPrim) (this : LightData) :
  value (deserialize prim this) =
  let d1 := fold_left (deserialized prim) LIST_LIGHT_CONSTANTS this in
  let d2 :=
    if Flags_test (m_dirty d1) (k_ ConeAngleRadians)
    then set_m_ ConeAngleRadians (m_ d1 ConeAngleRadians * kDegreesToRadians)%f32 d1
    else d1 in
  let d3 :=
    if Flags_test (m_dirty d2) (k_ AngleRadians)
    then set_m_ AngleRadians (m_ d2 AngleRadians * kDegreesToRadians)%f32 d2
    else d2 in
  match GetSpecifier prim with
  | SdfSpecifierDef => set_m_dirty m_allDirty d3
  | _ => d3
  end.
Proof.
  unfold deserialize. rewrite value_bind, value_foldM.
  replace (fold_left (fun a v => value (WRITE_CONSTANT_DESERIALIZER prim a v))
             LIST_LIGHT_CONSTANTS this)
    with (fold_left (deserialized prim) LIST_LIGHT_CONSTANTS this).
  2:{ generalize LIST_LIGHT_CONSTANTS as l. intros l. revert this.
      induction l as [| c l IH]; intros this; cbn [fold_left]; [reflexivity |].
      rewrite (proj1 (deserializer_value prim this c)). apply IH. }
  cbv zeta.
  generalize (fold_left (deserialized prim) LIST_LIGHT_CONSTANTS this) as d1. intros d1.
  destruct (GetSpecifier prim); reflexivity.
Qed.

(** The dirty mask after deserialize: all bits for a node defined in
    full, else the mask the expansions of the deserializer macro leave. *)
Lemma deserialize_mask (prim : UsdPrim) (this : LightData) :
  m_dirty (value (deserialize prim this)) =
  match GetSpecifier prim with
  | SdfSpecifierDef => m_allDirty
  | _ => m_dirty (fold_left (deserialized prim) LIST_LIGHT_CONSTANTS this)
  end.
Proof.
  rewrite deserialize_value. cbv zeta.
  generalize (fold_left (deserialized prim) LIST_LIGHT_CONSTANTS this) as d1. intros d1.
  assert (Hd3 : forall (b1 : bool) v1 (b2 : LightData -> bool) v2,
             m_dirty (let d2 := if b1 then set_m_ ConeAngleRadians v1 d1 else d1 in
                      if b2 d2 then set_m_ AngleRadians (v2 d2) d2 else d2) = m_dirty d1).
  { intros b1 v1 b2 v2. cbv zeta. destruct b1; destruct (b2 _); reflexivity. }
  pose proof (Hd3 (Flags_test (m_dirty d1) (k_ ConeAngleRadians))
                (m_ d1 ConeAngleRadians * kDegreesToRadians)%f32
                (fun d2 => Flags_test (m_dirty d2) (k_ AngleRadians))
                (fun d2 => (m_ d2 AngleRadians * kDegreesToRadians)%f32)) as H.
  cbv zeta in H.
  destruct (GetSpecifier prim); [reflexivity | exact H..].
Qed.

(** X10: deserialize marks a constant dirty exactly when the node authors
    it, under either name, or it was dirty before; it never touches the
    Transform bit.  A node defined in full ([def]) is different: every bit
    of the mask is set, whatever it authors. *)
Theorem deserialize_dirty (prim : UsdPrim) (this : LightData) :
  (GetSpecifier prim = SdfSpecifierDef ->
   m_dirty (value (deserialize prim this)) = m_allDirty)
  /\ (GetSpecifier prim <> SdfSpecifierDef ->
      (forall c : Constant,
          Flags_test (m_dirty (value (deserialize prim this))) (k_ c)
          = Flags_test (m_dirty this) (k_ c) || isSome (authored prim c))
      /\ Flags_test (m_dirty (value (deserialize prim this))) k_Transform
         = Flags_test (m_dirty this) k_Transform).
Proof.
  rewrite deserialize_mask.
  pose proof (fun c => proj2 (deserialized_fold_in prim c LIST_LIGHT_CONSTANTS this
                                (In_LIST_LIGHT_CONSTANTS c))) as Hbits.
  destruct (deserialized_fold_frame prim LIST_LIGHT_CONSTANTS this)
    as (_ & _ & _ & _ & _ & Htr).
  cbv zeta in Htr. revert Hbits Htr.
  generalize (fold_left (deserialized prim) LIST_LIGHT_CONSTANTS this) as d1.
  intros d1 Hbits Htr.
  split.
  - intros ->. reflexivity.
  - intros Hnd.
    destruct (GetSpecifier prim); [contradiction | |]; (split; [exact Hbits | exact Htr]).
Qed.

(** One constant after deserialize, in terms of the record the
    expansions of the deserializer macro leave. *)
Lemma deserialize_constant (prim : UsdPrim) (this : LightData) (c : Constant) :
  m_ (value (deserialize prim this)) c =
  let d1 := fold_left (deserialized prim) LIST_LIGHT_CONSTANTS this in
  if Flags_test (m_dirty d1) (k_ c) then toRadians c (m_ d1 c) else m_ d1 c.
Proof.
  rewrite deserialize_value. cbv zeta.
  generalize (fold_left (deserialized prim) LIST_LIGHT_CONSTANTS this) as d1.
  intros d1.
  assert (Hm : forall d,
             m_ match GetSpecifier prim with
                | SdfSpecifierDef => set_m_dirty m_allDirty d
                | _ => d
                end c = m_ d c).
  { intros d. destruct (GetSpecifier prim); reflexivity. }
  rewrite Hm.
  destruct (Flags_test (m_dirty d1) (k_ ConeAngleRadians)) eqn:Ec;
    cbn [set_m_ m_dirty];
    destruct (Flags_test (m_dirty d1) (k_ AngleRadians)) eqn:Ea;
    destruct c; cbn [toRadians];
    rewrite ?Ec, ?Ea;
    try reflexivity;
    match goal with
    | |- context [if ?b then _ else _] => destruct b
    end; reflexivity.
Qed.

(** X11: after deserialize a constant holds what the node authors for it,
    read under the name [inputs:...] first and under the older name
    otherwise, or its previous value when the node authors nothing; the two
    angles are converted from degrees to radians when their bit is dirty,
    the other constants are stored as read. *)
Theorem deserialize_values (prim : UsdPrim) (this : LightData) (c : Constant) :
  m_ (value (deserialize prim this)) c =
  let read := match authored prim c with
              | Some v => v
              | None => m_ this c
              end in
  if Flags_test (m_dirty this) (k_ c) || isSome (authored prim c)
  then toRadians c read
  else read.
Proof.
  rewrite deserialize_constant. cbv zeta.
  destruct (deserialized_fold_in prim c LIST_LIGHT_CONSTANTS this
              (In_LIST_LIGHT_CONSTANTS c)) as [Hv Hb].
  rewrite Hv, Hb. reflexivity.
Qed.

(** What deserialize records: the [ONCE] of getLightAttribute is reached
    for each constant authored under its older name only, in table order. *)
Lemma deserialize_record (prim : UsdPrim) (this : LightData) :
  events (deserialize prim this) = flat_map (legacyReached prim) LIST_LIGHT_CONSTANTS.
Proof.
  unfold deserialize. rewrite events_bind.
  rewrite (events_foldM (WRITE_CONSTANT_DESERIALIZER prim) (legacyReached prim))
    by (intros a v; apply deserializer_value).
  match goal with |- _ ++ events ?m = _ => assert (He : events m = []) end.
  { generalize (value (foldM (WRITE_CONSTANT_DESERIALIZER prim) LIST_LIGHT_CONSTANTS this))
      as d1.
    intros d1. destruct (GetSpecifier prim); reflexivity. }
  rewrite He. apply app_nil_r.
Qed.

Lemma fire_same (site : OnceSite) (fired : OnceFlags) : fire site fired site = true.
Proof. unfold fire. destruct site; reflexivity. Qed.

Lemma performed_legacy (prim : UsdPrim) (l : list Constant) :
  forall fired : OnceFlags,
    performed fired (flat_map (legacyReached prim) l) =
    if fired once_getLightAttribute then ([], fired)
    else
      match find (legacyOnly prim) l with
      | Some c => ([legacyWarning prim c], fire once_getLightAttribute fired)
      | None => ([], fired)
      end.
Proof.
  induction l as [| c l IH]; intros fired; cbn [flat_map find].
  - cbn [performed]. destruct (fired once_getLightAttribute); reflexivity.
  - unfold legacyReached at 1. destruct (legacyOnly prim c); cbn [app]; [| apply IH].
    cbn [performed]. destruct (fired once_getLightAttribute) eqn:E.
    + rewrite IH, E. reflexivity.
    + rewrite IH, fire_same. reflexivity.
Qed.

(** X12: in a process where the legacy-attribute warning has not been
    logged yet, deserialize logs it once, with the path of the first
    constant in table order that the node authors under its older name only,
    and the warning counts as logged from then on; when there is no such
    constant, or the warning was logged earlier in the process, deserialize
    logs nothing and the flags stay as they are. *)
Theorem deserialize_warnings (prim : UsdPrim) (this : LightData) (fired : OnceFlags) :
  performed fired (events (deserialize prim this)) =
  if fired once_getLightAttribute then ([], fired)
  else
    match find (legacyOnly prim) LIST_LIGHT_CONSTANTS with
    | Some c => ([legacyWarning prim c], fire once_getLightAttribute fired)
    | None => ([], fired)
    end.
Proof. rewrite deserialize_record. apply performed_legacy. Qed.

(** ** Clamping and construction *)

Lemma NoDup_LIST_LIGHT_CONSTANTS : NoDup LIST_LIGHT_CONSTANTS.
Proof.
  unfold LIST_LIGHT_CONSTANTS.
  repeat (constructor; [cbn [In]; intros H; repeat destruct H as [H | H];
                        try discriminate H; exact H |]).
  constructor.
Qed.

Lemma sanitize_fold_notin (c : Constant) (l : list Constant) :
  forall this, ~ In c l ->
    m_ (fold_left WRITE_CONSTANT_SANITIZATION l this) c = m_ this c.
Proof.
  induction l as [| c' l IH]; intros this Hnin; cbn [fold_left]; [reflexivity |].
  rewrite IH by (intros Hin; apply Hnin; right; exact Hin).
  unfold WRITE_CONSTANT_SANITIZATION. apply m_set_other.
  intros ->. apply Hnin. left. reflexivity.
Qed.

Lemma sanitize_fold_in (c : Constant) (l : list Constant) :
  NoDup l ->
  forall this, In c l ->
    m_ (fold_left WRITE_CONSTANT_SANITIZATION l this) c
    = clamp c (m_ this c) (minVal c) (maxVal c).
Proof.
  intros Hnd. induction Hnd as [| c' l Hnin Hnd IH]; intros this Hin; [contradiction |].
  cbn [fold_left]. destruct Hin as [-> | Hin].
  - rewrite sanitize_fold_notin by exact Hnin.
    unfold WRITE_CONSTANT_SANITIZATION. apply m_set_same.
  - rewrite IH by exact Hin.
    assert (Hne : c' <> c) by (intros ->; contradiction).
    unfold WRITE_CONSTANT_SANITIZATION. rewrite m_set_other by exact Hne. reflexivity.
Qed.

(** X13: sanitizeData clamps every constant, once, to the range the table
    gives it, and changes nothing else in the record. *)
Theorem sanitizeData_clamps (this : LightData) :
  (forall c : Constant,
      m_ (sanitizeData this) c = clamp c (m_ this c) (minVal c) (maxVal c))
  /\ frame (sanitizeData this) = frame this.
Proof.
  split; [| apply sanitizeData_frame].
  intros c. unfold sanitizeData.
  apply sanitize_fold_in; [apply NoDup_LIST_LIGHT_CONSTANTS | apply In_LIST_LIGHT_CONSTANTS].
Qed.

Lemma LightData_ctor_value (prim : UsdPrim) (pLocalToRoot : option GfMatrix4f)
    (isOverrideLight absoluteTransform : bool) :
  value (LightData_ctor prim pLocalToRoot isOverrideLight absoluteTransform) =
  sanitizeData
    (value (extractTransform pLocalToRoot
       (value (deserialize prim
          (LightData_ctor_start prim isOverrideLight absoluteTransform))))).
Proof. unfold LightData_ctor. rewrite !value_bind, value_ret. reflexivity. Qed.

Lemma LightData_ctor_start_fields (prim : UsdPrim) (isOverrideLight absoluteTransform : bool) :
  let d := LightData_ctor_start prim isOverrideLight absoluteTransform in
  m_ d = defaultVal /\ m_dirty d = 0
  /\ m_isRelativeTransform d = negb absoluteTransform && negb isOverrideLight
  /\ m_isOverrideLight d = isOverrideLight.
Proof.
  cbv zeta. unfold LightData_ctor_start. destruct (getLightType prim); repeat split.
Qed.

Lemma extractTransform_constants (pLocalToRoot : option GfMatrix4f) (this : LightData) :
  m_ (value (extractTransform pLocalToRoot this)) = m_ this
  /\ m_isRelativeTransform (value (extractTransform pLocalToRoot this))
     = m_isRelativeTransform this
  /\ m_isOverrideLight (value (extractTransform pLocalToRoot this)) = m_isOverrideLight this
  /\ m_dirty (value (extractTransform pLocalToRoot this)) =
     match pLocalToRoot with
     | Some _ => Flags_set (m_dirty this) k_Transform
     | None => m_dirty this
     end.
Proof.
  destruct pLocalToRoot as [localToRoot |]; [| repeat split].
  destruct (extractTransform_rest localToRoot this) as (Hm & _ & Hd & Hr & Ho & _).
  repeat split; assumption.
Qed.

Lemma Flags_test_zero (f : DirtyFlags) : Flags_test 0 f = false.
Proof. unfold Flags_test. apply Z.testbit_0_l. Qed.

(** X14: every constant of a record constructed from a node is the value
    the node authors for it (under [inputs:...] first, else under the older
    name; the two angles converted to radians) or, when it authors none, the
    table default, in either case clamped to the table's range. *)
Theorem LightData_ctor_constants (prim : UsdPrim) (pLocalToRoot : option GfMatrix4f)
    (isOverrideLight absoluteTransform : bool) (c : Constant) :
  m_ (value (LightData_ctor prim pLocalToRoot isOverrideLight absoluteTransform)) c =
  clamp c
    match authored prim c with
    | Some v => toRadians c v
    | None => defaultVal c
    end
    (minVal c) (maxVal c).
Proof.
  rewrite LightData_ctor_value.
  unfold sanitizeData at 1.
  rewrite sanitize_fold_in
    by (try apply NoDup_LIST_LIGHT_CONSTANTS; apply In_LIST_LIGHT_CONSTANTS).
  rewrite (proj1 (extractTransform_constants pLocalToRoot _)).
  rewrite deserialize_constant. cbv zeta.
  destruct (deserialized_fold_in prim c LIST_LIGHT_CONSTANTS
              (LightData_ctor_start prim isOverrideLight absoluteTransform)
              (In_LIST_LIGHT_CONSTANTS c)) as [Hv Hb].
  rewrite Hv, Hb.
  destruct (LightData_ctor_start_fields prim isOverrideLight absoluteTransform)
    as (Hm & Hd & _).
  cbv zeta in Hm, Hd. rewrite Hm, Hd, Flags_test_zero. cbn [orb].
  destruct (authored prim c); reflexivity.
Qed.

Lemma deserialize_flags (prim : UsdPrim) (this : LightData) :
  m_isRelativeTransform (value (deserialize prim this)) = m_isRelativeTransform this
  /\ m_isOverrideLight (value (deserialize prim this)) = m_isOverrideLight this.
Proof.
  rewrite deserialize_value. cbv zeta.
  destruct (deserialized_fold_frame prim LIST_LIGHT_CONSTANTS this)
    as (_ & _ & Hr & Ho & _).
  cbv zeta in Hr, Ho. revert Hr Ho.
  generalize (fold_left (deserialized prim) LIST_LIGHT_CONSTANTS this) as d1.
  intros d1 Hr Ho. rewrite <- Hr, <- Ho.
  destruct (GetSpecifier prim);
    destruct (Flags_test (m_dirty d1) (k_ ConeAngleRadians));
    match goal with |- context [Flags_test ?m (k_ AngleRadians)] =>
      destruct (Flags_test m (k_ AngleRadians)) end;
    split; reflexivity.
Qed.

(** X15: the dirty mask and flags of a constructed record.  The record is
    relative exactly when it is neither absolute nor an override.  For a
    node defined in full every bit is set; otherwise a constant is dirty
    exactly when the node authors it and the Transform bit is set exactly
    when a transform was passed. *)
Theorem LightData_ctor_dirty (prim : UsdPrim) (pLocalToRoot : option GfMatrix4f)
    (isOverrideLight absoluteTransform : bool) :
  let d := value (LightData_ctor prim pLocalToRoot isOverrideLight absoluteTransform) in
  m_isRelativeTransform d = negb absoluteTransform && negb isOverrideLight
  /\ m_isOverrideLight d = isOverrideLight
  /\ (GetSpecifier prim = SdfSpecifierDef -> m_dirty d = m_allDirty)
  /\ (GetSpecifier prim <> SdfSpecifierDef ->
      (forall c : Constant, Flags_test (m_dirty d) (k_ c) = isSome (authored prim c))
      /\ Flags_test (m_dirty d) k_Transform = isSome pLocalToRoot).
Proof.
  cbv zeta. rewrite LightData_ctor_value.
  set (start := LightData_ctor_start prim isOverrideLight absoluteTransform).
  destruct (LightData_ctor_start_fields prim isOverrideLight absoluteTransform)
    as (_ & Hd0 & Hr0 & Ho0).
  cbv zeta in Hd0, Hr0, Ho0. fold start in Hd0, Hr0, Ho0.
  destruct (deserialize_flags prim start) as (Hr1 & Ho1).
  assert (Hmask : (GetSpecifier prim = SdfSpecifierDef ->
                   m_dirty (value (deserialize prim start)) = m_allDirty)
                  /\ (GetSpecifier prim <> SdfSpecifierDef ->
                      (forall c : Constant,
                          Flags_test (m_dirty (value (deserialize prim start))) (k_ c)
                          = Flags_test (m_dirty start) (k_ c) || isSome (authored prim c))
                      /\ Flags_test (m_dirty (value (deserialize prim start))) k_Transform
                         = Flags_test (m_dirty start) k_Transform)).
  { rewrite deserialize_mask.
    pose proof (fun c => proj2 (deserialized_fold_in prim c LIST_LIGHT_CONSTANTS start
                                  (In_LIST_LIGHT_CONSTANTS c))) as Hbits.
    destruct (deserialized_fold_frame prim LIST_LIGHT_CONSTANTS start)
      as (_ & _ & _ & _ & _ & Htr).
    cbv zeta in Htr. revert Hbits Htr.
    generalize (fold_left (deserialized prim) LIST_LIGHT_CONSTANTS start) as d1.
    intros d1 Hbits Htr.
    split; [intros ->; reflexivity |].
    intros Hnd.
    destruct (GetSpecifier prim); [contradiction | |]; (split; [exact Hbits | exact Htr]). }
  destruct Hmask as (Hdef & Hover).
  clearbody start.
  destruct (extractTransform_constants pLocalToRoot (value (deserialize prim start)))
    as (_ & Hr2 & Ho2 & Hd2).
  revert Hr1 Ho1 Hdef Hover Hr2 Ho2 Hd2.
  generalize (value (deserialize prim start)) as d1. intros d1.
  generalize (value (extractTransform pLocalToRoot d1)) as d2.
  intros d2 Hr1 Ho1 Hdef Hover Hr2 Ho2 Hd2.
  pose proof (sanitizeData_frame d2) as Hf. unfold frame in Hf.
  assert (Hr3 : m_isRelativeTransform (sanitizeData d2) = m_isRelativeTransform d2)
    by congruence.
  assert (Ho3 : m_isOverrideLight (sanitizeData d2) = m_isOverrideLight d2) by congruence.
  assert (Hd3 : m_dirty (sanitizeData d2) = m_dirty d2) by congruence.
  rewrite Hr3, Ho3, Hd3, Hr2, Ho2, Hr1, Ho1, Hd2.
  split; [exact Hr0 |]. split; [exact Ho0 |]. split.
  - intros Hs. rewrite (Hdef Hs). destruct pLocalToRoot; reflexivity.
  - intros Hs. destruct (Hover Hs) as [Hc Ht]. rewrite Hd0 in Hc, Ht.
    split.
    + intros c. specialize (Hc c). rewrite Flags_test_zero in Hc. cbn [orb] in Hc.
      destruct pLocalToRoot; [| exact Hc].
      rewrite Flags_test_set_other by discriminate. exact Hc.
    + rewrite Flags_test_zero in Ht.
      destruct pLocalToRoot; cbn [isSome]; [apply Flags_test_set_same | exact Ht].
Qed.

(** ** The dirty mask stays inside the all-set mask *)

Lemma Flags_set_within (m : Flags) (f : DirtyFlags) :
  Z.land m m_allDirty = m -> Z.land (Flags_set m f) m_allDirty = Flags_set m f.
Proof.
  intros H. unfold Flags_set. rewrite Z.land_lor_distr_l, H. f_equal.
  destruct f as [c |]; [destruct c |]; reflexivity.
Qed.

Lemma deserialized_fold_within (prim : UsdPrim) (l : list Constant) :
  forall this, dirtyWithinAll this -> dirtyWithinAll (fold_left (deserialized prim) l this).
Proof.
  induction l as [| c l IH]; intros this H; cbn [fold_left]; [exact H |].
  apply IH. unfold dirtyWithinAll.
  destruct (deserialized_frame prim this c) as (_ & _ & _ & _ & _ & Hd). rewrite Hd.
  destruct (isSome (authored prim c)); [apply Flags_set_within |]; exact H.
Qed.

Lemma deserialize_within (prim : UsdPrim) (this : LightData) :
  dirtyWithinAll this -> dirtyWithinAll (value (deserialize prim this)).
Proof.
  intros H. rewrite deserialize_value. cbv zeta.
  pose proof (deserialized_fold_within prim LIST_LIGHT_CONSTANTS this H) as H1.
  revert H1. generalize (fold_left (deserialized prim) LIST_LIGHT_CONSTANTS this) as d1.
  intros d1 H1. unfold dirtyWithinAll in *.
  destruct (GetSpecifier prim);
    destruct (Flags_test (m_dirty d1) (k_ ConeAngleRadians));
    match goal with |- context [Flags_test ?m (k_ AngleRadians)] =>
      destruct (Flags_test m (k_ AngleRadians)) end;
    first [exact H1 | reflexivity].
Qed.

Lemma step_within (opts : Options) (ci : D3DLIGHT9 -> float -> float) (d d' : LightData) :
  step opts ci d d' -> dirtyWithinAll d -> dirtyWithinAll d'.
Proof.
  unfold dirtyWithinAll.
  intros Hstep H. destruct Hstep as [this input | this light | this o out _ | this prim
                                    | this pm | this].
  - destruct (merge_rest this input) as (_ & Hd & _). rewrite Hd. exact H.
  - rewrite merge_D3DLIGHT9_dirty. exact H.
  - exact H.
  - apply deserialize_within. exact H.
  - destruct (extractTransform_constants pm this) as (_ & _ & _ & Hd). rewrite Hd.
    destruct pm; [apply Flags_set_within |]; exact H.
  - pose proof (sanitizeData_frame this) as Hf. unfold frame in Hf.
    assert (Hd : m_dirty (sanitizeData this) = m_dirty this) by congruence.
    rewrite Hd. exact H.
Qed.

(** X16: the dirty mask never names a bit outside the all-set mask: that
    holds of every record the constructor builds from a node, and every
    operation on a record (both merges, lowering, deserialization,
    transform extraction, clamping) keeps it. *)
Theorem dirty_mask_within_allDirty (opts : Options) (ci : D3DLIGHT9 -> float -> float) :
  (forall (prim : UsdPrim) (pLocalToRoot : option GfMatrix4f)
          (isOverrideLight absoluteTransform : bool),
      dirtyWithinAll
        (value (LightData_ctor prim pLocalToRoot isOverrideLight absoluteTransform)))
  /\ (forall d d' : LightData,
        steps opts ci d d' -> dirtyWithinAll d -> dirtyWithinAll d').
Proof.
  assert (Hsteps : forall d d' : LightData,
             steps opts ci d d' -> dirtyWithinAll d -> dirtyWithinAll d').
  { intros d d' Hs. induction Hs as [d | d d1 d2 Hstep Hrest IH]; [auto |].
    intros H. apply IH. exact (step_within opts ci d d1 Hstep H). }
  split; [| exact Hsteps].
  intros prim pm o a. rewrite LightData_ctor_value.
  apply (Hsteps (LightData_ctor_start prim o a)).
  - eapply steps_cons; [apply step_deserialize |].
    eapply steps_cons; [apply step_extractTransform |].
    eapply steps_cons; [apply step_sanitizeData |]. apply steps_refl.
  - destruct (LightData_ctor_start_fields prim o a) as (_ & Hd & _).
    cbv zeta in Hd. unfold dirtyWithinAll. rewrite Hd. reflexivity.
Qed.

(** ** Which nodes are lights *)

(** X17: a node is unsupported exactly when it has none of the five
    light schemas and its path is not of the reserved form; it gets the
    Unknown type exactly when it has none of the schemas and its path is of
    that form, so a node with a schema never comes out Unknown. *)
Theorem getLightType_resolution (prim : UsdPrim) :
  (isSupportedUsdLight prim = false <->
   (forall s : UsdLuxSchema, IsA prim s = false)
   /\ regex_match_unknownLightPattern (GetPath prim) = false)
  /\ (getLightType prim = Some Unknown <->
      (forall s : UsdLuxSchema, IsA prim s = false)
      /\ regex_match_unknownLightPattern (GetPath prim) = true).
Proof.
  unfold isSupportedUsdLight, getLightType.
  destruct (IsA prim UsdLuxSphereLight) eqn:E1;
    [split; split; [discriminate | intros [H _]; rewrite H in E1; discriminate
                   | discriminate | intros [H _]; rewrite H in E1; discriminate] |].
  destruct (IsA prim UsdLuxRectLight) eqn:E2;
    [split; split; [discriminate | intros [H _]; rewrite H in E2; discriminate
                   | discriminate | intros [H _]; rewrite H in E2; discriminate] |].
  destruct (IsA prim UsdLuxDiskLight) eqn:E3;
    [split; split; [discriminate | intros [H _]; rewrite H in E3; discriminate
                   | discriminate | intros [H _]; rewrite H in E3; discriminate] |].
  destruct (IsA prim UsdLuxCylinderLight) eqn:E4;
    [split; split; [discriminate | intros [H _]; rewrite H in E4; discriminate
                   | discriminate | intros [H _]; rewrite H in E4; discriminate] |].
  destruct (IsA prim UsdLuxDistantLight) eqn:E5;
    [split; split; [discriminate | intros [H _]; rewrite H in E5; discriminate
                   | discriminate | intros [H _]; rewrite H in E5; discriminate] |].
  assert (Hall : forall s : UsdLuxSchema, IsA prim s = false)
    by (intros s; destruct s; assumption).
  destruct (regex_match_unknownLightPattern (GetPath prim)); split; split;
    try discriminate; try (intros [_ H]; discriminate H); intros _; split;
    first [exact Hall | reflexivity].
Qed.

Lemma prefix_append (p s : string) :
  String.prefix p s = true <-> exists rest : string, s = (p ++ rest)%string.
Proof.
  revert s. induction p as [| a p IH]; intros s; cbn [String.prefix append].
  - split; [intros _; exists s; reflexivity | intros _; destruct s; reflexivity].
  - destruct s as [| b s]; cbn [String.prefix];
      [split; [discriminate | intros [rest H]; discriminate] |].
    destruct (Ascii.ascii_dec a b) as [-> | Hne].
    + rewrite IH. split; intros [rest H]; exists rest; congruence.
    + split; [discriminate | intros [rest H]; congruence].
Qed.

Lemma substring_whole (s : string) : substring 0 (String.length s) s = s.
Proof. induction s as [| a s IH]; cbn; [reflexivity | rewrite IH; reflexivity]. Qed.

Lemma substring_after (p rest : string) :
  substring (String.length p) (String.length (p ++ rest) - String.length p) (p ++ rest)
  = rest.
Proof.
  induction p as [| a p IH]; cbn [append String.length substring].
  - rewrite Nat.sub_0_r. apply substring_whole.
  - cbn [Nat.sub]. exact IH.
Qed.

(** X18: the paths matched as lights of unknown type are exactly
    "/RootNode/lights/light_" followed by sixteen characters, each a
    decimal digit or a letter a-f or A-F; nothing may follow them. *)
Theorem unknownLightPattern_matches (path : string) :
  regex_match_unknownLightPattern path = true <->
  exists digits : string,
    path = ("/RootNode/lights/light_" ++ digits)%string
    /\ String.length digits = 16%nat
    /\ allHex digits = true.
Proof.
  unfold regex_match_unknownLightPattern. fold unknownLightPrefix.
  rewrite !andb_true_iff, prefix_append, Nat.eqb_eq.
  split.
  - intros [[[rest ->] Hlen] Hhex]. rewrite substring_after in Hlen, Hhex.
    exists rest. repeat split; assumption.
  - intros (digits & -> & Hlen & Hhex). rewrite substring_after.
    repeat split; [exists digits; reflexivity | assumption | assumption].
Qed.

(** X19: tryCreate on a node returns no record exactly when the node is
    not a supported light or the transform passed has a scale column that
    compares equal to zero; in every other case it returns the record the
    constructor builds. *)
Theorem tryCreate_UsdPrim_result (prim : UsdPrim) (pLocalToRoot : option GfMatrix4f)
    (isOverrideLight absoluteTransform : bool) :
  (value (tryCreate_UsdPrim prim pLocalToRoot isOverrideLight absoluteTransform) = None <->
   isSupportedUsdLight prim = false
   \/ exists localToRoot : GfMatrix4f,
        pLocalToRoot = Some localToRoot /\ hasZeroScaleColumn localToRoot = true)
  /\ (forall d : LightData,
        value (tryCreate_UsdPrim prim pLocalToRoot isOverrideLight absoluteTransform) = Some d ->
        d = value (LightData_ctor prim pLocalToRoot isOverrideLight absoluteTransform)).
Proof.
  unfold tryCreate_UsdPrim.
  generalize (LightData_ctor prim pLocalToRoot isOverrideLight absoluteTransform) as built.
  intros built.
  destruct (isSupportedUsdLight prim); cbn [negb].
  - destruct pLocalToRoot as [localToRoot |].
    + rewrite value_bind.
      destruct (hasZeroScaleColumn localToRoot) eqn:Ez.
      * split; [| discriminate].
        split; [intros _; right; exists localToRoot; split; [reflexivity | exact Ez]
               | reflexivity].
      * rewrite value_bind, value_ret. split; [| intros d H; congruence].
        split; [discriminate |].
        intros [H | (m & Hm & Hz)]; [discriminate | congruence].
    + rewrite value_bind, value_ret. split; [| intros d H; congruence].
      split; [discriminate |].
      intros [H | (m & Hm & Hz)]; discriminate.
  - split; [| discriminate]. split; [intros _; left; reflexivity | reflexivity].
Qed.

(** ** Legacy directions *)

Lemma safeNormalize_zero (s1 s2 s3 : bool) (fallback : Vector3) :
  safeNormalize (mkVector3 (S754_zero s1) (S754_zero s2) (S754_zero s3)) fallback = fallback.
Proof. destruct s1, s2, s3; reflexivity. Qed.

(** X20: a legacy light whose direction is the zero vector (zeros of
    either sign) gets the z axis (0,0,1) as its direction, for a Directional
    light and for a Spot light alike, and the Spot light's check on the
    normalized direction passes. *)
Theorem zero_direction_falls_back (opts : Options) (ci : D3DLIGHT9 -> float -> float)
    (light : D3DLIGHT9) (s1 s2 s3 : bool) :
  Direction light = mkVector3 (S754_zero s1) (S754_zero s2) (S754_zero s3) ->
  m_zAxis (createFromDirectional opts light) = mkVector3 f0 f0 f1
  /\ (Type_ light = D3DLIGHT_SPOT ->
      m_zAxis (value (createFromPointSpot opts ci light)) = mkVector3 f0 f0 f1
      /\ events (createFromPointSpot opts ci light) = []).
Proof.
  intros Hdir. split.
  - unfold createFromDirectional. rewrite Hdir. cbn [x y z set_m_zAxis set_axes m_zAxis
      set_m_ set_m_cachedHash set_m_lightType].
    apply safeNormalize_zero.
  - intros Hty. unfold createFromPointSpot.
    rewrite value_bind, events_bind, Hty, Z.eqb_refl, Hdir. cbn [x y z].
    rewrite safeNormalize_zero.
    rewrite value_bind, events_bind.
    split; [reflexivity |].
    cbn [set_m_zAxis set_axes m_zAxis].
    replace (isApproxNormalized (mkVector3 f0 f0 f1) tolerance) with true
      by (vm_compute; reflexivity).
    reflexivity.
Qed.

(** ** The scale of a sphere and of a cylinder *)

(** X21: the radius of a lowered sphere is the record's radius times one
    of its three scales, and when the scales are finite numbers none of them
    exceeds the one chosen; the radius of a lowered cylinder is scaled
    likewise by the larger of the y and z scales and its length by the x
    scale. *)
Theorem lowering_uses_largest_scale (this : LightData) :
  valid32 (m_xScale this) = true -> valid32 (m_yScale this) = true ->
  valid32 (m_zScale this) = true ->
  is_finite (m_xScale this) = true -> is_finite (m_yScale this) = true ->
  is_finite (m_zScale this) = true ->
  (m_lightType this = Sphere ->
   exists (s : float) (radiance : Vector3) (shaping : RtLightShaping),
     shape (value (toRtLight this None)) =
       RtSphereLight (m_position this) radiance (m_ this Radius * s)%f32 shaping
         (m_cachedHash this)
     /\ (s = m_xScale this \/ s = m_yScale this \/ s = m_zScale this)
     /\ (s <? m_xScale this)%f32 = false /\ (s <? m_yScale this)%f32 = false
     /\ (s <? m_zScale this)%f32 = false)
  /\ (m_lightType this = Cylinder ->
      exists (s : float) (radiance : Vector3),
        shape (value (toRtLight this None)) =
          RtCylinderLight (m_position this) (m_ this Radius * s)%f32 (m_xAxis this)
            (m_ this Length * m_xScale this)%f32 radiance
        /\ (s = m_yScale this \/ s = m_zScale this)
        /\ (s <? m_yScale this)%f32 = false /\ (s <? m_zScale this)%f32 = false).
Proof.
  intros Hvx Hvy Hvz Hfx Hfy Hfz.
  assert (Hmax : forall v w, valid32 v = true -> valid32 w = true ->
                   is_finite v = true -> is_finite w = true ->
                   valid32 (std_max v w) = true /\ is_finite (std_max v w) = true
                   /\ (std_max v w = v \/ std_max v w = w)
                   /\ rank v <= rank (std_max v w) /\ rank w <= rank (std_max v w)).
  { intros v w Hv Hw Hfv Hfw.
    destruct (std_max_rank v w Hv Hw Hfv Hfw) as [H1 H2].
    destruct (std_max_cases v w) as [E | E]; rewrite E in *; repeat split; auto. }
  split; intros Hty; unfold toRtLight; rewrite Hty, value_ret.
  - destruct (Hmax _ _ Hvx Hvy Hfx Hfy) as (Hv1 & Hf1 & Hc1 & Hx1 & Hy1).
    destruct (Hmax _ _ Hv1 Hvz Hf1 Hfz) as (Hv2 & Hf2 & Hc2 & H12 & Hz2).
    unfold toSphere. cbn [shape].
    set (s := std_max (std_max (m_xScale this) (m_yScale this)) (m_zScale this)) in *.
    exists s. do 2 eexists. split; [reflexivity |].
    split; [destruct Hc2 as [-> | ->]; [destruct Hc1 as [-> | ->] |]; auto |].
    rewrite !fltb_rank by assumption.
    repeat split; apply Z.ltb_ge; lia.
  - destruct (Hmax _ _ Hvy Hvz Hfy Hfz) as (Hv1 & Hf1 & Hc1 & Hy1 & Hz1).
    cbn [shape].
    set (s := std_max (m_yScale this) (m_zScale this)) in *.
    exists s. eexists. split; [reflexivity |].
    split; [destruct Hc1 as [-> | ->]; auto |].
    rewrite !fltb_rank by assumption.
    split; apply Z.ltb_ge; lia.
Qed.

End Properties.

#[local] Existing Instance Sample.externals.

Example fullyDefinedUnknown_state :
  value (tryCreate_UsdPrim Sample.unknownDefPrim None false false)
    = Some Sample.fullyDefinedUnknown
  /\ m_dirty Sample.fullyDefinedUnknown = m_allDirty
  /\ m_lightType Sample.fullyDefinedUnknown = Unknown.
Proof.
  split; [| split; vm_compute; reflexivity].
  unfold tryCreate_UsdPrim.
  replace (isSupportedUsdLight Sample.unknownDefPrim) with true by (vm_compute; reflexivity).
  cbn [negb]. rewrite value_bind, value_ret. reflexivity.
Qed.

(** A path outside the reserved pattern, without a schema, is not a
    supported light. *)
Example unsupported_path :
  isSupportedUsdLight
    (mkUsdPrim (fun _ => false) "/RootNode/lights/light_0123" SdfSpecifierDef
       Sample.noAttribute Sample.noAttribute
       (Sample.attributePath "/RootNode/lights/light_0123")) = false.
Proof. vm_compute. reflexivity. Qed.

Example radiusAndTransform_state :
  Flags_test (m_dirty Sample.radiusAndTransform) (k_ Radius) = true
  /\ Flags_test (m_dirty Sample.radiusAndTransform) (k_ Intensity) = false
  /\ Flags_test (m_dirty Sample.radiusAndTransform) k_Transform = true
  /\ m_lightType Sample.radiusAndTransform = Sphere.
Proof. repeat split; vm_compute; reflexivity. Qed.

(** The direction a Directional light is hashed on is the raw one, (0,0,2),
    while the axis stored in the record is the normalized (0,0,1). *)
Example directional_hash_uses_raw_direction :
  m_cachedHash (createFromDirectional Sample.options Sample.directionalLight) =
    XXH64 (bytes_of_float legacyStableHalfAngle)
      (XXH64 (bytes_of_Vector3 (mkVector3 f0 f0 f2)) (RtLightType_value RtRect))
  /\ m_zAxis (createFromDirectional Sample.options Sample.directionalLight) = mkVector3 f0 f0 f1.
Proof. split; vm_compute; reflexivity. Qed.

(** A node with two constants under their older names reaches the [ONCE]
    of getLightAttribute twice; in a process that has not logged the warning
    it is logged once, for the first of them in table order, and a second
    deserialize in the same process logs nothing. *)
Example legacy_warning_logged_once :
  List.length (events (deserialize Sample.legacySpherePrim LightData_init)) = 2%nat
  /\ fst (performed noneFired (events (deserialize Sample.legacySpherePrim LightData_init)))
     = [LoggerWarn "Legacy light attribute detected: " "/RootNode/lights/old.intensity"]
  /\ fst (performed
            (snd (performed noneFired
                    (events (deserialize Sample.legacySpherePrim LightData_init))))
            (events (deserialize Sample.legacySpherePrim LightData_init)))
     = [].
Proof. split; [| split]; vm_compute; reflexivity. Qed.

(** The conversion of a Spot light whose direction cannot be normalized in
    binary32 fails the check on the normalized direction. *)
Example spot_direction_overflow_asserts :
  events (tryCreate Sample.options Sample.intensity hugeDirectionSpot)
  = [AssertFailed "isApproxNormalized(output.m_zAxis, 0.01f)"].
Proof. vm_compute. reflexivity. Qed.

(** ** The theorems at sample inputs *)

Lemma merge_fills_gaps_witness :
  m_ (merge Sample.radiusAndTransform Sample.fromPoint) Radius
    = m_ Sample.radiusAndTransform Radius
  /\ (m_ (merge Sample.radiusAndTransform Sample.fromPoint) Intensity
        = m_ Sample.fromPoint Intensity
      /\ Flags_test (m_dirty (merge Sample.radiusAndTransform Sample.fromPoint)) (k_ Intensity)
        = false)
  /\ geometry (merge Sample.radiusAndTransform Sample.fromPoint)
       = geometry Sample.radiusAndTransform
  /\ (geometry (merge Sample.radiusOnly Sample.fromPoint) = geometry Sample.fromPoint
      /\ Flags_test (m_dirty (merge Sample.radiusOnly Sample.fromPoint)) k_Transform = false).
Proof.
  destruct (merge_fills_gaps Sample.radiusAndTransform Sample.fromPoint)
    as (Hset & Hunset & Hkept & _).
  destruct (merge_fills_gaps Sample.radiusOnly Sample.fromPoint) as (_ & _ & _ & Htaken).
  split; [apply Hset; vm_compute; reflexivity |].
  split; [apply Hunset; vm_compute; reflexivity |].
  split; [apply Hkept; vm_compute; reflexivity |].
  apply Htaken; vm_compute; reflexivity.
Defined.



Lemma merge_fully_defined_noop_witness :
  merge Sample.fullyDefinedUnknown Sample.fromPoint = Sample.fullyDefinedUnknown
  /\ geometry (value (merge_D3DLIGHT9 Sample.options Sample.intensity
                        Sample.fullyDefinedUnknown pointLight_1_2_3))
     = geometry Sample.fullyDefinedUnknown.
Proof.
  assert (Hd : m_dirty Sample.fullyDefinedUnknown = m_allDirty)
    by (vm_compute; reflexivity).
  destruct (merge_fully_defined_noop Sample.options Sample.intensity
              Sample.fullyDefinedUnknown Hd) as (Hrecord & Hlegacy).
  split; [apply Hrecord |].
  apply (Hlegacy pointLight_1_2_3).
Defined.

(** C6 as stated fails on the light type: the record built from a fully
    defined node at the reserved path has every dirty bit set and an Unknown
    type, and merging a Point light into it turns the type into Sphere. *)
Lemma merge_fully_defined_changes_lightType :
  value (tryCreate_UsdPrim Sample.unknownDefPrim None false false)
    = Some Sample.fullyDefinedUnknown
  /\ m_dirty Sample.fullyDefinedUnknown = m_allDirty
  /\ m_lightType Sample.fullyDefinedUnknown = Unknown
  /\ m_lightType (value (merge_D3DLIGHT9 Sample.options Sample.intensity
                           Sample.fullyDefinedUnknown pointLight_1_2_3)) = Sphere
  /\ m_lightType (value (merge_D3DLIGHT9 Sample.options Sample.intensity
                           Sample.fullyDefinedUnknown pointLight_1_2_3))
     <> m_lightType Sample.fullyDefinedUnknown.
Proof.
  split; [apply fullyDefinedUnknown_state |].
  split; [vm_compute; reflexivity |]. split; [vm_compute; reflexivity |].
  split; [vm_compute; reflexivity |]. vm_compute. discriminate.
Qed.

Lemma lightType_only_resolves_witness :
  (m_lightType (merge (value (merge_D3DLIGHT9 Sample.options Sample.intensity
                                Sample.fullyDefinedUnknown pointLight_1_2_3))
                  (createFromDirectional Sample.options Sample.directionalLight))
     = m_lightType Sample.fullyDefinedUnknown
   \/ (m_lightType Sample.fullyDefinedUnknown = Unknown
       /\ m_lightType (merge (value (merge_D3DLIGHT9 Sample.options Sample.intensity
                                       Sample.fullyDefinedUnknown pointLight_1_2_3))
                         (createFromDirectional Sample.options Sample.directionalLight))
          <> Unknown)).
Proof.
  apply (lightType_only_resolves Sample.options Sample.intensity).
  eapply steps_cons; [apply step_merge_D3DLIGHT9 |].
  eapply steps_cons; [apply step_merge |].
  apply steps_refl.
Defined.

Lemma tryCreate_checks_type_witness :
  (value (tryCreate Sample.options Sample.intensity Sample.invalidLight) = None
   /\ In (LoggerErr "Attempted to convert a fixed function light with invalid light type: " 7)
        (events (tryCreate Sample.options Sample.intensity Sample.invalidLight)))
  /\ exists d : LightData,
       value (tryCreate Sample.options Sample.intensity pointLight_1_2_3) = Some d.
Proof.
  split.
  - apply (tryCreate_checks_type Sample.options Sample.intensity Sample.invalidLight).
    right. vm_compute. reflexivity.
  - apply (tryCreate_checks_type Sample.options Sample.intensity pointLight_1_2_3).
    vm_compute. split; discriminate.
Defined.

Lemma merge_invalid_legacy_type_witness :
  value (merge_D3DLIGHT9 Sample.options Sample.intensity Sample.fullyDefinedUnknown
           Sample.invalidLight)
    = set_m_lightType Sphere Sample.fullyDefinedUnknown
  /\ In (AssertFailed "false")
       (events (merge_D3DLIGHT9 Sample.options Sample.intensity Sample.fullyDefinedUnknown
                  Sample.invalidLight)).
Proof.
  assert (Hout : Type_ Sample.invalidLight < D3DLIGHT_POINT
                 \/ D3DLIGHT_DIRECTIONAL < Type_ Sample.invalidLight)
    by (right; vm_compute; reflexivity).
  destruct (merge_invalid_legacy_type Sample.options Sample.intensity
              Sample.fullyDefinedUnknown Sample.invalidLight Hout) as (_ & Hunknown & _).
  apply Hunknown. vm_compute. reflexivity.
Defined.

(** C10 as stated fails when the peak is infinite: the peak is above
    zero, yet the colour is (NaN, 0, 0); no component of it is one, and the
    largest one taken with [std::max] is NaN. *)
Lemma infinite_peak_not_normalized :
  let peak := std_max (r (Diffuse Sample.infinitePeakLight))
                (std_max (g (Diffuse Sample.infinitePeakLight)) (b (Diffuse Sample.infinitePeakLight))) in
  let color : Vector3 :=
    m_ (value (createFromPointSpot Sample.options Sample.intensity Sample.infinitePeakLight)) Color in
  (f0 <? peak)%f32 = true
  /\ color = mkVector3 S754_nan f0 f0
  /\ std_max (x color) (std_max (y color) (z color)) <> f1
  /\ ~ (x color = f1 \/ y color = f1 \/ z color = f1).
Proof.
  cbv zeta. rewrite createFromPointSpot_Color.
  split; [vm_compute; reflexivity |]. split; [vm_compute; reflexivity |].
  split; [vm_compute; discriminate |].
  vm_compute. intros [H | [H | H]]; discriminate.
Qed.

Lemma color_divided_by_peak_witness :
  (let color : Vector3 :=
     m_ (value (createFromPointSpot Sample.options Sample.intensity pointLight_1_2_3)) Color in
   (x color <=? f1)%f32 = true /\ (y color <=? f1)%f32 = true
   /\ (z color <=? f1)%f32 = true
   /\ (x color = f1 \/ y color = f1 \/ z color = f1))
  /\ exists d : LightData,
       value (tryCreate Sample.options Sample.intensity Sample.blackPointLight) = Some d
       /\ m_ d Color = mkVector3 S754_nan S754_nan S754_nan.
Proof.
  destruct (color_divided_by_peak Sample.options Sample.intensity pointLight_1_2_3)
    as (_ & Hnormal & _).
  destruct (color_divided_by_peak Sample.options Sample.intensity Sample.blackPointLight)
    as (_ & _ & Hblack).
  split.
  - apply Hnormal; vm_compute; reflexivity.
  - apply (Hblack false false false); try reflexivity.
    vm_compute. split; discriminate.
Defined.

(** ** Further properties at sample inputs *)

Lemma merge_D3DLIGHT9_fills_gaps_witness :
  exists converted : LightData,
    value (tryCreate Sample.options Sample.intensity pointLight_1_2_3) = Some converted
    /\ m_ (value (merge_D3DLIGHT9 Sample.options Sample.intensity
                    Sample.radiusAndTransform pointLight_1_2_3)) Radius
       = m_ Sample.radiusAndTransform Radius
    /\ m_ (value (merge_D3DLIGHT9 Sample.options Sample.intensity
                    Sample.radiusAndTransform pointLight_1_2_3)) Intensity
       = m_ converted Intensity.
Proof.
  assert (Htype : D3DLIGHT_POINT <= Type_ pointLight_1_2_3 <= D3DLIGHT_DIRECTIONAL)
    by (vm_compute; split; discriminate).
  assert (Hdirty : m_dirty Sample.radiusAndTransform <> m_allDirty)
    by (vm_compute; discriminate).
  destruct (merge_D3DLIGHT9_fills_gaps Sample.options Sample.intensity
              Sample.radiusAndTransform pointLight_1_2_3 Htype Hdirty)
    as (converted & Hconv & Hconst & _).
  exists converted. split; [exact Hconv |].
  split; [exact (Hconst Radius) | exact (Hconst Intensity)].
Defined.

Lemma legacy_light_lowered_witness :
  exists d : LightData,
    value (tryCreate Sample.options Sample.intensity Sample.directionalLight) = Some d
    /\ events (tryCreate Sample.options Sample.intensity Sample.directionalLight) = []
    /\ events (toRtLight d None) = []
    /\ exists radiance : Vector3,
         shape (value (toRtLight d None)) =
         RtDistantLight (mkVector3 f0 f0 f1)
           (lightConversionDistantLightFixedAngle Sample.options / f2)%f32 radiance
           (stableHash_Directional Sample.directionalLight).
Proof.
  assert (Htype : D3DLIGHT_POINT <= Type_ Sample.directionalLight <= D3DLIGHT_DIRECTIONAL)
    by (vm_compute; split; discriminate).
  destruct (legacy_light_lowered Sample.options Sample.intensity Sample.directionalLight Htype)
    as (d & Hd & Hconv & Hev & _ & Hshape).
  exists d. split; [exact Hd |]. split; [exact Hconv |]. split; [exact Hev |]. exact Hshape.
Defined.

Lemma extractTransform_zero_row_fallback_witness :
  m_xAxis (value (extractTransform (Some zeroRowTransform) Sample.radiusOnly))
    = mkVector3 f1 f0 f0
  /\ m_xScale (value (extractTransform (Some zeroRowTransform) Sample.radiusOnly)) = f0.
Proof.
  destruct (extractTransform_zero_row_fallback zeroRowTransform Sample.radiusOnly
              false false false) as (Hrow0 & _).
  apply Hrow0. reflexivity.
Defined.

Lemma deserialize_dirty_witness :
  m_dirty (value (deserialize Sample.unknownDefPrim Sample.radiusOnly)) = m_allDirty
  /\ Flags_test (m_dirty (value (deserialize Sample.sphereOverPrim LightData_init))) (k_ Radius)
     = Flags_test (m_dirty LightData_init) (k_ Radius)
       || isSome (authored Sample.sphereOverPrim Radius).
Proof.
  destruct (deserialize_dirty Sample.unknownDefPrim Sample.radiusOnly) as (Hdef & _).
  destruct (deserialize_dirty Sample.sphereOverPrim LightData_init) as (_ & Hover).
  split; [apply Hdef; reflexivity |].
  apply Hover. vm_compute. discriminate.
Defined.

Lemma LightData_ctor_dirty_witness :
  m_dirty Sample.fullyDefinedUnknown = m_allDirty
  /\ Flags_test (m_dirty Sample.radiusAndTransform) (k_ Radius)
     = isSome (authored Sample.sphereOverPrim Radius)
  /\ Flags_test (m_dirty Sample.radiusAndTransform) k_Transform = true.
Proof.
  destruct (LightData_ctor_dirty Sample.unknownDefPrim None false false)
    as (_ & _ & Hdef & _).
  destruct (LightData_ctor_dirty Sample.sphereOverPrim (Some (diag f2 f2 f2)) true false)
    as (_ & _ & _ & Hover).
  split; [apply Hdef; reflexivity |].
  assert (Hspec : GetSpecifier Sample.sphereOverPrim <> SdfSpecifierDef)
    by (vm_compute; discriminate).
  destruct (Hover Hspec) as (Hconst & Htransform).
  split; [exact (Hconst Radius) | exact Htransform].
Defined.

Lemma dirty_mask_within_allDirty_witness :
  dirtyWithinAll
    (sanitizeData (value (merge_D3DLIGHT9 Sample.options Sample.intensity
                            Sample.radiusOnly pointLight_1_2_3))).
Proof.
  destruct (dirty_mask_within_allDirty Sample.options Sample.intensity) as (Hctor & Hsteps).
  apply (Hsteps Sample.radiusOnly).
  - eapply steps_cons; [apply step_merge_D3DLIGHT9 |].
    eapply steps_cons; [apply step_sanitizeData |].
    apply steps_refl.
  - apply (Hctor Sample.sphereOverPrim None true false).
Defined.

Lemma zero_direction_falls_back_witness :
  m_zAxis (createFromDirectional Sample.options zeroDirectionSpot) = mkVector3 f0 f0 f1
  /\ m_zAxis (value (createFromPointSpot Sample.options Sample.intensity zeroDirectionSpot))
     = mkVector3 f0 f0 f1
  /\ events (createFromPointSpot Sample.options Sample.intensity zeroDirectionSpot) = [].
Proof.
  assert (Hdir : Direction zeroDirectionSpot
                 = mkVector3 (S754_zero false) (S754_zero false) (S754_zero false))
    by reflexivity.
  destruct (zero_direction_falls_back Sample.options Sample.intensity zeroDirectionSpot
              false false false Hdir) as (Hdirectional & Hspot).
  split; [exact Hdirectional |]. apply Hspot. reflexivity.
Defined.

Lemma lowering_uses_largest_scale_witness :
  exists (s : float) (radiance : Vector3) (shaping : RtLightShaping),
    shape (value (toRtLight Sample.radiusAndTransform None)) =
      RtSphereLight (m_position Sample.radiusAndTransform) radiance
        (m_ Sample.radiusAndTransform Radius * s)%f32 shaping
        (m_cachedHash Sample.radiusAndTransform)
    /\ (s <? m_xScale Sample.radiusAndTransform)%f32 = false.
Proof.
  assert (Hvx : valid32 (m_xScale Sample.radiusAndTransform) = true)
    by (vm_compute; reflexivity).
  assert (Hvy : valid32 (m_yScale Sample.radiusAndTransform) = true)
    by (vm_compute; reflexivity).
  assert (Hvz : valid32 (m_zScale Sample.radiusAndTransform) = true)
    by (vm_compute; reflexivity).
  assert (Hfx : is_finite (m_xScale Sample.radiusAndTransform) = true)
    by (vm_compute; reflexivity).
  assert (Hfy : is_finite (m_yScale Sample.radiusAndTransform) = true)
    by (vm_compute; reflexivity).
  assert (Hfz : is_finite (m_zScale Sample.radiusAndTransform) = true)
    by (vm_compute; reflexivity).
  assert (Htype : m_lightType Sample.radiusAndTransform = Sphere)
    by (vm_compute; reflexivity).
  destruct (lowering_uses_largest_scale Sample.radiusAndTransform Hvx Hvy Hvz Hfx Hfy Hfz)
    as (Hsphere & _).
  destruct (Hsphere Htype) as (s & radiance & shaping & Hshape & _ & Hx & _).
  exists s, radiance, shaping. split; [exact Hshape | exact Hx].
Defined.

(** * Properties of the query pool *)

Module QueryPoolProperties.

Import QueryPool.

Lemma bind_Returned {A B : Type} (a : A) (es : list Effect) (k : A -> P B) :
  bind (Returned a, es) k = (fst (k a), es ++ snd (k a)).
Proof. reflexivity. Qed.

Lemma bind_Thrown {A B : Type} (es : list Effect) (k : A -> P B) :
  bind (@Thrown_out_of_range A, es) k = (Thrown_out_of_range, es).
Proof. reflexivity. Qed.

Lemma list_set_split {A : Type} (a : list A) (n : nat) (v w : A) :
  nth_error a n = Some w ->
  list_set a n v = firstn n a ++ v :: skipn (S n) a.
Proof.
  revert n. induction a as [| u a IH]; intros n H.
  - destruct n; discriminate.
  - destruct n as [| n]; cbn [list_set firstn skipn app]; [reflexivity |].
    cbn [nth_error] in H. rewrite (IH n H). reflexivity.
Qed.

Lemma skipn_cons_nth {A : Type} (a : list A) (n : nat) (w : A) :
  nth_error a n = Some w -> skipn n a = w :: skipn (S n) a.
Proof.
  revert n. induction a as [| u a IH]; intros n H.
  - destruct n; discriminate.
  - destruct n as [| n]; cbn [nth_error] in H; [injection H as ->; reflexivity |].
    cbn [skipn]. apply IH. exact H.
Qed.

Lemma nth_error_in_range {A : Type} (a : list A) (n : nat) :
  (n < List.length a)%nat -> exists w, nth_error a n = Some w.
Proof.
  intros H. destruct (nth_error a n) as [w |] eqn:E; [exists w; reflexivity |].
  apply nth_error_None in E. lia.
Qed.

Lemma uint32_small (n : N) : (n < 2 ^ 32)%N -> uint32 n = n.
Proof. intros H. unfold uint32. apply N.mod_small. exact H. Qed.

Lemma allocQuery_free_slot (this : DxvkQueryPool) (q : DxvkQueryRevision)
    (w : option DxvkQueryRevision) :
  nth_error (m_queries this) (N.to_nat (m_queryId this)) = Some w ->
  allocQuery this q =
    (Returned
       (mkHandle (m_queryPool this) (m_queryId this),
        mkPool (m_queryPool this) (m_queryType this)
          (firstn (N.to_nat (m_queryId this)) (m_queries this)
           ++ Some q :: skipn (S (N.to_nat (m_queryId this))) (m_queries this))
          (uint32 (m_queryId this + 1))),
     [associateQuery (query q) (revision q)
        (mkHandle (m_queryPool this) (m_queryId this))]).
Proof.
  intros Hw. unfold allocQuery, array_at_put. rewrite Hw.
  rewrite (list_set_split _ _ (Some q) w Hw). reflexivity.
Qed.

(** X22: allocQuery on a pool with a free slot returns the handle made
    of the pool and the next id, after associating the query with it;
    the query then sits in the slot of that id, every other slot keeps its
    content, and the next id is one higher. *)
Theorem allocQuery_takes_next_slot (this : DxvkQueryPool) (q : DxvkQueryRevision) :
  (N.to_nat (m_queryId this) < List.length (m_queries this))%nat ->
  exists this' : DxvkQueryPool,
    allocQuery this q =
      (Returned (mkHandle (m_queryPool this) (m_queryId this), this'),
       [associateQuery (query q) (revision q)
          (mkHandle (m_queryPool this) (m_queryId this))])
    /\ nth_error (m_queries this') (N.to_nat (m_queryId this)) = Some (Some q)
    /\ (forall j : nat, j <> N.to_nat (m_queryId this) ->
          nth_error (m_queries this') j = nth_error (m_queries this) j)
    /\ List.length (m_queries this') = List.length (m_queries this)
    /\ m_queryId this' = uint32 (m_queryId this + 1)
    /\ m_queryPool this' = m_queryPool this.
Proof.
  intros Hfree. destruct (nth_error_in_range _ _ Hfree) as [w Hw].
  rewrite (allocQuery_free_slot this q w Hw).
  eexists. split; [reflexivity |]. cbn [m_queries m_queryId m_queryPool].
  set (n := N.to_nat (m_queryId this)) in *.
  assert (Hlen : List.length (firstn n (m_queries this)) = n)
    by (apply firstn_length_le; lia).
  assert (Hsplit : m_queries this =
                   firstn n (m_queries this) ++ w :: skipn (S n) (m_queries this)).
  { rewrite <- (skipn_cons_nth _ _ w Hw). symmetry. apply firstn_skipn. }
  revert Hlen Hsplit.
  generalize (firstn n (m_queries this)) as f.
  generalize (skipn (S n) (m_queries this)) as s.
  intros s f Hlen Hsplit.
  split; [| split; [| split; [| split; reflexivity]]].
  - rewrite nth_error_app2 by lia. rewrite Hlen, Nat.sub_diag. reflexivity.
  - intros j Hj. rewrite Hsplit.
    destruct (Nat.lt_ge_cases j n) as [Hlt | Hge].
    + rewrite !nth_error_app1 by lia. reflexivity.
    + rewrite !nth_error_app2 by lia. rewrite Hlen.
      destruct (j - n)%nat as [| k] eqn:Ek; [lia | reflexivity].
  - rewrite Hsplit, !length_app. reflexivity.
Qed.

(** X23: allocQuery on a pool whose slots are used up throws
    [std::out_of_range] and returns nothing -- but only after it has
    associated the query with a handle whose id lies outside the pool. *)
Theorem allocQuery_full_pool_throws (this : DxvkQueryPool) (q : DxvkQueryRevision) :
  (List.length (m_queries this) <= N.to_nat (m_queryId this))%nat ->
  allocQuery this q =
    (Thrown_out_of_range,
     [associateQuery (query q) (revision q)
        (mkHandle (m_queryPool this) (m_queryId this))]).
Proof.
  intros Hfull. unfold allocQuery, array_at_put.
  replace (nth_error (m_queries this) (N.to_nat (m_queryId this))) with
    (@None (option DxvkQueryRevision)) by (symmetry; apply nth_error_None; exact Hfull).
  reflexivity.
Qed.

Lemma allocQueries_spec (qs : list DxvkQueryRevision) :
  forall this : DxvkQueryPool,
    (N.to_nat (m_queryId this) + List.length qs <= List.length (m_queries this))%nat ->
    (N.of_nat (List.length (m_queries this)) < 2 ^ 32)%N ->
    exists (this' : DxvkQueryPool) (effects : list Effect),
      allocQueries this qs =
        (Returned
           (map (fun k => mkHandle (m_queryPool this) (m_queryId this + N.of_nat k)%N)
              (seq 0 (List.length qs)),
            this'),
         effects)
      /\ m_queries this' =
         firstn (N.to_nat (m_queryId this)) (m_queries this) ++ map Some qs
         ++ skipn (N.to_nat (m_queryId this) + List.length qs) (m_queries this)
      /\ m_queryId this' = (m_queryId this + N.of_nat (List.length qs))%N
      /\ m_queryPool this' = m_queryPool this.
Proof.
  induction qs as [| q qs IH]; intros this Hroom Hsize.
  - exists this, []. cbn [allocQueries List.length seq map].
    split; [reflexivity |]. split; [| split; [lia | reflexivity]].
    rewrite Nat.add_0_r. cbn [app]. symmetry. apply firstn_skipn.
  - cbn [List.length] in Hroom.
    set (n := N.to_nat (m_queryId this)) in *.
    destruct (nth_error_in_range (m_queries this) n) as [w Hw]; [lia |].
    pose proof (allocQuery_free_slot this q w Hw) as Ha. fold n in Ha.
    set (this1 := mkPool (m_queryPool this) (m_queryType this)
                    (firstn n (m_queries this) ++ Some q :: skipn (S n) (m_queries this))
                    (uint32 (m_queryId this + 1))) in *.
    assert (Hlenf : List.length (firstn n (m_queries this)) = n)
      by (apply firstn_length_le; lia).
    assert (Hid1 : m_queryId this1 = (m_queryId this + 1)%N).
    { subst this1. cbn [m_queryId]. apply uint32_small. lia. }
    assert (Hq1 : m_queries this1 =
                  firstn n (m_queries this) ++ Some q :: skipn (S n) (m_queries this))
      by reflexivity.
    assert (Hp : m_queryPool this1 = m_queryPool this) by reflexivity.
    assert (Hlen : List.length (m_queries this1) = List.length (m_queries this)).
    { rewrite Hq1. rewrite <- (firstn_skipn n (m_queries this)) at 3.
      rewrite (skipn_cons_nth _ _ w Hw), !length_app. reflexivity. }
    clearbody this1.
    destruct (IH this1) as (this2 & eff & Hrec & Hqs & Hid2 & Hp2);
      [rewrite Hid1, Hlen; lia | rewrite Hlen; exact Hsize |].
    exists this2. eexists.
    cbn [allocQueries]. rewrite Ha, bind_Returned. cbn [fst snd].
    rewrite Hrec, bind_Returned. unfold ret. cbn [fst snd].
    split; [| split; [| split]].
    + cbn [List.length].
      replace (map (fun k => mkHandle (m_queryPool this) (m_queryId this + N.of_nat k)%N)
                 (seq 0 (S (List.length qs))))
        with (mkHandle (m_queryPool this) (m_queryId this)
              :: map (fun k => mkHandle (m_queryPool this1) (m_queryId this1 + N.of_nat k)%N)
                   (seq 0 (List.length qs))); [reflexivity |].
      cbn [seq map]. f_equal.
      * rewrite N.add_0_r. reflexivity.
      * rewrite <- seq_shift, map_map. apply map_ext. intros k.
        rewrite Hp, Hid1. f_equal. lia.
    + rewrite Hqs, Hid1. cbn [map].
      replace (N.to_nat (m_queryId this + 1)) with (S n) by (subst n; lia).
      rewrite Hq1.
      replace (S n) with (List.length (firstn n (m_queries this)) + 1)%nat at 1 by lia.
      rewrite firstn_app_2. cbn [firstn].
      replace (S n + List.length qs)%nat
        with (List.length (firstn n (m_queries this)) + (1 + List.length qs))%nat by lia.
      rewrite skipn_app.
      replace (skipn _ (firstn n (m_queries this))) with (@nil (option DxvkQueryRevision))
        by (symmetry; apply skipn_all2; lia).
      replace (List.length (firstn n (m_queries this)) + (1 + List.length qs)
               - List.length (firstn n (m_queries this)))%nat
        with (S (List.length qs)) by lia.
      rewrite skipn_cons, skipn_skipn, <- app_assoc. cbn [app List.length].
      replace (List.length qs + S n)%nat with (n + S (List.length qs))%nat by lia.
      reflexivity.
    + rewrite Hid2, Hid1. cbn [List.length]. lia.
    + rewrite Hp2, Hp. reflexivity.
Qed.

Lemma NoDup_map_injective {A B : Type} (f : A -> B) (l : list A) :
  (forall x y : A, f x = f y -> x = y) -> NoDup l -> NoDup (map f l).
Proof.
  intros Hinj. induction 1 as [| x l Hx Hl IH]; cbn [map]; constructor.
  - intros Hin. apply in_map_iff in Hin. destruct Hin as (y & Hy & Hin).
    apply Hinj in Hy. subst y. contradiction.
  - exact IH.
Qed.

(** X24: allocating a run of queries that fits into the pool hands out
    handles with consecutive ids, no two of them equal, stores each query
    in the slot its handle names, and leaves the next id right after the
    run. *)
Theorem allocQueries_consecutive_handles
    (this : DxvkQueryPool) (qs : list DxvkQueryRevision) :
  (N.to_nat (m_queryId this) + List.length qs <= List.length (m_queries this))%nat ->
  (N.of_nat (List.length (m_queries this)) < 2 ^ 32)%N ->
  exists (handles : list DxvkQueryHandle) (this' : DxvkQueryPool) (effects : list Effect),
    allocQueries this qs = (Returned (handles, this'), effects)
    /\ handles =
       map (fun k => mkHandle (m_queryPool this) (m_queryId this + N.of_nat k)%N)
         (seq 0 (List.length qs))
    /\ NoDup handles
    /\ (forall (k : nat) (q : DxvkQueryRevision),
          nth_error qs k = Some q ->
          nth_error (m_queries this') (N.to_nat (m_queryId this) + k) = Some (Some q))
    /\ m_queryId this' = (m_queryId this + N.of_nat (List.length qs))%N.
Proof.
  intros Hroom Hsize.
  destruct (allocQueries_spec qs this Hroom Hsize) as (this' & eff & Hrun & Hqs & Hid & _).
  eexists. exists this', eff. split; [exact Hrun |]. split; [reflexivity |].
  split; [| split; [| exact Hid]].
  - apply NoDup_map_injective; [| apply seq_NoDup].
    intros j k Hjk. injection Hjk as Hjk. lia.
  - intros k q Hk. rewrite Hqs.
    assert (Hlen : List.length (firstn (N.to_nat (m_queryId this)) (m_queries this))
                   = N.to_nat (m_queryId this))
      by (apply firstn_length_le; lia).
    rewrite nth_error_app2 by lia. rewrite Hlen.
    replace (N.to_nat (m_queryId this) + k - N.to_nat (m_queryId this))%nat with k by lia.
    rewrite nth_error_app1
      by (rewrite length_map; apply nth_error_Some; congruence).
    rewrite nth_error_map, Hk. reflexivity.
Qed.

Section GetDataProperties.

Variable MaxNumQueryCountPerPool : nat.
Variable vkGetQueryPoolResults : Z -> N -> N -> VkResult * (nat -> DxvkQueryData).

Lemma results_at (written : nat -> DxvkQueryData) (k : nat) :
  (k < MaxNumQueryCountPerPool)%nat ->
  array_at (map written (seq 0 MaxNumQueryCountPerPool)) (N.of_nat k) = ret (written k).
Proof.
  intros Hk. unfold array_at.
  replace (N.to_nat (N.of_nat k)) with k by lia.
  rewrite nth_error_map.
  replace (nth_error (seq 0 MaxNumQueryCountPerPool) k) with (Some k); [reflexivity |].
  symmetry. rewrite (nth_error_nth' _ 0%nat) by (rewrite length_seq; exact Hk).
  rewrite seq_nth by exact Hk. reflexivity.
Qed.

Lemma queries_at (this : DxvkQueryPool) (queryIndex : N) (i : nat) :
  (N.of_nat (List.length (m_queries this)) < 2 ^ 32)%N ->
  (N.to_nat queryIndex + i <= List.length (m_queries this))%nat ->
  array_at (m_queries this) (uint32 (queryIndex + N.of_nat i)) =
    match nth_error (m_queries this) (N.to_nat queryIndex + i) with
    | Some slot => ret slot
    | None => throw
    end.
Proof.
  intros Hsize Hi. rewrite uint32_small by lia. unfold array_at.
  replace (N.to_nat (queryIndex + N.of_nat i)) with (N.to_nat queryIndex + i)%nat by lia.
  reflexivity.
Qed.

Lemma updates_cons (written : nat -> DxvkQueryData) (first : nat)
    (q : DxvkQueryRevision) (queries : list DxvkQueryRevision) :
  updates written first (q :: queries) =
    updateData (query q) (revision q) (written first)
    :: updates written (S first) queries.
Proof. reflexivity. Qed.

(** The first slot of a run of allocated slots. *)
Lemma allocated_head {A : Type} (a : list (option A)) (n k : nat) (q : A) (rest : list A) :
  firstn (S k) (skipn n a) = map Some (q :: rest) ->
  nth_error a n = Some (Some q) /\ firstn k (skipn (S n) a) = map Some rest.
Proof.
  intros H. destruct (nth_error a n) as [w |] eqn:E.
  - rewrite (skipn_cons_nth _ _ w E) in H. cbn [firstn map] in H.
    injection H as -> H. split; [reflexivity | exact H].
  - apply nth_error_None in E. rewrite skipn_all2 in H by exact E. discriminate H.
Qed.

Lemma updateLoop_in_range (this : DxvkQueryPool) (written : nat -> DxvkQueryData)
    (queryIndex : N) (allocated : list DxvkQueryRevision) :
  (N.of_nat (List.length (m_queries this)) < 2 ^ 32)%N ->
  forall i : nat,
    (i + List.length allocated <= MaxNumQueryCountPerPool)%nat ->
    (N.to_nat queryIndex + i + List.length allocated <= List.length (m_queries this))%nat ->
    firstn (List.length allocated) (skipn (N.to_nat queryIndex + i) (m_queries this))
    = map Some allocated ->
    updateLoop this (map written (seq 0 MaxNumQueryCountPerPool)) queryIndex (N.of_nat i)
      (List.length allocated) =
      (Returned tt, updates written i allocated).
Proof.
  intros Hsize. induction allocated as [| q rest IH]; intros i Hmax Hlen Hrun.
  - reflexivity.
  - cbn [List.length] in *. cbn [updateLoop].
    rewrite queries_at by (try exact Hsize; lia).
    destruct (allocated_head _ _ _ _ _ Hrun) as [Hq Hrest].
    rewrite Hq, updates_cons.
    unfold ret at 1. rewrite bind_Returned.
    rewrite results_at by lia. unfold ret at 1. rewrite bind_Returned.
    unfold call. rewrite bind_Returned.
    replace (N.of_nat i + 1)%N with (N.of_nat (S i)) by lia.
    rewrite IH; [reflexivity | lia | lia |].
    replace (N.to_nat queryIndex + S i)%nat with (S (N.to_nat queryIndex + i)) by lia.
    exact Hrest.
Qed.

Lemma updateLoop_out_of_range (this : DxvkQueryPool) (written : nat -> DxvkQueryData)
    (queryIndex : N) (allocated : list DxvkQueryRevision) :
  (N.of_nat (List.length (m_queries this)) < 2 ^ 32)%N ->
  forall i n : nat,
    (List.length allocated < n)%nat ->
    (i + List.length allocated <= MaxNumQueryCountPerPool)%nat ->
    (N.to_nat queryIndex + i + List.length allocated = List.length (m_queries this))%nat ->
    skipn (N.to_nat queryIndex + i) (m_queries this) = map Some allocated ->
    updateLoop this (map written (seq 0 MaxNumQueryCountPerPool)) queryIndex (N.of_nat i) n =
      (Thrown_out_of_range, updates written i allocated).
Proof.
  intros Hsize. induction allocated as [| q rest IH]; intros i n Hn Hmax Hlen Hrun.
  - cbn [List.length] in *. destruct n as [| n]; [lia |]. cbn [updateLoop].
    rewrite queries_at by (try exact Hsize; lia).
    replace (nth_error (m_queries this) (N.to_nat queryIndex + i))
      with (@None (option DxvkQueryRevision)) by (symmetry; apply nth_error_None; lia).
    unfold throw. rewrite bind_Thrown. reflexivity.
  - cbn [List.length] in *. destruct n as [| n]; [lia |]. cbn [updateLoop].
    rewrite queries_at by (try exact Hsize; lia).
    assert (Hhead : nth_error (m_queries this) (N.to_nat queryIndex + i) = Some (Some q)
                    /\ skipn (S (N.to_nat queryIndex + i)) (m_queries this) = map Some rest).
    { destruct (nth_error_in_range (m_queries this) (N.to_nat queryIndex + i)) as [w Hw];
        [lia |].
      rewrite (skipn_cons_nth _ _ w Hw) in Hrun. cbn [map] in Hrun.
      injection Hrun as -> Hrun. split; [exact Hw | exact Hrun]. }
    destruct Hhead as [Hq Hrest].
    rewrite Hq, updates_cons.
    unfold ret at 1. rewrite bind_Returned.
    rewrite results_at by lia. unfold ret at 1. rewrite bind_Returned.
    unfold call. rewrite bind_Returned.
    replace (N.of_nat i + 1)%N with (N.of_nat (S i)) by lia.
    rewrite (IH (S i) n); [reflexivity | lia | lia | lia |].
    replace (N.to_nat queryIndex + S i)%nat with (S (N.to_nat queryIndex + i)) by lia.
    exact Hrest.
Qed.

(** X25: when [vkGetQueryPoolResults] does not succeed, getData returns
    the driver's status unchanged and no query is updated. *)
Theorem getData_failure_updates_nothing (this : DxvkQueryPool) (queryIndex queryCount : N) :
  fst (vkGetQueryPoolResults (m_queryPool this) queryIndex queryCount) <> VK_SUCCESS ->
  getData MaxNumQueryCountPerPool vkGetQueryPoolResults this queryIndex queryCount =
    (Returned (fst (vkGetQueryPoolResults (m_queryPool this) queryIndex queryCount)), []).
Proof.
  unfold getData.
  destruct (vkGetQueryPoolResults (m_queryPool this) queryIndex queryCount)
    as [status written].
  cbn [fst]. intros Hstatus.
  destruct (Z.eqb_spec status VK_SUCCESS) as [E | _]; [contradiction | reflexivity].
Qed.

(** X26: when the driver succeeds, the requested range lies within the
    pool and the result buffer, and every slot of the range has been handed
    out (so that it holds a query), getData returns VK_SUCCESS after
    updating the queries of slots queryIndex, queryIndex + 1, ... in that
    order, the i-th of them with the i-th result and with the revision it
    was stored with. *)
Theorem getData_updates_in_order (this : DxvkQueryPool) (queryIndex queryCount : N)
    (allocated : list DxvkQueryRevision) :
  fst (vkGetQueryPoolResults (m_queryPool this) queryIndex queryCount) = VK_SUCCESS ->
  (N.of_nat (List.length (m_queries this)) < 2 ^ 32)%N ->
  (N.to_nat queryCount <= MaxNumQueryCountPerPool)%nat ->
  (N.to_nat queryIndex + N.to_nat queryCount <= List.length (m_queries this))%nat ->
  firstn (N.to_nat queryCount) (skipn (N.to_nat queryIndex) (m_queries this))
  = map Some allocated ->
  getData MaxNumQueryCountPerPool vkGetQueryPoolResults this queryIndex queryCount =
    (Returned VK_SUCCESS,
     updates (snd (vkGetQueryPoolResults (m_queryPool this) queryIndex queryCount)) 0
       allocated).
Proof.
  unfold getData.
  destruct (vkGetQueryPoolResults (m_queryPool this) queryIndex queryCount)
    as [status written].
  cbn [fst snd]. intros -> Hsize Hmax Hlen Hrun. cbn [Z.eqb VK_SUCCESS negb].
  assert (Hcount : N.to_nat queryCount = List.length allocated).
  { rewrite <- (length_map Some allocated), <- Hrun, length_firstn, length_skipn. lia. }
  rewrite Hcount in *.
  change 0%N with (N.of_nat 0).
  rewrite (updateLoop_in_range this written queryIndex allocated Hsize 0);
    [| lia | lia | rewrite Nat.add_0_r; exact Hrun].
  rewrite bind_Returned. unfold ret. cbn [fst snd].
  rewrite app_nil_r. reflexivity.
Qed.

(** X27: when the driver succeeds but the requested range runs past the
    last slot of the pool, and every slot from queryIndex to the last has
    been handed out, getData throws [std::out_of_range] instead of
    returning a status -- after it has updated every query from queryIndex
    up to the last slot. *)
Theorem getData_past_the_end_throws (this : DxvkQueryPool) (queryIndex queryCount : N)
    (allocated : list DxvkQueryRevision) :
  fst (vkGetQueryPoolResults (m_queryPool this) queryIndex queryCount) = VK_SUCCESS ->
  (N.of_nat (List.length (m_queries this)) < 2 ^ 32)%N ->
  (N.to_nat queryIndex <= List.length (m_queries this))%nat ->
  (List.length (m_queries this) < N.to_nat queryIndex + N.to_nat queryCount)%nat ->
  (List.length (m_queries this) - N.to_nat queryIndex <= MaxNumQueryCountPerPool)%nat ->
  skipn (N.to_nat queryIndex) (m_queries this) = map Some allocated ->
  getData MaxNumQueryCountPerPool vkGetQueryPoolResults this queryIndex queryCount =
    (Thrown_out_of_range,
     updates (snd (vkGetQueryPoolResults (m_queryPool this) queryIndex queryCount)) 0
       allocated).
Proof.
  unfold getData.
  destruct (vkGetQueryPoolResults (m_queryPool this) queryIndex queryCount)
    as [status written].
  cbn [fst snd]. intros -> Hsize Hidx Hpast Hmax Hrun. cbn [Z.eqb VK_SUCCESS negb].
  assert (Hcount : List.length allocated
                   = (List.length (m_queries this) - N.to_nat queryIndex)%nat).
  { rewrite <- (length_map Some allocated), <- Hrun, length_skipn. reflexivity. }
  change 0%N with (N.of_nat 0).
  rewrite (updateLoop_out_of_range this written queryIndex allocated Hsize 0
             (N.to_nat queryCount));
    [| lia | lia | lia | rewrite Nat.add_0_r; exact Hrun].
  rewrite bind_Thrown. reflexivity.
Qed.

(** X28: queries allocated one after the other from an empty pool and
    then read back with one getData over the whole run are updated in the
    order of their allocation, the k-th allocated query with the k-th
    result. *)
Theorem allocQueries_then_getData (this : DxvkQueryPool) (qs : list DxvkQueryRevision) :
  m_queryId this = 0%N ->
  (List.length qs <= List.length (m_queries this))%nat ->
  (List.length qs <= MaxNumQueryCountPerPool)%nat ->
  (N.of_nat (List.length (m_queries this)) < 2 ^ 32)%N ->
  fst (vkGetQueryPoolResults (m_queryPool this) 0 (N.of_nat (List.length qs))) = VK_SUCCESS ->
  exists (handles : list DxvkQueryHandle) (this' : DxvkQueryPool) (effects : list Effect),
    allocQueries this qs = (Returned (handles, this'), effects)
    /\ getData MaxNumQueryCountPerPool vkGetQueryPoolResults this' 0
         (N.of_nat (List.length qs)) =
       (Returned VK_SUCCESS,
        updates (snd (vkGetQueryPoolResults (m_queryPool this) 0 (N.of_nat (List.length qs))))
          0 qs).
Proof.
  intros Hid Hroom Hmax Hsize Hstatus.
  destruct (allocQueries_spec qs this) as (this' & eff & Hrun & Hqs & _ & Hp);
    [rewrite Hid; cbn; lia | exact Hsize |].
  eexists. exists this', eff. split; [exact Hrun |].
  rewrite Hid in Hqs. cbn [N.to_nat firstn app Nat.add] in Hqs.
  assert (Hlen' : List.length (m_queries this') = List.length (m_queries this)).
  { rewrite Hqs, length_app, length_map, length_skipn. lia. }
  unfold getData. rewrite Hp.
  destruct (vkGetQueryPoolResults (m_queryPool this) 0 (N.of_nat (List.length qs)))
    as [status written].
  cbn [fst snd] in *. subst status. cbn [Z.eqb VK_SUCCESS negb].
  replace (N.to_nat (N.of_nat (List.length qs))) with (List.length qs) by lia.
  assert (Hrun' : firstn (List.length qs) (skipn (N.to_nat 0 + 0) (m_queries this'))
                  = map Some qs).
  { cbn [N.to_nat Nat.add skipn]. rewrite Hqs.
    rewrite <- (length_map Some qs) at 1. rewrite firstn_app, Nat.sub_diag, firstn_all.
    cbn [firstn]. apply app_nil_r. }
  pose proof (updateLoop_in_range this' written 0 qs
                ltac:(rewrite Hlen'; exact Hsize) 0%nat
                ltac:(lia) ltac:(rewrite Hlen'; cbn [N.to_nat]; lia) Hrun') as Hloop.
  change (N.of_nat 0) with 0%N in Hloop. rewrite Hloop.
  rewrite bind_Returned. unfold ret. cbn [fst snd].
  rewrite app_nil_r. reflexivity.
Qed.

End GetDataProperties.

(** ** The pool's properties at sample inputs *)

(** A range that reaches a slot never handed out: getData updates the
    queries before it and then calls through the null query. *)
Example getData_slot_never_handed_out :
  getData 3 QueryPoolSample.driver QueryPoolSample.pool 0 2 =
    (Null_dereference, [updateData 10 1 [0]]).
Proof. vm_compute. reflexivity. Qed.

Lemma allocQuery_takes_next_slot_witness :
  exists this' : DxvkQueryPool,
    allocQuery QueryPoolSample.pool (mkRevision 11 4) =
      (Returned (mkHandle 7 1, this'), [associateQuery 11 4 (mkHandle 7 1)])
    /\ nth_error (m_queries this') 1 = Some (Some (mkRevision 11 4))
    /\ m_queryId this' = 2%N.
Proof.
  destruct (allocQuery_takes_next_slot QueryPoolSample.pool (mkRevision 11 4))
    as (this' & Halloc & Hslot & _ & _ & Hid & _); [vm_compute; lia |].
  exists this'. split; [exact Halloc |]. split; [exact Hslot | exact Hid].
Defined.

Lemma allocQuery_full_pool_throws_witness :
  allocQuery QueryPoolSample.fullPool (mkRevision 13 1) =
    (Thrown_out_of_range, [associateQuery 13 1 (mkHandle 7 3)]).
Proof.
  apply (allocQuery_full_pool_throws QueryPoolSample.fullPool (mkRevision 13 1)).
  vm_compute. lia.
Defined.

Lemma allocQueries_consecutive_handles_witness :
  exists (this' : DxvkQueryPool) (effects : list Effect),
    allocQueries QueryPoolSample.pool [mkRevision 11 4; mkRevision 12 2] =
      (Returned ([mkHandle 7 1; mkHandle 7 2], this'), effects)
    /\ nth_error (m_queries this') 2 = Some (Some (mkRevision 12 2))
    /\ m_queryId this' = 3%N.
Proof.
  destruct (allocQueries_consecutive_handles QueryPoolSample.pool
              [mkRevision 11 4; mkRevision 12 2])
    as (handles & this' & effects & Hrun & Hhandles & _ & Hstored & Hid);
    [vm_compute; lia | vm_compute; reflexivity |].
  exists this', effects. rewrite Hhandles in Hrun.
  split; [exact Hrun |]. split; [| exact Hid].
  apply (Hstored 1%nat). reflexivity.
Defined.

Lemma getData_failure_updates_nothing_witness :
  getData 3 QueryPoolSample.lostDevice QueryPoolSample.fullPool 0 3 =
    (Returned QueryPoolSample.VK_ERROR_DEVICE_LOST, []).
Proof.
  apply (getData_failure_updates_nothing 3 QueryPoolSample.lostDevice
           QueryPoolSample.fullPool 0 3).
  vm_compute. discriminate.
Defined.

Lemma getData_updates_in_order_witness :
  getData 3 QueryPoolSample.driver QueryPoolSample.fullPool 1 2 =
    (Returned VK_SUCCESS, [updateData 11 4 [1]; updateData 12 2 [2]]).
Proof.
  apply (getData_updates_in_order 3 QueryPoolSample.driver QueryPoolSample.fullPool 1 2
           [mkRevision 11 4; mkRevision 12 2]).
  - reflexivity.
  - vm_compute. reflexivity.
  - vm_compute. lia.
  - vm_compute. lia.
  - reflexivity.
Defined.

Lemma getData_past_the_end_throws_witness :
  getData 3 QueryPoolSample.driver QueryPoolSample.fullPool 2 2 =
    (Thrown_out_of_range, [updateData 12 2 [2]]).
Proof.
  apply (getData_past_the_end_throws 3 QueryPoolSample.driver QueryPoolSample.fullPool 2 2
           [mkRevision 12 2]).
  - reflexivity.
  - vm_compute. reflexivity.
  - vm_compute. lia.
  - vm_compute. lia.
  - vm_compute. lia.
  - reflexivity.
Defined.

Lemma allocQueries_then_getData_witness :
  exists (handles : list DxvkQueryHandle) (this' : DxvkQueryPool) (effects : list Effect),
    allocQueries QueryPoolSample.emptyPool [mkRevision 10 1; mkRevision 11 4] =
      (Returned (handles, this'), effects)
    /\ getData 3 QueryPoolSample.driver this' 0 2 =
       (Returned VK_SUCCESS, [updateData 10 1 [0]; updateData 11 4 [1]]).
Proof.
  apply (allocQueries_then_getData 3 QueryPoolSample.driver QueryPoolSample.emptyPool
           [mkRevision 10 1; mkRevision 11 4]).
  - reflexivity.
  - vm_compute. lia.
  - vm_compute. lia.
  - vm_compute. reflexivity.
  - reflexivity.
Defined.

End QueryPoolProperties.
